(** * AI presentation generator: slide store, regeneration actions,
      generation pipeline and share links

    A shallow embedding of the state-handling code of [src/index.tsx]
    (the [App] component) together with the properties of its
    specification.

    Conventions of the embedding.
    - The React state variables of [App] are the fields of the record
      [App]; a handler is a function on [App].  A handler that awaits a
      remote call is split at the [await]: one function for the
      synchronous prefix, one for the continuation, which receives the
      outcome of the call.
    - Slide objects live in a store ([heap]) and the [slides] array holds
      references into it, because the handlers copy the array
      ([[...slides]]) but frequently assign to the fields of the objects it
      shares with the previous array.
    - [None] as the result of a handler stands for an exception that no
      [try] of the source catches (a [TypeError] inside a state updater).
    - The strings that the state holds are modelled by [string]: their
      code units are restricted to one byte (Latin-1), the strings on
      which [btoa] does not throw.  The strings of a value that
      [JSON.parse] returns are sequences of 16-bit code units
      ([wstring]), since an escape can denote any of them.
    - The numbers of chart data are doubles: a decimal stands for the
      double nearest to it, one beyond the range of the doubles for an
      infinity, one below it for zero ([roundNumber]). *)

From Stdlib Require Import String Ascii List ZArith NArith QArith Lia Permutation Bool.
From Stdlib Require Import DecimalString DecimalN DecimalFacts.
From stdpp Require Import base option list gmap strings pretty.

Local Open Scope string_scope.
Local Open Scope nat_scope.
Local Open Scope list_scope.

(** ** Data model *)

Inductive AppStep := StepPrompt | StepOutline | StepLoading | StepPresentation.

Inductive SlideLayout := TextLeft | TextRight | ImageFull.

Inductive ChartType := Bar | Line | Pie.

(** A JavaScript number that occurs in chart data: the double written
    as the decimal [mant * 10 ^ exp10], or an infinity.  The
    application never computes with chart numbers; it only stores,
    serialises and plots them.  No operation of the application
    produces [NaN], and none tells the two zeros apart.  Two decimals
    may stand for the same double: equal numbers here are equal
    doubles, and the converse is used only between a number and an
    infinity or [null]. *)
Inductive number :=
  | Number (mant exp10 : Z)
  | Infinite (negative : bool).

(** The least magnitude that rounds to an infinity: [2^1024 - 2^970],
    halfway between the largest double and [2^1024]. *)
Definition overflowThreshold : Z := (2 ^ 1024 - 2 ^ 970)%Z.

(** [|mant * 10 ^ exp10| >= 2^1024 - 2^970]. *)
Definition overflows (mant exp10 : Z) : bool :=
  if (0 <=? exp10)%Z then (overflowThreshold <=? Z.abs mant * 10 ^ exp10)%Z
  else (overflowThreshold * 10 ^ (- exp10) <=? Z.abs mant)%Z.

(** [|mant * 10 ^ exp10| <= 2^-1075], half of the least positive
    double: the decimal rounds to zero. *)
Definition underflows (mant exp10 : Z) : bool :=
  if (0 <=? exp10)%Z then (mant =? 0)%Z
  else (Z.abs mant * 2 ^ 1075 <=? 10 ^ (- exp10))%Z.

(** The number that a decimal stands for: zero, an infinity, or the
    decimal itself, which then denotes the double nearest to it. *)
Definition roundNumber (n : number) : number :=
  match n with
  | Number m e =>
      if underflows m e then Number 0 0
      else if overflows m e then Infinite (m <? 0)%Z
      else n
  | Infinite _ => n
  end.

Definition isZeroNumber (n : number) : bool :=
  match roundNumber n with
  | Number m _ => (m =? 0)%Z
  | Infinite _ => false
  end.


(** An entry of the data of a chart: a number, or the [null] that
    [JSON.stringify] writes for an infinity and [JSON.parse] reads
    back. *)
Inductive datum :=
  | Datum (n : number)
  | NoDatum.

Record Dataset := { ds_label : string; ds_data : list datum }.

Record ChartData := {
  chart_type : ChartType;
  chart_labels : list string;
  chart_datasets : list Dataset
}.

(** [interface Slide]; an optional field that is absent or [undefined] is
    [None]. *)
Record Slide := {
  title : string;
  content : list string;
  imagePrompt : string;
  imageUrl : option string;
  speakerNotes : option string;
  layout : SlideLayout;
  chartData : option ChartData
}.

Record Outline := { outline_title : string; points : list string }.

Record CustomTheme := {
  theme_id : string;
  theme_name : string;
  bg_primary : string;
  bg_secondary : string;
  text_primary : string;
  text_secondary : string;
  accent_primary : string
}.

Inductive LogEntry :=
  | ConsoleError (msg : string)
  | ConsoleWarn (msg : string).

(** A reference to a slide object. *)
Abbreviation ref := nat.

(** The state of the [App] component, with the two drag references
    ([useRef]). [progressReports] lists the arguments of every
    [setProgress] call, oldest first, so the state variable [progress] is
    its last element; [console] lists what was written to the console. *)
Record App := {
  heap : list Slide;
  appStep : AppStep;
  topic : string;
  progressReports : list Q;
  progressText : string;
  outlines : list Outline;
  selectedOutlineIndex : option nat;
  slides : list ref;
  currentSlideIndex : nat;
  theme : string;
  customThemes : list CustomTheme;
  slideActionLoading : gmap string bool;
  isReadOnlyView : bool;
  dragItem : option nat;
  dragOverItem : option nat;
  console : list LogEntry
}.

Definition initialApp : App := {|
  heap := [];
  appStep := StepPrompt;
  topic := "";
  progressReports := [];
  progressText := "";
  outlines := [];
  selectedOutlineIndex := None;
  slides := [];
  currentSlideIndex := 0;
  theme := "dark";
  customThemes := [];
  slideActionLoading := ∅;
  isReadOnlyView := false;
  dragItem := None;
  dragOverItem := None;
  console := []
|}.

(** *** State setters *)

Definition setHeap (h : list Slide) (st : App) : App :=
  {| heap := h; appStep := appStep st; topic := topic st;
     progressReports := progressReports st; progressText := progressText st;
     outlines := outlines st;
     selectedOutlineIndex := selectedOutlineIndex st; slides := slides st;
     currentSlideIndex := currentSlideIndex st; theme := theme st;
     customThemes := customThemes st;
     slideActionLoading := slideActionLoading st;
     isReadOnlyView := isReadOnlyView st; dragItem := dragItem st;
     dragOverItem := dragOverItem st; console := console st |}.

Definition setAppStep (s : AppStep) (st : App) : App :=
  {| heap := heap st; appStep := s; topic := topic st;
     progressReports := progressReports st; progressText := progressText st;
     outlines := outlines st;
     selectedOutlineIndex := selectedOutlineIndex st; slides := slides st;
     currentSlideIndex := currentSlideIndex st; theme := theme st;
     customThemes := customThemes st;
     slideActionLoading := slideActionLoading st;
     isReadOnlyView := isReadOnlyView st; dragItem := dragItem st;
     dragOverItem := dragOverItem st; console := console st |}.

Definition setTopic (t : string) (st : App) : App :=
  {| heap := heap st; appStep := appStep st; topic := t;
     progressReports := progressReports st; progressText := progressText st;
     outlines := outlines st;
     selectedOutlineIndex := selectedOutlineIndex st; slides := slides st;
     currentSlideIndex := currentSlideIndex st; theme := theme st;
     customThemes := customThemes st;
     slideActionLoading := slideActionLoading st;
     isReadOnlyView := isReadOnlyView st; dragItem := dragItem st;
     dragOverItem := dragOverItem st; console := console st |}.

Definition setProgress (p : Q) (st : App) : App :=
  {| heap := heap st; appStep := appStep st; topic := topic st;
     progressReports := progressReports st ++ [p];
     progressText := progressText st; outlines := outlines st;
     selectedOutlineIndex := selectedOutlineIndex st; slides := slides st;
     currentSlideIndex := currentSlideIndex st; theme := theme st;
     customThemes := customThemes st;
     slideActionLoading := slideActionLoading st;
     isReadOnlyView := isReadOnlyView st; dragItem := dragItem st;
     dragOverItem := dragOverItem st; console := console st |}.

Definition setProgressText (t : string) (st : App) : App :=
  {| heap := heap st; appStep := appStep st; topic := topic st;
     progressReports := progressReports st; progressText := t;
     outlines := outlines st;
     selectedOutlineIndex := selectedOutlineIndex st; slides := slides st;
     currentSlideIndex := currentSlideIndex st; theme := theme st;
     customThemes := customThemes st;
     slideActionLoading := slideActionLoading st;
     isReadOnlyView := isReadOnlyView st; dragItem := dragItem st;
     dragOverItem := dragOverItem st; console := console st |}.

Definition setOutlines (o : list Outline) (st : App) : App :=
  {| heap := heap st; appStep := appStep st; topic := topic st;
     progressReports := progressReports st; progressText := progressText st;
     outlines := o; selectedOutlineIndex := selectedOutlineIndex st;
     slides := slides st; currentSlideIndex := currentSlideIndex st;
     theme := theme st; customThemes := customThemes st;
     slideActionLoading := slideActionLoading st;
     isReadOnlyView := isReadOnlyView st; dragItem := dragItem st;
     dragOverItem := dragOverItem st; console := console st |}.

Definition setSelectedOutlineIndex (i : option nat) (st : App) : App :=
  {| heap := heap st; appStep := appStep st; topic := topic st;
     progressReports := progressReports st; progressText := progressText st;
     outlines := outlines st; selectedOutlineIndex := i;
     slides := slides st; currentSlideIndex := currentSlideIndex st;
     theme := theme st; customThemes := customThemes st;
     slideActionLoading := slideActionLoading st;
     isReadOnlyView := isReadOnlyView st; dragItem := dragItem st;
     dragOverItem := dragOverItem st; console := console st |}.

Definition setSlides (l : list ref) (st : App) : App :=
  {| heap := heap st; appStep := appStep st; topic := topic st;
     progressReports := progressReports st; progressText := progressText st;
     outlines := outlines st;
     selectedOutlineIndex := selectedOutlineIndex st; slides := l;
     currentSlideIndex := currentSlideIndex st; theme := theme st;
     customThemes := customThemes st;
     slideActionLoading := slideActionLoading st;
     isReadOnlyView := isReadOnlyView st; dragItem := dragItem st;
     dragOverItem := dragOverItem st; console := console st |}.

Definition setCurrentSlideIndex (i : nat) (st : App) : App :=
  {| heap := heap st; appStep := appStep st; topic := topic st;
     progressReports := progressReports st; progressText := progressText st;
     outlines := outlines st;
     selectedOutlineIndex := selectedOutlineIndex st; slides := slides st;
     currentSlideIndex := i; theme := theme st;
     customThemes := customThemes st;
     slideActionLoading := slideActionLoading st;
     isReadOnlyView := isReadOnlyView st; dragItem := dragItem st;
     dragOverItem := dragOverItem st; console := console st |}.

Definition setSlideActionLoading (m : gmap string bool) (st : App) : App :=
  {| heap := heap st; appStep := appStep st; topic := topic st;
     progressReports := progressReports st; progressText := progressText st;
     outlines := outlines st;
     selectedOutlineIndex := selectedOutlineIndex st; slides := slides st;
     currentSlideIndex := currentSlideIndex st; theme := theme st;
     customThemes := customThemes st; slideActionLoading := m;
     isReadOnlyView := isReadOnlyView st; dragItem := dragItem st;
     dragOverItem := dragOverItem st; console := console st |}.

Definition setDragRefs (src dst : option nat) (st : App) : App :=
  {| heap := heap st; appStep := appStep st; topic := topic st;
     progressReports := progressReports st; progressText := progressText st;
     outlines := outlines st;
     selectedOutlineIndex := selectedOutlineIndex st; slides := slides st;
     currentSlideIndex := currentSlideIndex st; theme := theme st;
     customThemes := customThemes st;
     slideActionLoading := slideActionLoading st;
     isReadOnlyView := isReadOnlyView st; dragItem := src;
     dragOverItem := dst; console := console st |}.

Definition consoleLog (e : LogEntry) (st : App) : App :=
  {| heap := heap st; appStep := appStep st; topic := topic st;
     progressReports := progressReports st; progressText := progressText st;
     outlines := outlines st;
     selectedOutlineIndex := selectedOutlineIndex st; slides := slides st;
     currentSlideIndex := currentSlideIndex st; theme := theme st;
     customThemes := customThemes st;
     slideActionLoading := slideActionLoading st;
     isReadOnlyView := isReadOnlyView st; dragItem := dragItem st;
     dragOverItem := dragOverItem st; console := console st ++ [e] |}.

Definition setTheme (t : string) (st : App) : App :=
  {| heap := heap st; appStep := appStep st; topic := topic st;
     progressReports := progressReports st; progressText := progressText st;
     outlines := outlines st;
     selectedOutlineIndex := selectedOutlineIndex st; slides := slides st;
     currentSlideIndex := currentSlideIndex st; theme := t;
     customThemes := customThemes st;
     slideActionLoading := slideActionLoading st;
     isReadOnlyView := isReadOnlyView st; dragItem := dragItem st;
     dragOverItem := dragOverItem st; console := console st |}.

Definition setCustomThemes (l : list CustomTheme) (st : App) : App :=
  {| heap := heap st; appStep := appStep st; topic := topic st;
     progressReports := progressReports st; progressText := progressText st;
     outlines := outlines st;
     selectedOutlineIndex := selectedOutlineIndex st; slides := slides st;
     currentSlideIndex := currentSlideIndex st; theme := theme st;
     customThemes := l; slideActionLoading := slideActionLoading st;
     isReadOnlyView := isReadOnlyView st; dragItem := dragItem st;
     dragOverItem := dragOverItem st; console := console st |}.

Definition setIsReadOnlyView (b : bool) (st : App) : App :=
  {| heap := heap st; appStep := appStep st; topic := topic st;
     progressReports := progressReports st; progressText := progressText st;
     outlines := outlines st;
     selectedOutlineIndex := selectedOutlineIndex st; slides := slides st;
     currentSlideIndex := currentSlideIndex st; theme := theme st;
     customThemes := customThemes st;
     slideActionLoading := slideActionLoading st; isReadOnlyView := b;
     dragItem := dragItem st; dragOverItem := dragOverItem st;
     console := console st |}.

(** [setActionLoading]: the key is the template string
    [`${action}-${index}`]. *)
Definition actionKey (action : string) (index : nat) : string :=
  action ++ "-" ++ pretty index.

Definition setActionLoading (action : string) (index : nat) (value : bool)
    (st : App) : App :=
  setSlideActionLoading (<[actionKey action index := value]> (slideActionLoading st)) st.

(** ** JavaScript arrays *)

Section Arrays.
Context {A : Type}.

(** [arr.filter((x, i) => p(i, x))]. *)
Fixpoint filter_from (p : nat -> A -> bool) (i : nat) (l : list A) : list A :=
  match l with
  | [] => []
  | x :: l' =>
      if p i x then x :: filter_from p (S i) l' else filter_from p (S i) l'
  end.

Definition js_filter (p : nat -> A -> bool) (l : list A) : list A :=
  filter_from p 0 l.

(** The array left by [arr.splice(start, 1)]. *)
Definition splice_out (start : nat) (l : list A) : list A :=
  take start l ++ drop (S start) l.

(** The array left by [arr.splice(start, 0, x)]: a [start] beyond the
    end is clamped to the length, so [x] is appended. *)
Definition splice_in (start : nat) (x : A) (l : list A) : list A :=
  take start l ++ x :: drop start l.
End Arrays.

(** ** Slide store: delete and reorder *)

(** [handleDeleteSlide], lines 682-689. *)
Definition handleDeleteSlide (index : nat) (st : App) : App :=
  if (length (slides st) <=? 1) || isReadOnlyView st then st
  else
    let newSlides := js_filter (fun i _ => negb (i =? index)) (slides st) in
    let st1 := setSlides newSlides st in
    if index <=? currentSlideIndex st
    then setCurrentSlideIndex (Nat.max 0 (currentSlideIndex st - 1)) st1
    else st1.

(** The index bookkeeping of [handleDragSort], lines 701-708. *)
Definition dragSortIndex (src dst cur : nat) : nat :=
  if cur =? src then dst
  else if (src <? cur) && (cur <=? dst) then cur - 1
  else if (cur <? src) && (dst <=? cur) then cur + 1
  else cur.

(** [handleDragSort], lines 694-715. [dragItem.current] is an index of
    the rendered list; were it out of range, [splice] would remove
    nothing and [undefined] would be inserted into the array, which the
    typed store cannot hold: the result is [None] then. *)
Definition handleDragSort (st : App) : option App :=
  match dragItem st, dragOverItem st with
  | Some src, Some dst =>
      if (src =? dst) || isReadOnlyView st then Some st
      else
        match slides st !! src with
        | None => None
        | Some draggedItemContent =>
            let newSlides :=
              splice_in dst draggedItemContent (splice_out src (slides st)) in
            let newCurrentIndex := dragSortIndex src dst (currentSlideIndex st) in
            Some (setCurrentSlideIndex newCurrentIndex
                    (setSlides newSlides (setDragRefs None None st)))
        end
  | _, _ => Some st
  end.

(** The cursor rule of a reorder as the specification words it: only an
    index strictly between source and destination shifts. Compared with
    [dragSortIndex] below. *)
Definition strictlyBetweenRule (src dst cur : nat) : nat :=
  if cur =? src then dst
  else if (src <? cur) && (cur <? dst) then cur - 1
  else if (dst <? cur) && (cur <? src) then cur + 1
  else cur.

(** A deck of three slides with the cursor on the last one, about to drag
    the first slide onto the last position. *)
Definition plainSlide (t : string) : Slide :=
  {| title := t; content := []; imagePrompt := ""; imageUrl := None;
     speakerNotes := Some ""; layout := TextLeft; chartData := None |}.

Definition threeSlideDeck : App :=
  setDragRefs (Some 0) (Some 2)
    (setCurrentSlideIndex 2
       (setSlides [0; 1; 2]
          (setHeap [plainSlide "a"; plainSlide "b"; plainSlide "c"]
             (setAppStep StepPresentation initialApp)))).


(** ** Slide objects in the store *)

Definition withTitle (v : string) (s : Slide) : Slide :=
  {| title := v; content := content s; imagePrompt := imagePrompt s;
     imageUrl := imageUrl s; speakerNotes := speakerNotes s;
     layout := layout s; chartData := chartData s |}.

Definition withContent (v : list string) (s : Slide) : Slide :=
  {| title := title s; content := v; imagePrompt := imagePrompt s;
     imageUrl := imageUrl s; speakerNotes := speakerNotes s;
     layout := layout s; chartData := chartData s |}.

Definition withImagePrompt (v : string) (s : Slide) : Slide :=
  {| title := title s; content := content s; imagePrompt := v;
     imageUrl := imageUrl s; speakerNotes := speakerNotes s;
     layout := layout s; chartData := chartData s |}.

Definition withImageUrl (v : option string) (s : Slide) : Slide :=
  {| title := title s; content := content s; imagePrompt := imagePrompt s;
     imageUrl := v; speakerNotes := speakerNotes s;
     layout := layout s; chartData := chartData s |}.

Definition withSpeakerNotes (v : option string) (s : Slide) : Slide :=
  {| title := title s; content := content s; imagePrompt := imagePrompt s;
     imageUrl := imageUrl s; speakerNotes := v;
     layout := layout s; chartData := chartData s |}.

Definition withLayout (v : SlideLayout) (s : Slide) : Slide :=
  {| title := title s; content := content s; imagePrompt := imagePrompt s;
     imageUrl := imageUrl s; speakerNotes := speakerNotes s;
     layout := v; chartData := chartData s |}.

Definition withChartData (v : option ChartData) (s : Slide) : Slide :=
  {| title := title s; content := content s; imagePrompt := imagePrompt s;
     imageUrl := imageUrl s; speakerNotes := speakerNotes s;
     layout := layout s; chartData := v |}.

(** [keyof Slide] together with the value assigned to it. *)
Inductive SlideField :=
  | FTitle (v : string)
  | FContent (v : list string)
  | FImagePrompt (v : string)
  | FImageUrl (v : option string)
  | FSpeakerNotes (v : option string)
  | FLayout (v : SlideLayout)
  | FChartData (v : option ChartData).

(** [{ ...slide, [field]: value }]. *)
Definition withField (f : SlideField) (s : Slide) : Slide :=
  match f with
  | FTitle v => withTitle v s
  | FContent v => withContent v s
  | FImagePrompt v => withImagePrompt v s
  | FImageUrl v => withImageUrl v s
  | FSpeakerNotes v => withSpeakerNotes v s
  | FLayout v => withLayout v s
  | FChartData v => withChartData v s
  end.

(** [arr[index]] followed by a field read: the slide object an array
    designates at an index, if any. *)
Definition derefSlide (st : App) (arr : list ref) (index : nat) : option Slide :=
  match arr !! index with
  | Some r => heap st !! r
  | None => None
  end.

(** The slides of the deck, in order, as the views read them. *)
Definition deckSlides (st : App) : list Slide :=
  omap (fun r => heap st !! r) (slides st).

(** A new object literal. *)
Definition allocSlide (s : Slide) (st : App) : ref * App :=
  (length (heap st), setHeap (heap st ++ [s]) st).

(** Assignment to fields of the object [r]: every array that holds [r]
    sees it. *)
Definition mutateSlide (r : ref) (f : Slide -> Slide) (st : App) : App :=
  setHeap (alter f r (heap st)) st.

(** [setSlides(prev => { const updated = [...prev];
    updated[index].field = ...; return updated; })]: the copy holds the
    same objects as [prev]; with no object at [index] the assignment
    throws inside the updater. *)
Definition updateInPlace (index : nat) (f : Slide -> Slide) (st : App) : option App :=
  match slides st !! index with
  | None => None
  | Some r => Some (mutateSlide r f st)
  end.

(** [setSlides(prev => { const updated = [...prev];
    updated[index] = { ...updated[index], ... }; return updated; })]: a
    new object takes the place of the old one in the copy. With nothing
    at [index] the array would receive a partial object, which the typed
    store cannot hold. *)
Definition replaceSlide (arr : list ref) (index : nat) (f : Slide -> Slide)
    (st : App) : option App :=
  match derefSlide st arr index with
  | None => None
  | Some s =>
      let '(r, st1) := allocSlide (f s) st in
      Some (setSlides (<[index := r]> arr) st1)
  end.

(** ** Slide store: edit and add *)

(** [handleUpdateSlide], lines 660-665. [closureSlides] and
    [closureReadOnly] are the [slides] and [isReadOnlyView] of the render
    whose handler is running. *)
Definition handleUpdateSlide (closureSlides : list ref) (closureReadOnly : bool)
    (index : nat) (field : SlideField) (st : App) : option App :=
  if closureReadOnly then Some st
  else replaceSlide closureSlides index (withField field) st.

(** [handleAddSlide], lines 667-680. *)
Definition handleAddSlide (st : App) : App :=
  if isReadOnlyView st then st
  else
    let newSlide :=
      {| title := "New Slide"; content := ["Click to edit content."];
         imagePrompt := "A simple background image"; layout := TextLeft;
         imageUrl := None; speakerNotes := Some ""; chartData := None |} in
    let '(r, st1) := allocSlide newSlide st in
    let newSlides := slides st ++ [r] in
    setCurrentSlideIndex (length newSlides - 1) (setSlides newSlides st1).

(** ** JavaScript strings *)

(** White space of [String.prototype.trim] among the one-byte code
    units: TAB, LF, VT, FF, CR, SP and NBSP. *)
Definition isWhiteSpace (c : ascii) : bool :=
  let n := nat_of_ascii c in
  (n =? 9) || (n =? 10) || (n =? 11) || (n =? 12) || (n =? 13) || (n =? 32)
  || (n =? 160).

Fixpoint trimStart (s : string) : string :=
  match s with
  | EmptyString => EmptyString
  | String c s' => if isWhiteSpace c then trimStart s' else s
  end.

Fixpoint trimEnd (s : string) : string :=
  match s with
  | EmptyString => EmptyString
  | String c s' =>
      match trimEnd s' with
      | EmptyString => if isWhiteSpace c then EmptyString else String c EmptyString
      | t => String c t
      end
  end.

Definition trim (s : string) : string := trimEnd (trimStart s).

(** [s.split(sep)] for a one-character separator. *)
Fixpoint split (sep : ascii) (s : string) : list string :=
  match s with
  | EmptyString => [EmptyString]
  | String c s' =>
      if Ascii.eqb c sep then EmptyString :: split sep s'
      else
        match split sep s' with
        | [] => [String c EmptyString]
        | w :: ws => String c w :: ws
        end
  end.

Definition LF : ascii := ascii_of_nat 10.

(** [toLowerCase] on one-byte code units: A-Z and the Latin-1 capitals. *)
Definition toLowerChar (c : ascii) : ascii :=
  let n := nat_of_ascii c in
  if ((65 <=? n) && (n <=? 90))
     || ((192 <=? n) && (n <=? 222) && negb (n =? 215))
  then ascii_of_nat (n + 32) else c.

Fixpoint toLowerCase (s : string) : string :=
  match s with
  | EmptyString => EmptyString
  | String c s' => String (toLowerChar c) (toLowerCase s')
  end.

Definition startsWith (s p : string) : bool := String.prefix p s.

(** [s.substring(n)]. *)
Fixpoint substringFrom (n : nat) (s : string) : string :=
  match n, s with
  | 0, _ => s
  | S n', String _ s' => substringFrom n' s'
  | S _, EmptyString => EmptyString
  end.

(** Case folding of an ignore-case regular expression, for a pattern of
    ASCII characters: only a-z and A-Z are identified (no other one-byte
    code unit has an ASCII upper case). *)
Definition foldCase (c : ascii) : ascii :=
  let n := nat_of_ascii c in
  if (97 <=? n) && (n <=? 122) then ascii_of_nat (n - 32) else c.

Fixpoint matchesHere (pat s : string) : bool :=
  match pat, s with
  | EmptyString, _ => true
  | String _ _, EmptyString => false
  | String p pat', String c s' =>
      Ascii.eqb (foldCase p) (foldCase c) && matchesHere pat' s'
  end.

(** [s.replace(/pat/i, '')]: the first match is removed. *)
Fixpoint removeFirstMatch (pat s : string) : string :=
  if matchesHere pat s then substringFrom (String.length pat) s
  else
    match s with
    | EmptyString => EmptyString
    | String c s' => String c (removeFirstMatch pat s')
    end.

(** ** Enhance wording: the response convention (lines 521-524) *)

Definition enhanceLines (responseText : string) : list string :=
  List.filter (fun line => negb (String.eqb (trim line) "")) (split LF responseText).

(** [lines.find(...)?.replace(/title:/i, '').trim() || currentTitle]. *)
Definition enhanceTitle (responseText currentTitle : string) : string :=
  match List.find (fun line => startsWith (toLowerCase line) "title:")
          (enhanceLines responseText) with
  | None => currentTitle
  | Some line =>
      let t := trim (removeFirstMatch "title:" line) in
      if String.eqb t "" then currentTitle else t
  end.

Definition enhanceContent (responseText : string) : list string :=
  List.map (fun line => trim (substringFrom 1 (trim line)))
    (List.filter (fun line => startsWith (trim line) "-") (enhanceLines responseText)).

(** ** Remote calls *)

(** The content of a single-slide response ([singleSlideSchema]); [r_chart]
    is [None] when the response has no chart. *)
Record SlideContentResponse := {
  r_title : string;
  r_content : list string;
  r_imagePrompt : string;
  r_chart : option ChartData
}.

(** What a settled remote call hands to its continuation. [Rejected]
    covers a rejected promise and a response the continuation cannot use
    (the text does not parse, a property of the expected shape is
    missing): both end in the same [catch]. *)
Inductive Outcome :=
  | Rejected
  | GotImage (imageBytes : string)
  | GotChart (chart : option ChartData)
  | GotContent (r : SlideContentResponse)
  | GotText (text : string).

(** A remote call in flight and what its continuation has captured. *)
Inductive Pending :=
  | PImage (index : nat) (prompt : option string) (insideContent : bool)
  | PChart (index : nat)
  | PContent (closureSlides : list ref) (index : nat)
  | PEnhance (currentSlide : ref) (index : nat)
  | PNotes (closureSlides : list ref) (index : nat).

Record Config := { app : App; pending : list Pending }.

Definition imageDataUrl (imageBytes : string) : string :=
  "data:image/png;base64," ++ imageBytes.

(** ** Regeneration actions *)

(** [handleRegenerateImage], lines 395-402, up to the [await].
    [insideContent] tells that the call was made, and is awaited, by
    [handleRegenerateSlideContent]. *)
Definition handleRegenerateImage (closureSlides : list ref) (closureReadOnly : bool)
    (insideContent : bool) (index : nat) (cfg : Config) : option Config :=
  match closureSlides !! index with
  | None => None
  | Some r =>
      if closureReadOnly then None
      else
        let st1 := setActionLoading "image" index true (app cfg) in
        let st2 := mutateSlide r (withImageUrl (Some "loading")) st1 in
        let st3 := setSlides closureSlides st2 in
        Some {| app := st3;
                pending := pending cfg
                  ++ [PImage index (imagePrompt <$> heap st3 !! r) insideContent] |}
  end.

(** The continuation of [handleRegenerateImage], lines 409-425; when the
    call was awaited by [handleRegenerateSlideContent], its [finally]
    (line 495) follows. *)
Definition imageSettled (index : nat) (insideContent : bool) (o : Outcome)
    (st : App) : option App :=
  let updated :=
    match o with
    | GotImage imageBytes =>
        updateInPlace index
          (fun s => withChartData None (withImageUrl (Some (imageDataUrl imageBytes)) s))
          st
    | _ =>
        updateInPlace index (withImageUrl (Some "error"))
          (consoleLog (ConsoleError "Error regenerating image:") st)
    end in
  match updated with
  | None => None
  | Some st1 =>
      let st2 := setActionLoading "image" index false st1 in
      Some (if insideContent then setActionLoading "content" index false st2 else st2)
  end.

(** [handleRegenerateChart], lines 428-449, up to the [await]. Reading
    the title of a slide that is not there throws, which the handler
    catches. *)
Definition handleRegenerateChart (index : nat) (cfg : Config) : Config :=
  let st := app cfg in
  if isReadOnlyView st then cfg
  else
    let st1 := setActionLoading "chart" index true st in
    match derefSlide st (slides st) index with
    | None =>
        {| app := setActionLoading "chart" index false
                    (consoleLog (ConsoleError "Error regenerating chart:") st1);
           pending := pending cfg |}
    | Some _ => {| app := st1; pending := pending cfg ++ [PChart index] |}
    end.

(** The continuation of [handleRegenerateChart], lines 450-463. *)
Definition chartSettled (index : nat) (o : Outcome) (st : App) : option App :=
  let updated :=
    match o with
    | GotChart (Some chart) =>
        updateInPlace index
          (fun s => withImageUrl None (withChartData (Some chart) s)) st
    | GotChart None => Some st
    | _ => Some (consoleLog (ConsoleError "Error regenerating chart:") st)
    end in
  match updated with
  | None => None
  | Some st1 => Some (setActionLoading "chart" index false st1)
  end.

(** [handleRegenerateSlideContent], lines 466-478, up to the [await]. *)
Definition handleRegenerateSlideContent (index : nat) (cfg : Config) : Config :=
  let st := app cfg in
  if isReadOnlyView st then cfg
  else
    let st1 := setActionLoading "content" index true st in
    match derefSlide st (slides st) index with
    | None =>
        {| app := setActionLoading "content" index false
                    (consoleLog (ConsoleError "Error regenerating slide content:") st1);
           pending := pending cfg |}
    | Some _ =>
        {| app := st1; pending := pending cfg ++ [PContent (slides st) index] |}
    end.

(** [{ ...updated[index], ...newSlideContent, chartData: chart,
    imageUrl: chart ? undefined : 'loading' }], line 484. *)
Definition applyContent (r : SlideContentResponse) (s : Slide) : Slide :=
  {| title := r_title r; content := r_content r; imagePrompt := r_imagePrompt r;
     imageUrl := match r_chart r with Some _ => None | None => Some "loading" end;
     speakerNotes := speakerNotes s; layout := layout s;
     chartData := r_chart r |}.

(** The continuation of [handleRegenerateSlideContent], lines 479-496.
    Without a chart it calls [handleRegenerateImage] of the render it was
    created in, whose [slides] are the ones captured when the action
    started. *)
Definition contentSettled (closureSlides : list ref) (index : nat) (o : Outcome)
    (cfg : Config) : option Config :=
  match o with
  | GotContent r =>
      match replaceSlide (slides (app cfg)) index (applyContent r) (app cfg) with
      | None => None
      | Some st1 =>
          let cfg1 := {| app := st1; pending := pending cfg |} in
          match r_chart r with
          | Some _ =>
              Some {| app := setActionLoading "content" index false st1;
                      pending := pending cfg |}
          | None =>
              match handleRegenerateImage closureSlides false true index cfg1 with
              | Some cfg2 => Some cfg2
              | None =>
                  Some {| app := setActionLoading "content" index false st1;
                          pending := pending cfg |}
              end
          end
      end
  | _ =>
      Some {| app := setActionLoading "content" index false
                       (consoleLog (ConsoleError "Error regenerating slide content:")
                          (app cfg));
              pending := pending cfg |}
  end.

(** [handleEnhanceSlide], lines 499-519, up to the [await]. *)
Definition handleEnhanceSlide (index : nat) (cfg : Config) : Config :=
  let st := app cfg in
  if isReadOnlyView st then cfg
  else
    let st1 := setActionLoading "enhance" index true st in
    match slides st !! index with
    | None =>
        {| app := setActionLoading "enhance" index false
                    (consoleLog (ConsoleError "Error enhancing slide:") st1);
           pending := pending cfg |}
    | Some currentSlide =>
        {| app := st1; pending := pending cfg ++ [PEnhance currentSlide index] |}
    end.

(** The continuation of [handleEnhanceSlide], lines 521-540. *)
Definition enhanceSettled (currentSlide : ref) (index : nat) (o : Outcome)
    (st : App) : option App :=
  let updated :=
    match o with
    | GotText responseText =>
        match enhanceContent responseText with
        | [] => Some (consoleLog (ConsoleWarn "Failed to parse enhanced content:") st)
        | newContent =>
            match heap st !! currentSlide with
            | None => None
            | Some cur =>
                updateInPlace index
                  (fun s => withContent newContent
                              (withTitle (enhanceTitle responseText (title cur)) s))
                  st
            end
        end
    | _ => Some (consoleLog (ConsoleError "Error enhancing slide:") st)
    end in
  match updated with
  | None => None
  | Some st1 => Some (setActionLoading "enhance" index false st1)
  end.

(** [handleGenerateSpeakerNotes], lines 543-557, up to the [await]. *)
Definition handleGenerateSpeakerNotes (index : nat) (cfg : Config) : Config :=
  let st := app cfg in
  if isReadOnlyView st then cfg
  else
    let st1 := setActionLoading "notes" index true st in
    match derefSlide st (slides st) index with
    | None =>
        {| app := setActionLoading "notes" index false
                    (consoleLog (ConsoleError "Error generating speaker notes:") st1);
           pending := pending cfg |}
    | Some _ =>
        {| app := st1; pending := pending cfg ++ [PNotes (slides st) index] |}
    end.

(** The continuation of [handleGenerateSpeakerNotes], lines 558-563: it
    calls the [handleUpdateSlide] of the render it was created in. *)
Definition notesSettled (closureSlides : list ref) (index : nat) (o : Outcome)
    (st : App) : option App :=
  let updated :=
    match o with
    | GotText text =>
        handleUpdateSlide closureSlides false index (FSpeakerNotes (Some text)) st
    | _ => Some (consoleLog (ConsoleError "Error generating speaker notes:") st)
    end in
  match updated with
  | None => None
  | Some st1 => Some (setActionLoading "notes" index false st1)
  end.

(** ** The presentation screen as a transition system *)

(** What the user, or a settling remote call, can make happen on the
    presentation screen (the props wired in [PresentationScreen], lines
    1195-1345). *)
Inductive Event :=
  | EditTitle (index : nat) (value : string)
  | EditContent (index : nat) (value : string)
  | ChooseLayout (value : SlideLayout)
  | EditSpeakerNotes (value : string)
  | AddSlide
  | DeleteSlide (index : nat)
  | SelectSlide (index : nat)
  | DragStart (index : nat)
  | DragEnter (index : nat)
  | DragEnd
  | RegenerateImage (index : nat)
  | RegenerateChart (index : nat)
  | RegenerateContent
  | Enhance
  | GenerateSpeakerNotes
  | Settle (k : nat) (o : Outcome).

Definition onApp (cfg : Config) (r : option App) : option Config :=
  match r with
  | Some st => Some {| app := st; pending := pending cfg |}
  | None => None
  end.

(** The continuation of the [k]-th call in flight runs with outcome [o]. *)
Definition settle (k : nat) (o : Outcome) (cfg : Config) : option Config :=
  match pending cfg !! k with
  | None => Some cfg
  | Some p =>
      let cfg1 := {| app := app cfg; pending := delete k (pending cfg) |} in
      match p with
      | PImage index _ insideContent =>
          onApp cfg1 (imageSettled index insideContent o (app cfg1))
      | PChart index => onApp cfg1 (chartSettled index o (app cfg1))
      | PContent closureSlides index => contentSettled closureSlides index o cfg1
      | PEnhance currentSlide index =>
          onApp cfg1 (enhanceSettled currentSlide index o (app cfg1))
      | PNotes closureSlides index =>
          onApp cfg1 (notesSettled closureSlides index o (app cfg1))
      end
  end.

Definition step (cfg : Config) (e : Event) : option Config :=
  let st := app cfg in
  match e with
  | EditTitle index value =>
      onApp cfg (handleUpdateSlide (slides st) (isReadOnlyView st) index (FTitle value) st)
  | EditContent index value =>
      onApp cfg (handleUpdateSlide (slides st) (isReadOnlyView st) index
                   (FContent (split LF value)) st)
  | ChooseLayout value =>
      onApp cfg (handleUpdateSlide (slides st) (isReadOnlyView st)
                   (currentSlideIndex st) (FLayout value) st)
  | EditSpeakerNotes value =>
      onApp cfg (handleUpdateSlide (slides st) (isReadOnlyView st)
                   (currentSlideIndex st) (FSpeakerNotes (Some value)) st)
  | AddSlide => onApp cfg (Some (handleAddSlide st))
  | DeleteSlide index => onApp cfg (Some (handleDeleteSlide index st))
  | SelectSlide index => onApp cfg (Some (setCurrentSlideIndex index st))
  | DragStart index => onApp cfg (Some (setDragRefs (Some index) (dragOverItem st) st))
  | DragEnter index => onApp cfg (Some (setDragRefs (dragItem st) (Some index) st))
  | DragEnd => onApp cfg (handleDragSort st)
  | RegenerateImage index =>
      match handleRegenerateImage (slides st) (isReadOnlyView st) false index cfg with
      | Some cfg' => Some cfg'
      | None => Some cfg
      end
  | RegenerateChart index => Some (handleRegenerateChart index cfg)
  | RegenerateContent => Some (handleRegenerateSlideContent (currentSlideIndex st) cfg)
  | Enhance => Some (handleEnhanceSlide (currentSlideIndex st) cfg)
  | GenerateSpeakerNotes => Some (handleGenerateSpeakerNotes (currentSlideIndex st) cfg)
  | Settle k o => settle k o cfg
  end.

Fixpoint run (cfg : Config) (es : list Event) : option Config :=
  match es with
  | [] => Some cfg
  | e :: es' =>
      match step cfg e with
      | Some cfg' => run cfg' es'
      | None => None
      end
  end.

(** ** Visuals *)

(** The values of [imageUrl] that stand for a state, not for an image. *)
Definition isSentinel (u : string) : bool :=
  String.eqb u "pending" || String.eqb u "loading" || String.eqb u "error".

(** The slide holds an actual image payload. *)
Definition hasImage (s : Slide) : bool :=
  match imageUrl s with
  | Some u => negb (isSentinel u)
  | None => false
  end.

Definition hasChart (s : Slide) : bool :=
  match chartData s with Some _ => true | None => false end.

(** At most one of image and chart. *)
Definition oneVisual (s : Slide) : bool := negb (hasImage s && hasChart s).

(** No slide object of the store holds an image and a chart. *)
Definition visualsOk (st : App) : Prop :=
  Forall (fun s => oneVisual s = true) (heap st).

(** The fields that hold no visual; the editor passes only such fields
    to [handleUpdateSlide] (title, content, layout, speaker notes). *)
Definition textualField (f : SlideField) : bool :=
  match f with
  | FTitle _ | FContent _ | FSpeakerNotes _ | FLayout _ | FImagePrompt _ => true
  | FImageUrl _ | FChartData _ => false
  end.

(** A deck of one slide that shows an image, and one whose slide shows a
    chart. *)
Definition sampleChart : ChartData :=
  {| chart_type := Bar; chart_labels := ["2023"; "2024"];
     chart_datasets := [{| ds_label := "Share";
                           ds_data := [Datum (Number 125 (-1)); Datum (Number 40 0)] |}] |}.

Definition imageSlide : Slide :=
  withImageUrl (Some (imageDataUrl "AAAA")) (plainSlide "Solar").

Definition chartSlide : Slide :=
  withChartData (Some sampleChart) (plainSlide "Market").

Definition deckOf (l : list Slide) : App :=
  setSlides (seq 0 (length l)) (setHeap l (setAppStep StepPresentation initialApp)).

Definition idle (st : App) : Config := {| app := st; pending := [] |}.

(** Two responses to an enhance-wording request: one that follows the
    convention and one without any dash-prefixed line. *)
Definition enhancedText : string :=
  "Title: Sun power" ++ String LF "- Cheap" ++ String LF "- Clean".

Definition unparsableText : string :=
  "Here is the rewritten slide:" ++ String LF "Title: Sun power".

(** ** Generation pipeline *)

Definition quoted (s : string) : string :=
  String (ascii_of_nat 34) s ++ String (ascii_of_nat 34) EmptyString.

(** The outcome of the outline request. [OutlinesUnusable]: the response
    arrived but its text did not parse. *)
Inductive OutlinesCall :=
  | OutlinesRejected
  | OutlinesUnusable
  | OutlinesOk (generatedOutlines : list Outline).

(** [handleGenerateOutlines], lines 272-300, with the outcome of its one
    remote call; the state is the one reached when the timer of the
    [catch] branch has fired. *)
Definition handleGenerateOutlines (call : OutlinesCall) (st : App) : App :=
  if String.eqb (trim (topic st)) "" then st
  else
    let st1 :=
      setProgressText "Brainstorming presentation structures..."
        (setProgress 0 (setAppStep StepLoading st)) in
    let failed st' :=
      setAppStep StepPrompt
        (setProgressText "An error occurred. Please try again."
           (consoleLog (ConsoleError "Error generating outlines:") st')) in
    match call with
    | OutlinesRejected => failed st1
    | OutlinesUnusable => failed (setProgress 100 st1)
    | OutlinesOk generatedOutlines =>
        setAppStep StepOutline
          (setSelectedOutlineIndex (Some 0)
             (setOutlines generatedOutlines (setProgress 100 st1)))
    end.

(** The outcome of the content request of one slide. [ContentRejected]:
    the promise rejected, at the [await]; [ContentUnusable]: the response
    arrived but its text did not parse to an object. *)
Inductive ContentCall :=
  | ContentRejected
  | ContentUnusable
  | ContentOk (content : list string) (imagePrompt : string)
      (chart : option ChartData).

Inductive ImageCall :=
  | ImageRejected
  | ImageOk (imageBytes : string).

(** The outcomes of the remote calls made for one slide; the image call
    is made only when the content has no chart. *)
Record SlideCalls := { contentCall : ContentCall; imageCall : ImageCall }.

(** [(currentStep / totalSteps) * 100]. *)
Definition percent (currentStep totalSteps : nat) : Q :=
  (inject_Z (Z.of_nat currentStep) / inject_Z (Z.of_nat totalSteps) * 100)%Q.

(** The placeholder slides, lines 314-321. *)
Definition placeholderSlide (t : string) : Slide :=
  {| title := t; content := []; imagePrompt := ""; layout := TextLeft;
     speakerNotes := Some ""; imageUrl := Some "pending"; chartData := None |}.

(** [setSlides(prev => { const updated = [...prev];
    if (updated[i]) updated[i].imageUrl = ...; return updated; })],
    lines 367-371 and 374-378. *)
Definition updateIfPresent (index : nat) (f : Slide -> Slide) (st : App) : App :=
  match slides st !! index with
  | None => st
  | Some r => mutateSlide r f st
  end.

(** How an iteration of the loop ends: normally, with the step counter;
    by an exception that the [catch] of the handler receives; or with a
    store that the typed model cannot hold. *)
Inductive LoopResult :=
  | Completed (currentStep : nat) (st : App)
  | Thrown (st : App)
  | IllTyped.

(** One iteration of the loop of [handleGenerateSlidesFromOutline], lines
    325-381. *)
Definition generateSlide (calls : nat -> SlideCalls) (totalSteps : nat)
    (i : nat) (slideTitle : string) (currentStep : nat) (st : App) : LoopResult :=
  let st1 := setProgressText ("Generating content for: " ++ quoted slideTitle) st in
  match contentCall (calls i) with
  | ContentRejected => Thrown st1
  | ContentUnusable => Thrown (setProgress (percent (currentStep + 1) totalSteps) st1)
  | ContentOk content imagePrompt chart =>
      let currentStep1 := currentStep + 1 in
      let st2 := setProgress (percent currentStep1 totalSteps) st1 in
      match chart with
      | Some c =>
          match replaceSlide (slides st2) i
                  (fun s => withImageUrl None
                              (withChartData (Some c)
                                 (withImagePrompt imagePrompt (withContent content s))))
                  st2 with
          | None => IllTyped
          | Some st3 =>
              let currentStep2 := currentStep1 + 1 in
              Completed currentStep2
                (setProgress (percent currentStep2 totalSteps) st3)
          end
      | None =>
          match replaceSlide (slides st2) i
                  (fun s => withImageUrl (Some "loading")
                              (withImagePrompt imagePrompt (withContent content s)))
                  st2 with
          | None => IllTyped
          | Some st3 =>
              let st4 :=
                setProgressText ("Generating image for: " ++ quoted slideTitle) st3 in
              let st5 :=
                match imageCall (calls i) with
                | ImageOk imageBytes =>
                    updateIfPresent i (withImageUrl (Some (imageDataUrl imageBytes))) st4
                | ImageRejected =>
                    updateIfPresent i (withImageUrl (Some "error"))
                      (consoleLog (ConsoleError "Failed to generate image for slide") st4)
                end in
              let currentStep2 := currentStep1 + 1 in
              Completed currentStep2
                (setProgress (percent currentStep2 totalSteps) st5)
          end
      end
  end.

(** The loop over the points that remain, from index [i]. *)
Fixpoint generateSlides (calls : nat -> SlideCalls) (totalSteps : nat)
    (i : nat) (pts : list string) (currentStep : nat) (st : App) : LoopResult :=
  match pts with
  | [] => Completed currentStep st
  | slideTitle :: pts' =>
      match generateSlide calls totalSteps i slideTitle currentStep st with
      | Completed currentStep' st' =>
          generateSlides calls totalSteps (S i) pts' currentStep' st'
      | r => r
      end
  end.

(** [selectedOutline.points.length * 2], line 311. *)
Definition totalStepsOf (o : Outline) : nat := length (points o) * 2.

(** The [catch] branch, lines 388-392, once its timer has fired. *)
Definition generationFailed (st : App) : App :=
  setAppStep StepOutline
    (setProgressText "An error occurred. Please try again."
       (consoleLog (ConsoleError "Error generating presentation:") st)).

(** [handleGenerateSlidesFromOutline], lines 302-393, with the outcomes
    of the remote calls of each slide; the state is the one reached when
    the timer set at the end has fired. [None]: the store left the typed
    model. *)
Definition handleGenerateSlidesFromOutline (calls : nat -> SlideCalls) (st : App)
    : option App :=
  match selectedOutlineIndex st with
  | None => Some st
  | Some sel =>
      let st1 := setSlides [] (setProgress 0 (setAppStep StepLoading st)) in
      match outlines st !! sel with
      | None => Some (generationFailed st1)
      | Some selectedOutline =>
          let totalSteps := totalStepsOf selectedOutline in
          let initialSlides := List.map placeholderSlide (points selectedOutline) in
          let st2 :=
            setSlides (seq (length (heap st1)) (length initialSlides))
              (setHeap (heap st1 ++ initialSlides) st1) in
          match generateSlides calls totalSteps 0 (points selectedOutline) 0 st2 with
          | Completed _ st3 =>
              Some (setAppStep StepPresentation
                      (setProgress 100 (setProgressText "Finalizing..." st3)))
          | Thrown st3 => Some (generationFailed st3)
          | IllTyped => None
          end
      end
  end.

(** The content call of a slide produced content the loop can use. *)
Definition contentOk (c : SlideCalls) : bool :=
  match contentCall c with
  | ContentOk _ _ _ => true
  | _ => false
  end.

(** What the loop makes of the slide [s] of an index whose calls had the
    outcomes [c]. *)
Definition generatedSlide (c : SlideCalls) (s : Slide) : Slide :=
  match contentCall c with
  | ContentOk content imagePrompt (Some chart) =>
      withImageUrl None
        (withChartData (Some chart)
           (withImagePrompt imagePrompt (withContent content s)))
  | ContentOk content imagePrompt None =>
      withImageUrl
        (Some match imageCall c with
              | ImageOk imageBytes => imageDataUrl imageBytes
              | ImageRejected => "error"
              end)
        (withImagePrompt imagePrompt (withContent content s))
  | _ => s
  end.

(** Every reference of the slide sequence designates an object. *)
Definition refsValid (st : App) : Prop :=
  Forall (fun r => r < length (heap st)) (slides st).

(** The progress reports of a run of the slide generation in which
    [steps] steps completed: 0 at the start, the percentage after each
    completed step, and 100 at the end of a run that was not aborted. *)
Definition reportsOfRun (totalSteps steps : nat) (finished : bool) : list Q :=
  0%Q :: List.map (fun n => percent n totalSteps) (seq 1 steps)
      ++ (if finished then [100%Q] else []).

(** A state on the outline screen with one outline of three points
    selected, and outcomes of the remote calls: the first slide gets a
    chart, the image of the second fails, the third gets its image. *)
Definition outlineState : App :=
  setSelectedOutlineIndex (Some 0)
    (setOutlines [{| outline_title := "Problem and solution";
                     points := ["Market"; "Costs"; "Outlook"] |}]
       (setTopic "Renewable Energy" (setAppStep StepOutline initialApp))).

Definition sampleCalls (i : nat) : SlideCalls :=
  match i with
  | 0 => {| contentCall := ContentOk ["a"; "b"] "" (Some sampleChart);
            imageCall := ImageRejected |}
  | 1 => {| contentCall := ContentOk ["c"; "d"] "coins" None;
            imageCall := ImageRejected |}
  | _ => {| contentCall := ContentOk ["e"; "f"] "sunrise" None;
            imageCall := ImageOk "CCCC" |}
  end.

(** The same, but the content call of the second slide is rejected. *)
Definition failingCalls (i : nat) : SlideCalls :=
  match i with
  | 1 => {| contentCall := ContentRejected; imageCall := ImageRejected |}
  | _ => sampleCalls i
  end.

(** *** Progress accounting *)

(** The steps that the loop counts over the [n] slides from index [i]:
    a slide whose content arrives counts two, the content step and the
    visual step (the adopted chart, or the image call however it ends);
    a response that does not parse has counted its content step when
    the parse throws (line 337 precedes line 340); a rejected content
    call counts nothing; the loop ends at the first of either. *)
Fixpoint stepsCounted (calls : nat -> SlideCalls) (i n : nat) : nat :=
  match n with
  | 0 => 0
  | S n' =>
      match contentCall (calls i) with
      | ContentOk _ _ _ => 2 + stepsCounted calls (S i) n'
      | ContentUnusable => 1
      | ContentRejected => 0
      end
  end.

(** The content calls of the [n] slides from index [i] all produced
    content. *)
Fixpoint allContentOk (calls : nat -> SlideCalls) (i n : nat) : bool :=
  match n with
  | 0 => true
  | S n' => contentOk (calls i) && allContentOk calls (S i) n'
  end.

(** ** Base64: [btoa] and [atob] *)

Definition base64Alphabet : string :=
  "ABCDEFGHIJKLMNOPQRSTUVWXYZabcdefghijklmnopqrstuvwxyz0123456789+/".

Definition PAD : ascii := ascii_of_nat 61.

(** The character of a six-bit group. *)
Definition sextetChar (n : nat) : ascii :=
  match String.get n base64Alphabet with
  | Some c => c
  | None => PAD
  end.

(** The six-bit group of a character of the alphabet. *)
Definition sextetOf (c : ascii) : option nat :=
  let n := nat_of_ascii c in
  if (65 <=? n) && (n <=? 90) then Some (n - 65)
  else if (97 <=? n) && (n <=? 122) then Some (n - 71)
  else if (48 <=? n) && (n <=? 57) then Some (n + 4)
  else if n =? 43 then Some 62
  else if n =? 47 then Some 63
  else None.

(** [btoa]: every code unit of the model is a byte, so the call cannot
    throw. *)
Fixpoint btoa (s : string) : string :=
  match s with
  | EmptyString => EmptyString
  | String a EmptyString =>
      let x := nat_of_ascii a in
      String (sextetChar (x / 4))
        (String (sextetChar (x mod 4 * 16))
           (String PAD (String PAD EmptyString)))
  | String a (String b EmptyString) =>
      let x := nat_of_ascii a in
      let y := nat_of_ascii b in
      String (sextetChar (x / 4))
        (String (sextetChar (x mod 4 * 16 + y / 16))
           (String (sextetChar (y mod 16 * 4))
              (String PAD EmptyString)))
  | String a (String b (String c rest)) =>
      let x := nat_of_ascii a in
      let y := nat_of_ascii b in
      let z := nat_of_ascii c in
      String (sextetChar (x / 4))
        (String (sextetChar (x mod 4 * 16 + y / 16))
           (String (sextetChar (y mod 16 * 4 + z / 64))
              (String (sextetChar (z mod 64)) (btoa rest))))
  end.

(** ASCII white space, which [atob] ignores: TAB, LF, FF, CR, SP. *)
Definition isAsciiWhitespace (c : ascii) : bool :=
  let n := nat_of_ascii c in
  (n =? 9) || (n =? 10) || (n =? 12) || (n =? 13) || (n =? 32).

Fixpoint removeWhitespace (s : string) : string :=
  match s with
  | EmptyString => EmptyString
  | String c s' =>
      if isAsciiWhitespace c then removeWhitespace s'
      else String c (removeWhitespace s')
  end.

(** One or two [=] at the end are removed. *)
Fixpoint stripPadding (s : string) : string :=
  match s with
  | EmptyString => EmptyString
  | String c s' =>
      if Ascii.eqb c PAD
         && (String.eqb s' EmptyString || String.eqb s' (String PAD EmptyString))
      then EmptyString
      else String c (stripPadding s')
  end.

Fixpoint sextetsOf (s : string) : option (list nat) :=
  match s with
  | EmptyString => Some []
  | String c s' =>
      match sextetOf c, sextetsOf s' with
      | Some n, Some l => Some (n :: l)
      | _, _ => None
      end
  end.

(** Groups of four sextets give three bytes; three left over give two
    bytes and two left over give one, the spare bits being dropped. *)
Fixpoint decodeSextets (l : list nat) : string :=
  match l with
  | a :: b :: c :: d :: rest =>
      String (ascii_of_nat (a * 4 + b / 16))
        (String (ascii_of_nat (b mod 16 * 16 + c / 4))
           (String (ascii_of_nat (c mod 4 * 64 + d)) (decodeSextets rest)))
  | [a; b; c] =>
      String (ascii_of_nat (a * 4 + b / 16))
        (String (ascii_of_nat (b mod 16 * 16 + c / 4)) EmptyString)
  | [a; b] => String (ascii_of_nat (a * 4 + b / 16)) EmptyString
  | _ => EmptyString
  end.

(** [atob], the forgiving Base64 decoding; [None] when it throws. *)
Definition atob (data : string) : option string :=
  let d1 := removeWhitespace data in
  let d2 := if String.length d1 mod 4 =? 0 then stripPadding d1 else d1 in
  if String.length d2 mod 4 =? 1 then None
  else
    match sextetsOf d2 with
    | None => None
    | Some l => Some (decodeSextets l)
    end.

(** ** JSON: values, [JSON.stringify] and [JSON.parse] *)

(** A string of 16-bit code units. *)
Definition wstring := list N.

Fixpoint wide (s : string) : wstring :=
  match s with
  | EmptyString => []
  | String c s' => N_of_ascii c :: wide s'
  end.

(** The string of one-byte code units, if all are. *)
Fixpoint narrow (w : wstring) : option string :=
  match w with
  | [] => Some EmptyString
  | u :: w' =>
      if (u <? 256)%N then
        match narrow w' with
        | Some s => Some (String (ascii_of_N u) s)
        | None => None
        end
      else None
  end.

Fixpoint sameUnits (a b : wstring) : bool :=
  match a, b with
  | [], [] => true
  | x :: a', y :: b' => (x =? y)%N && sameUnits a' b'
  | _, _ => false
  end.

(** A JSON value over strings of type [S]: [json string] for the values
    that the application writes, [json wstring] for the values that
    [JSON.parse] returns. The members of an object are kept in their
    textual order; a later member of the same name hides an earlier
    one, as in the object that [JSON.parse] builds. *)
#[warnings="-register-all"]
Inductive json (S : Type) :=
  | JNull
  | JBool (b : bool)
  | JNum (n : number)
  | JStr (s : S)
  | JArr (items : list (json S))
  | JObj (members : list (S * json S)).

Arguments JNull {S}.
Arguments JBool {S} b.
Arguments JNum {S} n.
Arguments JStr {S} s.
Arguments JArr {S} items.
Arguments JObj {S} members.

Definition DQUOTE : ascii := ascii_of_nat 34.
Definition BACKSLASH : ascii := ascii_of_nat 92.

Definition hexDigit (n : nat) : ascii :=
  if n <? 10 then ascii_of_nat (48 + n) else ascii_of_nat (87 + n).

(** The text of one code unit inside a JSON string. *)
Definition escapeChar (c : ascii) : string :=
  let n := nat_of_ascii c in
  if n =? 34 then String BACKSLASH (String DQUOTE EmptyString)
  else if n =? 92 then String BACKSLASH (String BACKSLASH EmptyString)
  else if n =? 8 then "\b"
  else if n =? 12 then "\f"
  else if n =? 10 then "\n"
  else if n =? 13 then "\r"
  else if n =? 9 then "\t"
  else if n <? 32 then
    "\u00" ++ String (hexDigit (n / 16)) (String (hexDigit (n mod 16)) EmptyString)
  else String c EmptyString.

Fixpoint escapeString (s : string) : string :=
  match s with
  | EmptyString => EmptyString
  | String c s' => escapeChar c ++ escapeString s'
  end.

Definition quoteString (s : string) : string :=
  String DQUOTE (escapeString s ++ String DQUOTE EmptyString).

Definition printN (n : N) : string := NilEmpty.string_of_uint (N.to_uint n).

Definition printZ (z : Z) : string :=
  match z with
  | Z0 => "0"
  | Zpos p => printN (Npos p)
  | Zneg p => "-" ++ printN (Npos p)
  end.

(** The text of a finite number: its mantissa, and its exponent when
    that is not zero. (JavaScript writes the same value with a decimal
    point where it can; [parseNumber] reads both forms.) *)
Definition printDecimal (mant exp10 : Z) : string :=
  printZ mant ++ (if (exp10 =? 0)%Z then "" else "e" ++ printZ exp10).

(** The text that [JSON.stringify] writes for a number: [null] for an
    infinity. *)
Definition printNumber (n : number) : string :=
  match roundNumber n with
  | Number m e => printDecimal m e
  | Infinite _ => "null"
  end.

Section Join.
Context {A : Type} (f : A -> string).

Fixpoint joinComma (l : list A) : string :=
  match l with
  | [] => EmptyString
  | [x] => f x
  | x :: l' => f x ++ "," ++ joinComma l'
  end.
End Join.

(** [JSON.stringify] of a value without [undefined]. *)
Fixpoint stringify (j : json string) : string :=
  match j with
  | JNull => "null"
  | JBool true => "true"
  | JBool false => "false"
  | JNum n => printNumber n
  | JStr s => quoteString s
  | JArr items => "[" ++ joinComma stringify items ++ "]"
  | JObj members =>
      "{" ++ joinComma
               (fun kv => (quoteString (fst kv) ++ ":" ++ stringify (snd kv))%string)
               members ++ "}"
  end.

(** White space of the JSON grammar: SP, TAB, LF, CR. *)
Definition isJsonWhitespace (c : ascii) : bool :=
  let n := nat_of_ascii c in
  (n =? 32) || (n =? 9) || (n =? 10) || (n =? 13).

Fixpoint skipWhitespace (s : string) : string :=
  match s with
  | EmptyString => EmptyString
  | String c s' => if isJsonWhitespace c then skipWhitespace s' else s
  end.

Definition isDigit (c : ascii) : bool :=
  let n := nat_of_ascii c in (48 <=? n) && (n <=? 57).

(** The longest prefix of digits, and the rest. *)
Fixpoint spanDigits (s : string) : string * string :=
  match s with
  | EmptyString => (EmptyString, EmptyString)
  | String c s' =>
      if isDigit c then
        let '(d, r) := spanDigits s' in (String c d, r)
      else (EmptyString, s)
  end.

Definition hexValue (c : ascii) : option nat :=
  let n := nat_of_ascii c in
  if (48 <=? n) && (n <=? 57) then Some (n - 48)
  else if (97 <=? n) && (n <=? 102) then Some (n - 87)
  else if (65 <=? n) && (n <=? 70) then Some (n - 55)
  else None.

(** The code unit of a one-letter escape. *)
Definition unescape (e : ascii) : option N :=
  let n := nat_of_ascii e in
  if n =? 34 then Some 34%N
  else if n =? 92 then Some 92%N
  else if n =? 47 then Some 47%N
  else if n =? 98 then Some 8%N
  else if n =? 102 then Some 12%N
  else if n =? 110 then Some 10%N
  else if n =? 114 then Some 13%N
  else if n =? 116 then Some 9%N
  else None.

(** The code unit of [\uXXXX]. *)
Definition unicodeEscape (h1 h2 h3 h4 : ascii) : option N :=
  match hexValue h1, hexValue h2, hexValue h3, hexValue h4 with
  | Some a, Some b, Some c, Some d =>
      Some (N.of_nat (((a * 16 + b) * 16 + c) * 16 + d))
  | _, _, _, _ => None
  end.

(** The code units of a string up to its closing quote, and the rest of
    the text. *)
Fixpoint parseChars (s : string) : option (wstring * string) :=
  match s with
  | EmptyString => None
  | String c s' =>
      if Ascii.eqb c DQUOTE then Some ([], s')
      else if Ascii.eqb c BACKSLASH then
        match s' with
        | EmptyString => None
        | String e s'' =>
            if Ascii.eqb e (ascii_of_nat 117) then
              match s'' with
              | String h1 (String h2 (String h3 (String h4 s3))) =>
                  match unicodeEscape h1 h2 h3 h4, parseChars s3 with
                  | Some u, Some (str, r) => Some (u :: str, r)
                  | _, _ => None
                  end
              | _ => None
              end
            else
              match unescape e, parseChars s'' with
              | Some u, Some (str, r) => Some (u :: str, r)
              | _, _ => None
              end
        end
      else if nat_of_ascii c <? 32 then None
      else
        match parseChars s' with
        | Some (str, r) => Some (N_of_ascii c :: str, r)
        | None => None
        end
  end.

Definition parseDigits (ds : string) : option N :=
  match NilEmpty.uint_of_string ds with
  | Some d => Some (N.of_uint d)
  | None => None
  end.

(** An optional sign, as a flag and the rest. *)
Definition takeSign (plusToo : bool) (s : string) : bool * string :=
  match s with
  | String c s' =>
      if Ascii.eqb c (ascii_of_nat 45) then (true, s')
      else if plusToo && Ascii.eqb c (ascii_of_nat 43) then (false, s')
      else (false, s)
  | EmptyString => (false, s)
  end.

Definition signed (negative : bool) (n : N) : Z :=
  if negative then (- Z.of_N n)%Z else Z.of_N n.

(** The fraction of a number: the digits after a point, if there is one. *)
Definition parseFraction (s : string) : option (string * string) :=
  match s with
  | String c s' =>
      if Ascii.eqb c (ascii_of_nat 46) then
        let '(fp, r) := spanDigits s' in
        if String.eqb fp EmptyString then None else Some (fp, r)
      else Some (EmptyString, s)
  | EmptyString => Some (EmptyString, s)
  end.

(** The exponent of a number, zero if there is none. *)
Definition parseExponent (s : string) : option (Z * string) :=
  match s with
  | String c s' =>
      if Ascii.eqb c (ascii_of_nat 101) || Ascii.eqb c (ascii_of_nat 69) then
        let '(negative, s1) := takeSign true s' in
        let '(ep, r) := spanDigits s1 in
        match parseDigits ep with
        | Some e => if String.eqb ep EmptyString then None else Some (signed negative e, r)
        | None => None
        end
      else Some (0%Z, s)
  | EmptyString => Some (0%Z, s)
  end.

(** A number of the JSON grammar: an optional minus sign; an integer part
    that is a single zero or does not start with zero; optionally a point
    and digits; optionally an exponent letter, a sign and digits. Its
    value is the number that the decimal stands for. *)
Definition parseNumber (s : string) : option (number * string) :=
  let '(negative, s1) := takeSign false s in
  let '(ip, s2) := spanDigits s1 in
  if String.eqb ip EmptyString then None
  else if (1 <? String.length ip) && String.prefix "0" ip then None
  else
    match parseFraction s2 with
    | None => None
    | Some (fp, s3) =>
        match parseExponent s3 with
        | None => None
        | Some (e, s4) =>
            match parseDigits (ip ++ fp) with
            | Some m =>
                Some (roundNumber
                        (Number (signed negative m)
                           (e - Z.of_nat (String.length fp))%Z), s4)
            | None => None
            end
        end
    end.

(** A value, the elements of an array after its opening bracket, and the
    members of an object after its opening brace. [fuel] bounds the
    number of nested calls. A call of [parseValue] consumes a character
    before it calls further, and between two nested calls of
    [parseValue] lies at most one call of the other two functions, or a
    comma that was consumed: twice the length of the text, plus one,
    is fuel enough for every text. *)
Fixpoint parseValue (fuel : nat) (s : string) {struct fuel}
    : option (json wstring * string) :=
  match fuel with
  | 0 => None
  | S fuel' =>
      match s with
      | EmptyString => None
      | String c s' =>
          if Ascii.eqb c (ascii_of_nat 123) then
            match skipWhitespace s' with
            | EmptyString => None
            | String c2 r =>
                if Ascii.eqb c2 (ascii_of_nat 125) then Some (JObj [], r)
                else
                  match parseMembers fuel' (String c2 r) with
                  | Some (members, r') => Some (JObj members, r')
                  | None => None
                  end
            end
          else if Ascii.eqb c (ascii_of_nat 91) then
            match skipWhitespace s' with
            | EmptyString => None
            | String c2 r =>
                if Ascii.eqb c2 (ascii_of_nat 93) then Some (JArr [], r)
                else
                  match parseElements fuel' (String c2 r) with
                  | Some (items, r') => Some (JArr items, r')
                  | None => None
                  end
            end
          else if Ascii.eqb c DQUOTE then
            match parseChars s' with
            | Some (str, r) => Some (JStr str, r)
            | None => None
            end
          else if String.prefix "null" s then Some (JNull, substringFrom 4 s)
          else if String.prefix "true" s then Some (JBool true, substringFrom 4 s)
          else if String.prefix "false" s then Some (JBool false, substringFrom 5 s)
          else
            match parseNumber s with
            | Some (n, r) => Some (JNum n, r)
            | None => None
            end
      end
  end
with parseElements (fuel : nat) (s : string) {struct fuel}
    : option (list (json wstring) * string) :=
  match fuel with
  | 0 => None
  | S fuel' =>
      match parseValue fuel' s with
      | None => None
      | Some (v, r) =>
          match skipWhitespace r with
          | EmptyString => None
          | String c r' =>
              if Ascii.eqb c (ascii_of_nat 44) then
                match parseElements fuel' (skipWhitespace r') with
                | Some (vs, r'') => Some (v :: vs, r'')
                | None => None
                end
              else if Ascii.eqb c (ascii_of_nat 93) then Some ([v], r')
              else None
          end
      end
  end
with parseMembers (fuel : nat) (s : string) {struct fuel}
    : option (list (wstring * json wstring) * string) :=
  match fuel with
  | 0 => None
  | S fuel' =>
      match s with
      | EmptyString => None
      | String c s' =>
          if Ascii.eqb c DQUOTE then
            match parseChars s' with
            | None => None
            | Some (k, r) =>
                match skipWhitespace r with
                | EmptyString => None
                | String c2 r2 =>
                    if Ascii.eqb c2 (ascii_of_nat 58) then
                      match parseValue fuel' (skipWhitespace r2) with
                      | None => None
                      | Some (v, r3) =>
                          match skipWhitespace r3 with
                          | EmptyString => None
                          | String c3 r4 =>
                              if Ascii.eqb c3 (ascii_of_nat 44) then
                                match parseMembers fuel' (skipWhitespace r4) with
                                | Some (ms, r5) => Some ((k, v) :: ms, r5)
                                | None => None
                                end
                              else if Ascii.eqb c3 (ascii_of_nat 125)
                              then Some ([(k, v)], r4)
                              else None
                          end
                      end
                    else None
                end
            end
          else None
      end
  end.

(** [JSON.parse] of a text of one-byte code units, which is what [atob]
    returns; [None] when it throws. *)
Definition JSON_parse (text : string) : option (json wstring) :=
  match parseValue (S (2 * String.length text)) (skipWhitespace text) with
  | Some (v, r) =>
      if String.eqb (skipWhitespace r) EmptyString then Some v else None
  | None => None
  end.

Definition startsWithDigit (s : string) : bool :=
  match s with
  | EmptyString => false
  | String c _ => isDigit c
  end.

(** The text after a number does not continue it. *)
Definition delimited (rest : string) : bool :=
  match rest with
  | EmptyString => true
  | String c _ =>
      negb (isDigit c || Ascii.eqb c (ascii_of_nat 46)
            || Ascii.eqb c (ascii_of_nat 101) || Ascii.eqb c (ascii_of_nat 69))
  end.

(** A decimal numeral without superfluous zeros. *)
Definition canonical (d : Decimal.uint) : bool :=
  match d with
  | Decimal.Nil => false
  | Decimal.D0 Decimal.Nil => true
  | Decimal.D0 _ => false
  | _ => true
  end.

(** The characters a JSON value can start with. *)
Definition startsValue (c : ascii) : bool :=
  let n := nat_of_ascii c in
  isDigit c || (n =? 45) || (n =? 34) || (n =? 91) || (n =? 123)
  || (n =? 110) || (n =? 116) || (n =? 102).

(** The value that [JSON.parse] returns for the text of [j]: [null]
    where [j] has an infinity. *)
Fixpoint reread (j : json string) : json wstring :=
  match j with
  | JNull => JNull
  | JBool b => JBool b
  | JNum n =>
      match roundNumber n with
      | Infinite _ => JNull
      | n' => JNum n'
      end
  | JStr s => JStr (wide s)
  | JArr items => JArr (List.map reread items)
  | JObj members =>
      JObj (List.map (fun kv => (wide (fst kv), reread (snd kv))) members)
  end.

(** The parser reads the text of [j] back, whatever delimited text
    follows, given fuel for the length of the text. *)
Definition readsBack (j : json string) : Prop :=
  forall fuel rest,
    String.length (stringify j) <= fuel -> delimited rest = true ->
    parseValue fuel (stringify j ++ rest) = Some (reread j, rest).

(** ** Property access and truthiness *)

(** The member of that name; the last one if there are several. *)
Fixpoint getMember (key : string) (members : list (wstring * json wstring))
    : option (json wstring) :=
  match members with
  | [] => None
  | (k, v) :: members' =>
      match getMember key members' with
      | Some v' => Some v'
      | None => if sameUnits k (wide key) then Some v else None
      end
  end.

(** [value.key] for the property names that only an object can have
    ([slides], [theme], [customTheme]): [None] is the [TypeError] of a
    property access on [null], [Some None] is [undefined]. *)
Definition getProperty (value : json wstring) (key : string)
    : option (option (json wstring)) :=
  match value with
  | JNull => None
  | JObj members => Some (getMember key members)
  | _ => Some None
  end.

(** Whether a condition takes the value for true. *)
Definition truthy (value : option (json wstring)) : bool :=
  match value with
  | None => false
  | Some JNull => false
  | Some (JBool b) => b
  | Some (JNum n) => negb (isZeroNumber n)
  | Some (JStr []) => false
  | Some (JStr (_ :: _)) => true
  | Some (JArr _) => true
  | Some (JObj _) => true
  end.

(** ** Slides and themes as JSON *)

Definition layoutName (l : SlideLayout) : string :=
  match l with
  | TextLeft => "text-left"
  | TextRight => "text-right"
  | ImageFull => "image-full"
  end.

Definition chartTypeName (t : ChartType) : string :=
  match t with Bar => "bar" | Line => "line" | Pie => "pie" end.

Definition datumToJson (d : datum) : json string :=
  match d with
  | Datum n => JNum n
  | NoDatum => JNull
  end.

Definition datasetToJson (d : Dataset) : json string :=
  JObj [("label", JStr (ds_label d));
        ("data", JArr (List.map datumToJson (ds_data d)))].

Definition chartToJson (c : ChartData) : json string :=
  JObj [("type", JStr (chartTypeName (chart_type c)));
        ("labels", JArr (List.map JStr (chart_labels c)));
        ("datasets", JArr (List.map datasetToJson (chart_datasets c)))].

(** A property whose value is [undefined] is left out by
    [JSON.stringify]. *)
Definition optionalMember (key : string) (value : option (json string))
    : list (string * json string) :=
  match value with
  | Some v => [(key, v)]
  | None => []
  end.

(** The JSON value of a slide. The order in which the properties of a
    slide object were created is not tracked; they are written in the
    order of the interface. *)
Definition slideToJson (s : Slide) : json string :=
  JObj ([("title", JStr (title s));
         ("content", JArr (List.map JStr (content s)));
         ("imagePrompt", JStr (imagePrompt s))]
        ++ optionalMember "imageUrl" (option_map JStr (imageUrl s))
        ++ optionalMember "speakerNotes" (option_map JStr (speakerNotes s))
        ++ [("layout", JStr (layoutName (layout s)))]
        ++ optionalMember "chartData" (option_map chartToJson (chartData s))).

Definition customThemeToJson (t : CustomTheme) : json string :=
  JObj [("id", JStr (theme_id t)); ("name", JStr (theme_name t));
        ("colors",
         JObj [("--bg-primary", JStr (bg_primary t));
               ("--bg-secondary", JStr (bg_secondary t));
               ("--text-primary", JStr (text_primary t));
               ("--text-secondary", JStr (text_secondary t));
               ("--accent-primary", JStr (accent_primary t))])].

Section Traverse.
Context {A B : Type} (f : A -> option B).

Fixpoint traverse (l : list A) : option (list B) :=
  match l with
  | [] => Some []
  | x :: l' =>
      match f x, traverse l' with
      | Some y, Some ys => Some (y :: ys)
      | _, _ => None
      end
  end.
End Traverse.

(** The readers of the typed state: what the views read from a value
    that [JSON.parse] returned; [None] for a value that the typed state
    cannot hold, among them a string with a code unit above 255. *)
Definition asString (j : json wstring) : option string :=
  match j with JStr w => narrow w | _ => None end.

Definition asDatum (j : json wstring) : option datum :=
  match j with
  | JNum n => Some (Datum n)
  | JNull => Some NoDatum
  | _ => None
  end.

Definition asArray (j : json wstring) : option (list (json wstring)) :=
  match j with JArr l => Some l | _ => None end.

Definition asMembers (j : json wstring) : option (list (wstring * json wstring)) :=
  match j with JObj l => Some l | _ => None end.

(** An optional property of type string. *)
Definition optionalString (value : option (json wstring)) : option (option string) :=
  match value with
  | None => Some None
  | Some (JStr w) => option_map Some (narrow w)
  | Some _ => None
  end.

Definition layoutOfName (s : string) : option SlideLayout :=
  if String.eqb s "text-left" then Some TextLeft
  else if String.eqb s "text-right" then Some TextRight
  else if String.eqb s "image-full" then Some ImageFull
  else None.

Definition chartTypeOfName (s : string) : option ChartType :=
  if String.eqb s "bar" then Some Bar
  else if String.eqb s "line" then Some Line
  else if String.eqb s "pie" then Some Pie
  else None.

(** The (required) member of that name, read with [read]. *)
Definition member {A} (read : json wstring -> option A) (key : string)
    (members : list (wstring * json wstring)) : option A :=
  match getMember key members with
  | Some v => read v
  | None => None
  end.

Definition stringsOfJson (j : json wstring) : option (list string) :=
  match asArray j with
  | Some l => traverse asString l
  | None => None
  end.

Definition datasetOfJson (j : json wstring) : option Dataset :=
  match asMembers j with
  | None => None
  | Some ms =>
      match member asString "label" ms, member asArray "data" ms with
      | Some l, Some d =>
          match traverse asDatum d with
          | Some ns => Some {| ds_label := l; ds_data := ns |}
          | None => None
          end
      | _, _ => None
      end
  end.

Definition chartOfJson (j : json wstring) : option ChartData :=
  match asMembers j with
  | None => None
  | Some ms =>
      match member asString "type" ms, member stringsOfJson "labels" ms,
            member asArray "datasets" ms with
      | Some t, Some ls, Some ds =>
          match chartTypeOfName t, traverse datasetOfJson ds with
          | Some ct, Some dsets =>
              Some {| chart_type := ct; chart_labels := ls; chart_datasets := dsets |}
          | _, _ => None
          end
      | _, _, _ => None
      end
  end.

(** The slide that the views read from a value with the shape of the
    interface [Slide]; [None] for any other value. *)
Definition slideOfJson (j : json wstring) : option Slide :=
  match asMembers j with
  | None => None
  | Some ms =>
      match member asString "title" ms, member stringsOfJson "content" ms,
            member asString "imagePrompt" ms,
            optionalString (getMember "imageUrl" ms),
            optionalString (getMember "speakerNotes" ms),
            member asString "layout" ms with
      | Some t, Some c, Some p, Some u, Some n, Some l =>
          match layoutOfName l,
                match getMember "chartData" ms with
                | None => Some None
                | Some cj => option_map Some (chartOfJson cj)
                end with
          | Some lay, Some ch =>
              Some {| title := t; content := c; imagePrompt := p; imageUrl := u;
                      speakerNotes := n; layout := lay; chartData := ch |}
          | _, _ => None
          end
      | _, _, _, _, _, _ => None
      end
  end.

Definition slidesOfJson (j : json wstring) : option (list Slide) :=
  match asArray j with
  | Some l => traverse slideOfJson l
  | None => None
  end.

Definition customThemeOfJson (j : json wstring) : option CustomTheme :=
  match asMembers j with
  | None => None
  | Some ms =>
      match member asString "id" ms, member asString "name" ms,
            member asMembers "colors" ms with
      | Some i, Some n, Some cs =>
          match member asString "--bg-primary" cs, member asString "--bg-secondary" cs,
                member asString "--text-primary" cs,
                member asString "--text-secondary" cs,
                member asString "--accent-primary" cs with
          | Some a, Some b, Some c, Some d, Some e =>
              Some {| theme_id := i; theme_name := n; bg_primary := a;
                      bg_secondary := b; text_primary := c; text_secondary := d;
                      accent_primary := e |}
          | _, _, _, _, _ => None
          end
      | _, _, _ => None
      end
  end.

Definition customThemesOfJson (j : json wstring) : option (list CustomTheme) :=
  match asArray j with
  | Some l => traverse customThemeOfJson l
  | None => None
  end.

(** *** What comes back from the text of a slide *)

(** An infinity is written as [null], and read back as [null]. *)
Definition rereadDatum (d : datum) : datum :=
  match d with
  | Datum n =>
      match roundNumber n with
      | Infinite _ => NoDatum
      | n' => Datum n'
      end
  | NoDatum => NoDatum
  end.

Definition rereadDataset (d : Dataset) : Dataset :=
  {| ds_label := ds_label d; ds_data := List.map rereadDatum (ds_data d) |}.

Definition rereadChart (c : ChartData) : ChartData :=
  {| chart_type := chart_type c; chart_labels := chart_labels c;
     chart_datasets := List.map rereadDataset (chart_datasets c) |}.

Definition rereadSlide (s : Slide) : Slide :=
  withChartData (option_map rereadChart (chartData s)) s.




(** ** Share links *)

(** The payload of [handlePublish], lines 255-260. *)
Definition sharePayload (deck : list Slide) (themeId : string)
    (themes : list CustomTheme) : json string :=
  let customThemeForShare :=
    List.find (fun t => String.eqb (theme_id t) themeId) themes in
  JObj [("slides", JArr (List.map slideToJson deck));
        ("theme", JStr themeId);
        ("customTheme",
         match customThemeForShare with
         | Some t => customThemeToJson t
         | None => JNull
         end)].

(** The fragment of the share link, lines 261-263. *)
Definition shareFragment (st : App) : string :=
  "#share=" ++ btoa (stringify (sharePayload (deckSlides st) (theme st) (customThemes st))).

(** [handlePublish], lines 253-270: the link it shows. [location] is
    [window.location.origin] followed by [window.location.pathname].
    Neither [JSON.stringify] nor [btoa] can throw on the values of the
    model, so the [catch] branch is not reached. *)
Definition handlePublish (location : string) (st : App) : string :=
  location ++ shareFragment st.

(** [window.location.hash] of an address: what follows the first [#],
    with it; empty when there is none. *)
Fixpoint locationHash (url : string) : string :=
  match url with
  | EmptyString => EmptyString
  | String c url' => if Ascii.eqb c (ascii_of_nat 35) then url else locationHash url'
  end.

(** What the effect that runs on load does (lines 174-199). *)
Inductive ShareEffect :=
  | Untouched
  | OpenShared (slidesValue themeValue : json wstring)
      (customThemeValue : option (json wstring))
  | ShareFailed.

(** The effect of lines 174-199 on the fragment [hash]: [Untouched] when
    it sets no state and leaves the fragment; [OpenShared] when it sets
    the slides and the theme to the values of the payload, merges the
    custom theme of the payload if it has one, and enters the read-only
    presentation; [ShareFailed] when an exception reaches the [catch],
    which logs it and clears the fragment. *)
Definition shareEffect (hash : string) : ShareEffect :=
  if startsWith hash "#share=" then
    let encodedData := substringFrom 7 hash in
    match atob encodedData with
    | None => ShareFailed
    | Some decodedData =>
        match JSON_parse decodedData with
        | None => ShareFailed
        | Some payload =>
            match getProperty payload "slides", getProperty payload "theme",
                  getProperty payload "customTheme" with
            | Some slidesValue, Some themeValue, Some customThemeValue =>
                if truthy slidesValue && truthy themeValue then
                  match slidesValue, themeValue with
                  | Some sv, Some tv =>
                      OpenShared sv tv
                        (if truthy customThemeValue then customThemeValue else None)
                  | _, _ => Untouched
                  end
                else Untouched
            | _, _, _ => ShareFailed
            end
        end
    end
  else Untouched.

(** [prev => prev.find(t => t.id === theme.id) ? prev : [...prev, theme]],
    lines 185-188. *)
Definition mergeCustomTheme (t : CustomTheme) (prev : list CustomTheme)
    : list CustomTheme :=
  match List.find (fun t' => String.eqb (theme_id t') (theme_id t)) prev with
  | Some _ => prev
  | None => prev ++ [t]
  end.

(** The state and the fragment after the effect. [None]: the payload put
    values into the state that the typed model cannot hold. *)
Definition loadShared (hash : string) (st : App) : option (App * string) :=
  match shareEffect hash with
  | Untouched => Some (st, hash)
  | ShareFailed =>
      Some (consoleLog (ConsoleError "Failed to load shared presentation:") st,
            EmptyString)
  | OpenShared slidesValue themeValue customThemeValue =>
      match slidesOfJson slidesValue, asString themeValue,
            match customThemeValue with
            | None => Some None
            | Some cj => option_map Some (customThemeOfJson cj)
            end with
      | Some deck, Some themeId, Some custom =>
          let st1 :=
            setSlides (seq (length (heap st)) (length deck))
              (setHeap (heap st ++ deck) st) in
          let st2 := setTheme themeId st1 in
          let st3 :=
            match custom with
            | Some t => setCustomThemes (mergeCustomTheme t (customThemes st2)) st2
            | None => st2
            end in
          Some (setAppStep StepPresentation (setIsReadOnlyView true st3), hash)
      | _, _, _ => None
      end
  end.

(** [payload.slides && payload.theme] (line 181) for a payload other
    than [null], on which the property access does not throw. *)
Definition hasSlidesAndTheme (payload : json wstring) : bool :=
  match getProperty payload "slides", getProperty payload "theme" with
  | Some slidesValue, Some themeValue => truthy slidesValue && truthy themeValue
  | _, _ => false
  end.

(** The custom theme with the id of the active theme, if it is one
    ([customThemes.find(t => t.id === theme)], line 255). *)
Definition activeCustomTheme (st : App) : option CustomTheme :=
  List.find (fun t => String.eqb (theme_id t) (theme st)) (customThemes st).

(** ** Custom themes in local storage *)

(** The effect of lines 202-211, which runs on load after the effect of
    the share link: [item] is what [localStorage.getItem] returns under
    the key of the application, [None] for [null]. A text that parses
    replaces the custom themes, whatever the effect before it has
    queued for them: its state updates are applied first, in the order
    of the calls. [None]: the text parsed to a value that the typed
    state cannot hold. *)
Definition loadSavedThemes (item : option string) (st : App) : option App :=
  match item with
  | None => Some st
  | Some savedThemes =>
      if String.eqb savedThemes EmptyString then Some st
      else
        match JSON_parse savedThemes with
        | None =>
            Some (consoleLog
                    (ConsoleError "Failed to load custom themes from local storage:")
                    st)
        | Some value =>
            match customThemesOfJson value with
            | Some themes => Some (setCustomThemes themes st)
            | None => None
            end
        end
  end.

(** The text that the effect of lines 214-220 stores. *)
Definition savedThemesText (themes : list CustomTheme) : string :=
  stringify (JArr (List.map customThemeToJson themes)).

(** The two effects that read on load, in their order: the share link,
    then the stored themes. The result is the state of the first
    render after them and the fragment. *)
Definition loadEffects (hash : string) (item : option string) (st : App)
    : option (App * string) :=
  match loadShared hash st with
  | Some (st1, hash1) =>
      match loadSavedThemes item st1 with
      | Some st2 => Some (st2, hash1)
      | None => None
      end
  | None => None
  end.

(** ** Busy flags and the calls in flight *)

(** The busy flags that the continuation of a call in flight clears. *)
Definition pendingKeys (p : Pending) : list string :=
  match p with
  | PImage index _ insideContent =>
      actionKey "image" index
        :: (if insideContent then [actionKey "content" index] else [])
  | PChart index => [actionKey "chart" index]
  | PContent _ index => [actionKey "content" index]
  | PEnhance _ index => [actionKey "enhance" index]
  | PNotes _ index => [actionKey "notes" index]
  end.

(** Every busy flag that is set belongs to a call in flight. *)
Definition busyJustified (cfg : Config) : Prop :=
  forall key, slideActionLoading (app cfg) !! key = Some true ->
    exists p, p ∈ pending cfg /\ key ∈ pendingKeys p.

(** The slide that [handleAddSlide] appends, lines 669-676. *)
Definition newSlide : Slide :=
  {| title := "New Slide"; content := ["Click to edit content."];
     imagePrompt := "A simple background image"; layout := TextLeft;
     imageUrl := None; speakerNotes := Some ""; chartData := None |}.

(** ** Themes *)

(** The ids of [DEFAULT_THEMES], lines 58-64. *)
Definition DEFAULT_THEMES : list (string * string) :=
  [("dark", "Dark"); ("modern", "Modern"); ("corporate", "Corporate");
   ("minimal", "Minimal"); ("academic", "Academic")].

Definition isDefaultTheme (id : string) : bool :=
  existsb (fun t => String.eqb (fst t) id) DEFAULT_THEMES.

(** [customThemes.some(t => t.id === theme)], line 845. *)
Definition isCustomTheme (st : App) : bool :=
  existsb (fun t => String.eqb (theme_id t) (theme st)) (customThemes st).

(** The class of the application container, line 846. *)
Definition themeClassName (st : App) : string :=
  if isCustomTheme st then "theme-custom" else "theme-" ++ theme st.

(** The active theme id is a built-in theme or a custom theme of the
    session. *)
Definition themeResolves (st : App) : bool :=
  isDefaultTheme (theme st) || isCustomTheme st.

(** [handleSaveCustomTheme], lines 717-721; the flag of the theme modal,
    which it clears, is not part of the state modelled here. *)
Definition handleSaveCustomTheme (newTheme : CustomTheme) (st : App) : App :=
  setTheme (theme_id newTheme) (setCustomThemes (customThemes st ++ [newTheme]) st).

(** [handleDeleteCustomTheme], lines 723-728. *)
Definition handleDeleteCustomTheme (themeId : string) (st : App) : App :=
  let st1 := if String.eqb (theme st) themeId then setTheme "dark" st else st in
  setCustomThemes
    (List.filter (fun t => negb (String.eqb (theme_id t) themeId)) (customThemes st1))
    st1.

(** [handleSave] of [ThemeCreatorModal], lines 1483-1486. [now] is the
    value of [Date.now()]; [draft] holds the name and the colours of the
    form, its id is not used. *)
Definition handleSave (now : N) (draft : CustomTheme) (st : App) : App :=
  if String.eqb (trim (theme_name draft)) "" then st
  else
    handleSaveCustomTheme
      {| theme_id := "custom-" ++ pretty now; theme_name := theme_name draft;
         bg_primary := bg_primary draft; bg_secondary := bg_secondary draft;
         text_primary := text_primary draft; text_secondary := text_secondary draft;
         accent_primary := accent_primary draft |}
      st.

(** ** The content editor *)

(** [arr.join(sep)] of an array of strings. *)
Fixpoint join (sep : string) (l : list string) : string :=
  match l with
  | [] => EmptyString
  | [x] => x
  | x :: l' => x ++ sep ++ join sep l'
  end.

(** The value the content textarea shows for a slide
    ([slide.content.join('\n')]). *)
Definition contentText (s : Slide) : string := join (String LF EmptyString) (content s).

Fixpoint containsChar (c : ascii) (s : string) : bool :=
  match s with
  | EmptyString => false
  | String c' s' => Ascii.eqb c' c || containsChar c s'
  end.

(** ** Full-screen presentation: the keyboard (lines 1378-1394) *)

Inductive Key := ArrowRight | Space | ArrowLeft | Escape | OtherKey.

(** The state of [PresentationView] together with [isPresenting] of the
    application. *)
Record Presenting := { currentIndex : Z; isPresenting : bool }.

(** [handleKeyDown] for a deck of [len] slides. *)
Definition handleKeyDown (len : nat) (k : Key) (p : Presenting) : Presenting :=
  if isPresenting p then
    match k with
    | ArrowRight | Space =>
        {| currentIndex := Z.min (Z.of_nat len - 1) (currentIndex p + 1);
           isPresenting := true |}
    | ArrowLeft =>
        {| currentIndex := Z.max 0 (currentIndex p - 1); isPresenting := true |}
    | Escape => {| currentIndex := currentIndex p; isPresenting := false |}
    | OtherKey => p
    end
  else p.

Definition pressKeys (len : nat) (ks : list Key) (p : Presenting) : Presenting :=
  fold_left (fun p k => handleKeyDown len k p) ks p.

(** ** Export: the file name (lines 649-651) *)

Definition isAlphaNumeric (c : ascii) : bool :=
  let n := nat_of_ascii c in
  ((48 <=? n) && (n <=? 57)) || ((65 <=? n) && (n <=? 90))
  || ((97 <=? n) && (n <=? 122)).

(** [s.replace(/[^a-z0-9]/gi, '_')]: among the one-byte code units the
    class, taken without regard to case, holds the ASCII letters and the
    digits. *)
Fixpoint replaceNonAlphaNumeric (s : string) : string :=
  match s with
  | EmptyString => EmptyString
  | String c s' =>
      String (if isAlphaNumeric c then c else "_"%char) (replaceNonAlphaNumeric s')
  end.

Definition safeFileName (baseName : string) : string :=
  toLowerCase (replaceNonAlphaNumeric baseName).

(** [topic || (slides.length > 0 ? slides[0].title : 'presentation')];
    [None] when the first slide is not an object of the store. *)
Definition exportBaseName (st : App) : option string :=
  if negb (String.eqb (topic st) "") then Some (topic st)
  else
    match slides st with
    | [] => Some "presentation"
    | r :: _ => title <$> heap st !! r
    end.

Definition isFileNameChar (c : ascii) : bool :=
  let n := nat_of_ascii c in
  ((48 <=? n) && (n <=? 57)) || ((97 <=? n) && (n <=? 122)) || (n =? 95).

Fixpoint allChars (p : ascii -> bool) (s : string) : bool :=
  match s with
  | EmptyString => true
  | String c s' => p c && allChars p s'
  end.

(** ** The earlier version of the application (src/unnamed/part_000) *)

Module Part000.

(** [handleDragSort], lines 150-165 of part_000: the two references are
    reset before the cursor is compared with [dragItem.current], and a
    number is never strictly equal to [null]. *)
Definition handleDragSort (st : App) : option App :=
  match dragItem st, dragOverItem st with
  | Some src, Some dst =>
      match slides st !! src with
      | None => None
      | Some draggedItemContent =>
          let newSlides :=
            splice_in dst draggedItemContent (splice_out src (slides st)) in
          let st1 := setDragRefs None None st in
          let st2 := setSlides newSlides st1 in
          Some match dragItem st1, dragOverItem st1 with
               | Some item, Some over =>
                   if currentSlideIndex st =? item
                   then setCurrentSlideIndex over st2 else st2
               | _, _ => st2
               end
      end
  | _, _ => Some st
  end.

End Part000.

(** ** Export to PPTX (lines 574-658) *)

(** [theme === 'dark' || (customThemes.find(t => t.id === theme)
    ?.colors['--bg-primary'] || '#ffffff').toLowerCase() < '#888888'],
    line 580; strings are compared code unit by code unit. *)
Definition isDarkTheme (st : App) : bool :=
  String.eqb (theme st) "dark"
  || String.ltb
       (toLowerCase
          match activeCustomTheme st with
          | Some t => if String.eqb (bg_primary t) "" then "#ffffff" else bg_primary t
          | None => "#ffffff"
          end)
       "#888888".

Definition defaultTextColor (dark : bool) : string :=
  if dark then "FFFFFF" else "000000".

Definition defaultBgColor (dark : bool) : string :=
  if dark then "121212" else "FDFBF7".

(** The horizontal positions and widths the export uses: [0.5] (inches),
    ['50%'] and ['5%']; ['90%'] and ['45%']. *)
Inductive XPos := HalfInch | FiftyPercent | FivePercent.
Inductive Width := NinetyPercent | FortyFivePercent.
Inductive Align := AlignCenter | AlignLeft.

Record TextBox := {
  box_text : string;
  box_x : XPos;
  box_w : Width;
  box_align : option Align;
  box_color : string
}.

Inductive Background := BgColor (color : string) | BgData (data : string).

(** One series of [pptxChartData], lines 612-616. *)
Record ChartSeries := {
  series_name : string;
  series_labels : list string;
  series_values : list datum
}.

Inductive Visual :=
  | ChartVisual (type : ChartType) (data : list ChartSeries) (x : XPos) (w : Width)
  | ImageVisual (data : string) (x : XPos)
  | NoVisual.

Record PptxSlide := {
  pptx_background : Background;
  pptx_visual : Visual;
  pptx_title : TextBox;
  pptx_body : TextBox
}.

(** [slide.imageUrl && slide.imageUrl.startsWith('data:image')], line 603:
    the image URL when it is one. *)
Definition validImage (s : Slide) : option string :=
  match imageUrl s with
  | Some u => if startsWith u "data:image" then Some u else None
  | None => None
  end.

(** The body of the loop, lines 585-646, for one slide. *)
Definition exportSlide (dark : bool) (s : Slide) : PptxSlide :=
  let titleOpts x w align color :=
    {| box_text := title s; box_x := x; box_w := w; box_align := Some align;
       box_color := color |} in
  let bodyOpts x w color :=
    {| box_text := contentText s; box_x := x; box_w := w; box_align := None;
       box_color := color |} in
  let textX :=
    match layout s with TextLeft => HalfInch | _ => FiftyPercent end in
  let visualX :=
    match layout s with TextLeft => FiftyPercent | _ => HalfInch end in
  let color := defaultTextColor dark in
  match chartData s with
  | Some chart =>
      let pptxChartData :=
        List.map (fun ds => {| series_name := ds_label ds;
                               series_labels := chart_labels chart;
                               series_values := ds_data ds |})
          (chart_datasets chart) in
      match layout s with
      | ImageFull =>
          {| pptx_background := BgColor (defaultBgColor dark);
             pptx_visual := ChartVisual (chart_type chart) pptxChartData
                              HalfInch NinetyPercent;
             pptx_title := titleOpts HalfInch NinetyPercent AlignCenter color;
             pptx_body := bodyOpts HalfInch NinetyPercent color |}
      | _ =>
          {| pptx_background := BgColor (defaultBgColor dark);
             pptx_visual := ChartVisual (chart_type chart) pptxChartData
                              visualX FortyFivePercent;
             pptx_title := titleOpts textX FortyFivePercent AlignLeft color;
             pptx_body := bodyOpts textX FortyFivePercent color |}
      end
  | None =>
      match validImage s, layout s with
      | Some data, ImageFull =>
          {| pptx_background := BgData data;
             pptx_visual := NoVisual;
             pptx_title := titleOpts FivePercent NinetyPercent AlignCenter "FFFFFF";
             pptx_body := bodyOpts FivePercent NinetyPercent "FFFFFF" |}
      | Some data, _ =>
          {| pptx_background := BgColor (defaultBgColor dark);
             pptx_visual := ImageVisual data visualX;
             pptx_title := titleOpts textX FortyFivePercent AlignLeft color;
             pptx_body := bodyOpts textX FortyFivePercent color |}
      | None, _ =>
          {| pptx_background := BgColor (defaultBgColor dark);
             pptx_visual := NoVisual;
             pptx_title := titleOpts HalfInch NinetyPercent AlignCenter color;
             pptx_body := bodyOpts HalfInch NinetyPercent color |}
      end
  end.

(** The slides of the exported file and its name; [None] when the name
    cannot be read off the store. *)
Definition handleExportToPPTX (st : App) : option (list PptxSlide * string) :=
  match exportBaseName st with
  | Some baseName =>
      Some (List.map (exportSlide (isDarkTheme st)) (deckSlides st),
            (safeFileName baseName ++ ".pptx")%string)
  | None => None
  end.

(** The image data a slide of the file embeds, as background or as
    picture. *)
Definition embeddedImage (p : PptxSlide) : option string :=
  match pptx_background p, pptx_visual p with
  | BgData data, _ => Some data
  | _, ImageVisual data _ => Some data
  | _, _ => None
  end.

(** The horizontal position of the chart or picture placed beside the
    text, if there is one. *)
Definition besideText (p : PptxSlide) : option XPos :=
  match pptx_visual p with
  | ChartVisual _ _ x FortyFivePercent => Some x
  | ImageVisual _ x => Some x
  | _ => None
  end.

(** The value of a colour [#rrggbb], digit by digit. *)
Definition hexNumber (digits : list nat) : Z :=
  fold_left (fun acc d => (16 * acc + Z.of_nat d)%Z) digits 0%Z.

(** ** Start over (lines 240-251) *)

Inductive StartOver :=
  | Reload (href : string)
  | Reset (st : App).

(** [handleStartOver]; [pathname] and [hash] are those of
    [window.location]. *)
Definition handleStartOver (pathname hash : string) (st : App) : StartOver :=
  if isReadOnlyView st || startsWith hash "#share=" then Reload pathname
  else
    Reset (setAppStep StepPrompt
             (setCurrentSlideIndex 0
                (setSelectedOutlineIndex None (setOutlines [] (setSlides [] st))))).

(** ** Enhance wording: the format asked for (lines 510-514) *)

(** A response in the format that the prompt of [handleEnhanceSlide]
    asks for: a title line, then one line per bullet. *)
Definition enhanceFormat (newTitle : string) (bullets : list string) : string :=
  join (String LF EmptyString)
    (("Title: " ++ newTitle)%string :: List.map (fun b => ("- " ++ b)%string) bullets).

(** ** Slide generation, one [await] at a time *)










(** A custom theme as the theme creator makes it. *)
Definition oceanTheme : CustomTheme :=
  {| theme_id := "custom-1700000000000"; theme_name := "Ocean";
     bg_primary := "#001122"; bg_secondary := "#012345";
     text_primary := "#ffffff"; text_secondary := "#cccccc";
     accent_primary := "#00aaff" |}.
(* ================================================================== *)
(** * Properties *)
(* ================================================================== *)

(** ** Arrays *)

Section ArrayFacts.
Context {A : Type}.
Implicit Types (l : list A) (x : A).

Lemma filter_from_ext (p q : nat -> A -> bool) l k :
  (forall i x, k <= i -> p i x = q i x) ->
  filter_from p k l = filter_from q k l.
Proof.
  revert k. induction l as [|x l IH]; intros k Hpq; simpl; [done|].
  rewrite (Hpq k x) by lia.
  rewrite (IH (S k)) by (intros; apply Hpq; lia). done.
Qed.

Lemma filter_from_all (p : nat -> A -> bool) l k :
  (forall i x, k <= i -> p i x = true) -> filter_from p k l = l.
Proof.
  revert k. induction l as [|x l IH]; intros k Hp; simpl; [done|].
  rewrite Hp by lia. f_equal. apply IH. intros; apply Hp; lia.
Qed.

Lemma filter_from_delete l k j :
  filter_from (fun i _ => negb (i =? k + j)) k l = delete j l.
Proof.
  revert k j. induction l as [|x l IH]; intros k j; simpl; [done|].
  destruct j as [|j]; simpl.
  - replace (k =? k + 0) with true by (symmetry; apply Nat.eqb_eq; lia).
    simpl. apply filter_from_all. intros i _ Hi.
    apply negb_true_iff, Nat.eqb_neq. lia.
  - replace (k =? k + S j) with false by (symmetry; apply Nat.eqb_neq; lia).
    simpl. f_equal. rewrite <- (IH (S k) j).
    apply filter_from_ext. intros i _ _. do 2 f_equal. lia.
Qed.

Lemma js_filter_delete l j :
  js_filter (fun i _ => negb (i =? j)) l = delete j l.
Proof. apply (filter_from_delete l 0 j). Qed.

Lemma splice_out_delete l i : splice_out i l = delete i l.
Proof. unfold splice_out. by rewrite delete_take_drop. Qed.

Lemma splice_in_Permutation l i x : Permutation (splice_in i x l) (x :: l).
Proof.
  unfold splice_in. rewrite <- Permutation_middle.
  by rewrite take_drop.
Qed.

Lemma length_splice_in l i x : length (splice_in i x l) = S (length l).
Proof.
  unfold splice_in. rewrite length_app. simpl.
  rewrite length_take, length_drop. lia.
Qed.

Lemma lookup_splice_in_eq l i x :
  i <= length l -> splice_in i x l !! i = Some x.
Proof.
  intros Hi. unfold splice_in.
  rewrite lookup_app_r by (rewrite length_take; lia).
  rewrite length_take. by replace (i - i `min` length l) with 0 by lia.
Qed.

Lemma lookup_splice_in_lt l i x k :
  i <= length l -> k < i -> splice_in i x l !! k = l !! k.
Proof.
  intros Hi Hk. unfold splice_in.
  rewrite lookup_app_l by (rewrite length_take; lia).
  by rewrite lookup_take_lt.
Qed.

Lemma lookup_splice_in_gt l i x k :
  i <= length l -> i <= k -> splice_in i x l !! (S k) = l !! k.
Proof.
  intros Hi Hk. unfold splice_in.
  rewrite lookup_app_r by (rewrite length_take; lia).
  rewrite length_take. replace (S k - i `min` length l) with (S (k - i)) by lia.
  simpl. rewrite lookup_drop. f_equal. lia.
Qed.

Lemma delete_splice_in l i x :
  i <= length l -> delete i (splice_in i x l) = l.
Proof.
  intros Hi. unfold splice_in.
  replace i with (length (take i l)) at 1 by (rewrite length_take; lia).
  by rewrite delete_middle, take_drop.
Qed.
End ArrayFacts.

(** ** Slide store: reorder *)

(** What a reorder that is carried out does to the state. *)
Lemma handleDragSort_run st src dst r :
  dragItem st = Some src -> dragOverItem st = Some dst ->
  src <> dst -> isReadOnlyView st = false ->
  slides st !! src = Some r ->
  handleDragSort st =
    Some (setCurrentSlideIndex (dragSortIndex src dst (currentSlideIndex st))
            (setSlides (splice_in dst r (delete src (slides st)))
               (setDragRefs None None st))).
Proof.
  intros Hs Hd Hne Hro Hr. unfold handleDragSort.
  rewrite Hs, Hd, Hro, Hr, splice_out_delete.
  by replace (src =? dst) with false by (symmetry; by apply Nat.eqb_neq).
Qed.

Lemma length_delete_lt {A} (l : list A) i :
  i < length l -> length (delete i l) = length l - 1.
Proof.
  intros Hi. pose proof (length_delete l i (lookup_lt_is_Some_2 l i Hi)). lia.
Qed.

(** C3. A reorder with valid and distinct source and destination is carried
    out, leaves the slide records alone, and yields a permutation of the
    slide sequence in which the source element sits at the destination
    position while the remaining elements keep their relative order: the
    sequence without its destination position is the original without its
    source position. *)
Theorem reorder_moves_one_slide (st : App) (src dst : nat) :
  dragItem st = Some src -> dragOverItem st = Some dst ->
  src <> dst -> isReadOnlyView st = false ->
  src < length (slides st) -> dst < length (slides st) ->
  exists st',
    handleDragSort st = Some st' /\
    heap st' = heap st /\
    Permutation (slides st') (slides st) /\
    slides st' !! dst = slides st !! src /\
    delete dst (slides st') = delete src (slides st).
Proof.
  intros Hs Hd Hne Hro Hsrc Hdst.
  destruct (lookup_lt_is_Some_2 _ _ Hsrc) as [r Hr].
  eexists. split; [by apply (handleDragSort_run st src dst r)|].
  simpl. assert (dst <= length (delete src (slides st))) as Hle
    by (rewrite length_delete_lt by done; lia).
  split; [done|]. split; [|split].
  - rewrite splice_in_Permutation. symmetry. by apply delete_Permutation.
  - rewrite Hr. by apply lookup_splice_in_eq.
  - by apply delete_splice_in.
Qed.

Lemma reorder_moves_one_slide_witness :
  exists st',
    handleDragSort threeSlideDeck = Some st' /\
    heap st' = heap threeSlideDeck /\
    Permutation (slides st') (slides threeSlideDeck) /\
    slides st' !! 2 = slides threeSlideDeck !! 0 /\
    delete 2 (slides st') = delete 0 (slides threeSlideDeck).
Proof.
  apply (reorder_moves_one_slide threeSlideDeck 0 2);
    [reflexivity | reflexivity | lia | reflexivity | simpl; lia | simpl; lia].
Defined.

(** The slide under the cursor is the same record before and after. *)
Lemma dragSort_follows_slide {A} (l : list A) src dst cur r :
  src <> dst -> l !! src = Some r -> dst < length l -> cur < length l ->
  splice_in dst r (delete src l) !! dragSortIndex src dst cur = l !! cur.
Proof.
  intros Hne Hr Hdst Hcur.
  assert (src < length l) as Hsrc by (by eapply lookup_lt_Some).
  assert (dst <= length (delete src l)) as Hle
    by (rewrite length_delete_lt by done; lia).
  unfold dragSortIndex.
  destruct (Nat.eqb_spec cur src) as [->|Hcs].
  { rewrite Hr. by apply lookup_splice_in_eq. }
  destruct (Nat.ltb_spec src cur) as [Hsc|Hsc];
    destruct (Nat.leb_spec cur dst) as [Hcd|Hcd]; simpl.
  - (* src < cur <= dst *)
    rewrite lookup_splice_in_lt by (done || lia).
    rewrite list_lookup_delete_ge by lia. f_equal. lia.
  - (* src < cur, dst < cur *)
    destruct (Nat.ltb_spec cur src); [lia|]. simpl.
    destruct cur as [|c]; [lia|].
    rewrite lookup_splice_in_gt by (done || lia).
    by rewrite list_lookup_delete_ge by lia.
  - (* cur < src, cur <= dst *)
    destruct (Nat.ltb_spec cur src); [|lia].
    destruct (Nat.leb_spec dst cur); simpl.
    + assert (dst = cur) as -> by lia. replace (cur + 1) with (S cur) by lia.
      rewrite lookup_splice_in_gt by (done || lia).
      by rewrite list_lookup_delete_lt by lia.
    + rewrite lookup_splice_in_lt by (done || lia).
      by rewrite list_lookup_delete_lt by lia.
  - (* cur < src, dst < cur *)
    destruct (Nat.ltb_spec cur src); [|lia].
    destruct (Nat.leb_spec dst cur); [|lia]. simpl.
    replace (cur + 1) with (S cur) by lia.
    rewrite lookup_splice_in_gt by (done || lia).
    by rewrite list_lookup_delete_lt by lia.
Qed.

(** C4, as the code has it. After a reorder with valid and distinct source
    and destination the cursor follows the moved slide when it was on it;
    it moves one step against the direction of the move when it lay
    beyond the source up to and including the destination; it stays
    otherwise; and a cursor that was valid designates the same slide
    record as before. *)
Theorem reorder_cursor_rule (st : App) (src dst : nat) :
  dragItem st = Some src -> dragOverItem st = Some dst ->
  src <> dst -> isReadOnlyView st = false ->
  src < length (slides st) -> dst < length (slides st) ->
  exists st',
    handleDragSort st = Some st' /\
    let cur := currentSlideIndex st in
    let cur' := currentSlideIndex st' in
    (cur = src -> cur' = dst) /\
    (src < cur <= dst -> cur' + 1 = cur) /\
    (dst <= cur < src -> cur' = cur + 1) /\
    (cur <> src -> ~ src < cur <= dst -> ~ dst <= cur < src -> cur' = cur) /\
    (cur < length (slides st) -> slides st' !! cur' = slides st !! cur).
Proof.
  intros Hs Hd Hne Hro Hsrc Hdst.
  destruct (lookup_lt_is_Some_2 _ _ Hsrc) as [r Hr].
  eexists. split; [by apply (handleDragSort_run st src dst r)|].
  simpl. unfold dragSortIndex.
  repeat split.
  - intros ->. by rewrite Nat.eqb_refl.
  - intros [H1 H2]. destruct (Nat.eqb_spec (currentSlideIndex st) src); [lia|].
    destruct (Nat.ltb_spec src (currentSlideIndex st)); [|lia].
    destruct (Nat.leb_spec (currentSlideIndex st) dst); [|lia]. simpl. lia.
  - intros [H1 H2]. destruct (Nat.eqb_spec (currentSlideIndex st) src); [lia|].
    destruct (Nat.ltb_spec src (currentSlideIndex st)); [lia|].
    destruct (Nat.ltb_spec (currentSlideIndex st) src); [|lia].
    destruct (Nat.leb_spec dst (currentSlideIndex st)); [|lia]. done.
  - intros H1 H2 H3. destruct (Nat.eqb_spec (currentSlideIndex st) src); [lia|].
    destruct (Nat.ltb_spec src (currentSlideIndex st));
      destruct (Nat.leb_spec (currentSlideIndex st) dst);
      destruct (Nat.ltb_spec (currentSlideIndex st) src);
      destruct (Nat.leb_spec dst (currentSlideIndex st)); simpl; lia.
  - intros Hcur. by apply dragSort_follows_slide.
Qed.

Lemma reorder_cursor_rule_witness :
  exists st',
    handleDragSort threeSlideDeck = Some st' /\
    let cur := currentSlideIndex threeSlideDeck in
    let cur' := currentSlideIndex st' in
    (cur = 0 -> cur' = 2) /\
    (0 < cur <= 2 -> cur' + 1 = cur) /\
    (2 <= cur < 0 -> cur' = cur + 1) /\
    (cur <> 0 -> ~ 0 < cur <= 2 -> ~ 2 <= cur < 0 -> cur' = cur) /\
    (cur < length (slides threeSlideDeck) ->
     slides st' !! cur' = slides threeSlideDeck !! cur).
Proof.
  apply (reorder_cursor_rule threeSlideDeck 0 2);
    [reflexivity | reflexivity | lia | reflexivity | simpl; lia | simpl; lia].
Defined.

(** C4, as worded: a cursor on the destination is not strictly between
    source and destination, so the worded rule leaves it where it is;
    the code moves it, and only thereby keeps it on its slide.  Dragging
    the first of three slides onto the last with the cursor on the last:
    the code sets the cursor to 1, the worded rule says 2, and position 2
    now holds the dragged slide, not the slide the cursor was on. *)
Lemma reorder_cursor_strict_rule_fails :
  exists st',
    handleDragSort threeSlideDeck = Some st' /\
    currentSlideIndex threeSlideDeck = 2 /\
    currentSlideIndex st' = 1 /\
    strictlyBetweenRule 0 2 (currentSlideIndex threeSlideDeck) = 2 /\
    currentSlideIndex st' <> strictlyBetweenRule 0 2 (currentSlideIndex threeSlideDeck) /\
    slides st' !! strictlyBetweenRule 0 2 (currentSlideIndex threeSlideDeck)
      <> slides threeSlideDeck !! currentSlideIndex threeSlideDeck.
Proof.
  eexists. split; [reflexivity|]. simpl. repeat split; try done; lia.
Qed.

(** ** Slide store: delete *)

Lemma length_delete_lower {A} (l : list A) i :
  length l - 1 <= length (delete i l).
Proof.
  revert i. induction l as [|x l IH]; intros [|i]; simpl; try lia.
  specialize (IH i). lia.
Qed.

(** C5. Deleting a slide does nothing when at most one slide is left or
    the deck is read-only, so a deck with a slide keeps at least one.
    Otherwise it removes the slide at the given index and nothing else;
    the cursor stays when the deleted index is above it and becomes
    [max 0 (i - 1)] when it is at or below it; a valid cursor stays
    valid. *)
Theorem delete_slide_contract (st : App) (j : nat) :
  let st' := handleDeleteSlide j st in
  let i := currentSlideIndex st in
  (length (slides st) <= 1 \/ isReadOnlyView st = true -> st' = st) /\
  (1 <= length (slides st) -> 1 <= length (slides st')) /\
  (1 < length (slides st) -> isReadOnlyView st = false ->
     heap st' = heap st /\
     slides st' = delete j (slides st) /\
     (j < length (slides st) -> length (slides st') = length (slides st) - 1) /\
     (i < j -> currentSlideIndex st' = i) /\
     (j <= i ->
        Z.of_nat (currentSlideIndex st') = Z.max 0 (Z.of_nat i - 1)) /\
     (j < length (slides st) -> i < length (slides st) ->
        currentSlideIndex st' < length (slides st'))).
Proof.
  cbv zeta. unfold handleDeleteSlide.
  destruct (Nat.leb_spec (length (slides st)) 1) as [Hlen|Hlen];
    [simpl; repeat split; try done; lia|].
  destruct (isReadOnlyView st) eqn:Hro;
    [simpl; repeat split; try done; lia|].
  simpl. rewrite js_filter_delete.
  destruct (Nat.leb_spec j (currentSlideIndex st)) as [Hji|Hji]; simpl.
  - split; [intros [?|?]; (lia || done)|].
    split.
    { intros _. pose proof (length_delete_lower (slides st) j). lia. }
    intros _ _. repeat split; try done; try lia.
    + intros. by apply length_delete_lt.
    + intros. rewrite length_delete_lt by done. lia.
  - split; [intros [?|?]; (lia || done)|].
    split.
    { intros _. pose proof (length_delete_lower (slides st) j). lia. }
    intros _ _. repeat split; try done; try lia.
    + intros. by apply length_delete_lt.
    + intros. rewrite length_delete_lt by done. lia.
Qed.

Lemma delete_slide_contract_witness :
  let st := threeSlideDeck in
  let st' := handleDeleteSlide 1 st in
  st' <> st /\
  1 <= length (slides st') /\
  heap st' = heap st /\
  slides st' = delete 1 (slides st) /\
  length (slides st') = 2 /\
  Z.of_nat (currentSlideIndex st') = Z.max 0 (Z.of_nat 2 - 1) /\
  currentSlideIndex st' < length (slides st').
Proof.
  cbv zeta.
  destruct (delete_slide_contract threeSlideDeck 1) as (_ & Hone & Hrun).
  destruct Hrun as (Hheap & Hslides & Hlen & _ & Hcur & Hvalid);
    [simpl; lia | reflexivity |].
  split; [discriminate|].
  split; [apply Hone; simpl; lia|].
  split; [exact Hheap|].
  split; [exact Hslides|].
  split; [apply Hlen; simpl; lia|].
  split; [apply Hcur; simpl; lia|].
  apply Hvalid; simpl; lia.
Defined.

(** ** Visual exclusivity *)

Create HintDb visuals.

Lemma imageDataUrl_not_sentinel b : isSentinel (imageDataUrl b) = false.
Proof. reflexivity. Qed.

Lemma oneVisual_loading s : oneVisual (withImageUrl (Some "loading") s) = true.
Proof. reflexivity. Qed.

Lemma oneVisual_error s : oneVisual (withImageUrl (Some "error") s) = true.
Proof. reflexivity. Qed.

Lemma oneVisual_image s u : oneVisual (withChartData None (withImageUrl u s)) = true.
Proof. unfold oneVisual, hasChart. simpl. by rewrite andb_false_r. Qed.

Lemma oneVisual_chart s c : oneVisual (withImageUrl None (withChartData c s)) = true.
Proof. reflexivity. Qed.

Lemma oneVisual_applyContent r s : oneVisual (applyContent r s) = true.
Proof. unfold oneVisual, hasImage, hasChart. simpl. by destruct (r_chart r). Qed.

Lemma oneVisual_withField f s :
  textualField f = true -> oneVisual (withField f s) = oneVisual s.
Proof. by destruct f. Qed.

Lemma visualsOk_mutate r f st :
  (forall s, oneVisual (f s) = true) -> visualsOk st -> visualsOk (mutateSlide r f st).
Proof.
  intros Hf Hok. unfold visualsOk, mutateSlide. simpl.
  apply Forall_alter; [done|]. intros; apply Hf.
Qed.

Lemma visualsOk_alloc s st :
  oneVisual s = true -> visualsOk st -> visualsOk (allocSlide s st).2.
Proof.
  intros Hs Hok. unfold visualsOk, allocSlide. simpl.
  apply Forall_app. split; [done|]. by constructor.
Qed.

Lemma visualsOk_deref st arr index s :
  visualsOk st -> derefSlide st arr index = Some s -> oneVisual s = true.
Proof.
  unfold visualsOk, derefSlide. intros Hok Hd.
  destruct (arr !! index) as [r|]; [|done].
  by apply (Forall_lookup_1 _ _ _ _ Hok Hd).
Qed.

Lemma visualsOk_updateInPlace index f st st' :
  (forall s, oneVisual (f s) = true) -> visualsOk st ->
  updateInPlace index f st = Some st' -> visualsOk st'.
Proof.
  unfold updateInPlace. intros Hf Hok Hup.
  destruct (slides st !! index); [|done].
  injection Hup as <-. by apply visualsOk_mutate.
Qed.

Lemma visualsOk_replaceSlide arr index f st st' :
  (forall s, oneVisual s = true -> oneVisual (f s) = true) -> visualsOk st ->
  replaceSlide arr index f st = Some st' -> visualsOk st'.
Proof.
  unfold replaceSlide. intros Hf Hok Hup.
  destruct (derefSlide st arr index) as [s|] eqn:Hd; [|done].
  injection Hup as <-.
  apply (visualsOk_alloc (f s) st); [|done].
  apply Hf. by eapply visualsOk_deref.
Qed.

Lemma visualsOk_handleUpdateSlide arr ro index f st st' :
  textualField f = true -> visualsOk st ->
  handleUpdateSlide arr ro index f st = Some st' -> visualsOk st'.
Proof.
  unfold handleUpdateSlide. intros Hf Hok Hup. destruct ro.
  - by injection Hup as <-.
  - eapply visualsOk_replaceSlide; [|done|done].
    intros s Hs. by rewrite oneVisual_withField.
Qed.

Lemma visualsOk_handleAddSlide st : visualsOk st -> visualsOk (handleAddSlide st).
Proof.
  unfold handleAddSlide. intros Hok. destruct (isReadOnlyView st); [done|].
  unfold visualsOk. simpl. apply Forall_app. split; [done|]. by constructor.
Qed.

Lemma visualsOk_handleDeleteSlide j st :
  visualsOk st -> visualsOk (handleDeleteSlide j st).
Proof.
  unfold handleDeleteSlide. intros Hok.
  destruct (_ || _); [done|]. by destruct (_ <=? _).
Qed.

Lemma visualsOk_handleDragSort st st' :
  visualsOk st -> handleDragSort st = Some st' -> visualsOk st'.
Proof.
  unfold handleDragSort. intros Hok Hd.
  destruct (dragItem st), (dragOverItem st); try by injection Hd as <-.
  destruct (_ || _); [by injection Hd as <-|].
  destruct (slides st !! _); [|done]. by injection Hd as <-.
Qed.

Lemma visualsOk_handleRegenerateImage arr ro inside index cfg cfg' :
  visualsOk (app cfg) ->
  handleRegenerateImage arr ro inside index cfg = Some cfg' -> visualsOk (app cfg').
Proof.
  unfold handleRegenerateImage. intros Hok Hr.
  destruct (arr !! index) as [r|]; [|done]. destruct ro; [done|].
  injection Hr as <-. simpl.
  apply (visualsOk_mutate r _ (setActionLoading "image" index true (app cfg)));
    [apply oneVisual_loading | done].
Qed.

Lemma visualsOk_imageSettled index inside o st st' :
  visualsOk st -> imageSettled index inside o st = Some st' -> visualsOk st'.
Proof.
  unfold imageSettled. intros Hok Hs.
  match type of Hs with match ?u with _ => _ end = _ => destruct u as [st1|] eqn:Hu end;
    [|done].
  assert (visualsOk st1) as Hok1.
  { destruct o;
      try (eapply visualsOk_updateInPlace; [apply oneVisual_error| |exact Hu]; done).
    eapply visualsOk_updateInPlace; [|exact Hok|exact Hu].
    intros s. apply oneVisual_image. }
  injection Hs as <-. by destruct inside.
Qed.

Lemma visualsOk_chartSettled index o st st' :
  visualsOk st -> chartSettled index o st = Some st' -> visualsOk st'.
Proof.
  unfold chartSettled. intros Hok Hs.
  match type of Hs with match ?u with _ => _ end = _ => destruct u as [st1|] eqn:Hu end;
    [|done].
  assert (visualsOk st1) as Hok1.
  { destruct o as [| |[c|]| |]; try (by injection Hu as <-).
    eapply visualsOk_updateInPlace; [|exact Hok|exact Hu].
    intros s. apply oneVisual_chart. }
  by injection Hs as <-.
Qed.

Lemma visualsOk_contentSettled arr index o cfg cfg' :
  visualsOk (app cfg) ->
  contentSettled arr index o cfg = Some cfg' -> visualsOk (app cfg').
Proof.
  unfold contentSettled. intros Hok Hs.
  destruct o as [| | |r|]; try (by injection Hs as <-).
  destruct (replaceSlide _ _ _ _) as [st1|] eqn:Hr; [|done].
  assert (visualsOk st1) as Hok1.
  { eapply visualsOk_replaceSlide; [|exact Hok|exact Hr].
    intros; apply oneVisual_applyContent. }
  destruct (r_chart r); [by injection Hs as <-|].
  destruct (handleRegenerateImage _ _ _ _ _) as [cfg2|] eqn:Hi.
  - injection Hs as <-. by eapply visualsOk_handleRegenerateImage in Hi.
  - by injection Hs as <-.
Qed.

Lemma visualsOk_enhanceSettled cur index o st st' :
  visualsOk st -> enhanceSettled cur index o st = Some st' -> visualsOk st'.
Proof.
  unfold enhanceSettled. intros Hok Hs.
  match type of Hs with match ?u with _ => _ end = _ => destruct u as [st1|] eqn:Hu end;
    [|done].
  assert (visualsOk st1) as Hok1; [|by injection Hs as <-].
  destruct o as [| | | |t]; try (by injection Hu as <-).
  destruct (enhanceContent t) as [|b bs]; [by injection Hu as <-|].
  destruct (heap st !! cur) as [c|]; [|done].
  unfold updateInPlace in Hu. destruct (slides st !! index) as [r|]; [|done].
  injection Hu as <-. unfold visualsOk, mutateSlide. simpl.
  apply Forall_alter; [done|]. intros s _ Hone. exact Hone.
Qed.

Lemma visualsOk_notesSettled arr index o st st' :
  visualsOk st -> notesSettled arr index o st = Some st' -> visualsOk st'.
Proof.
  unfold notesSettled. intros Hok Hs.
  match type of Hs with match ?u with _ => _ end = _ => destruct u as [st1|] eqn:Hu end;
    [|done].
  assert (visualsOk st1) as Hok1; [|by injection Hs as <-].
  destruct o as [| | | |t]; try (by injection Hu as <-).
  by eapply visualsOk_handleUpdateSlide in Hu.
Qed.

Lemma visualsOk_settle k o cfg cfg' :
  visualsOk (app cfg) -> settle k o cfg = Some cfg' -> visualsOk (app cfg').
Proof.
  unfold settle, onApp. intros Hok Hs.
  destruct (pending cfg !! k) as [p|]; [|by injection Hs as <-].
  destruct p; simpl in Hs.
  - destruct (imageSettled _ _ _ _) eqn:H; [|done]. injection Hs as <-.
    by eapply visualsOk_imageSettled in H.
  - destruct (chartSettled _ _ _) eqn:H; [|done]. injection Hs as <-.
    by eapply visualsOk_chartSettled in H.
  - by eapply visualsOk_contentSettled in Hs.
  - destruct (enhanceSettled _ _ _ _) eqn:H; [|done]. injection Hs as <-.
    by eapply visualsOk_enhanceSettled in H.
  - destruct (notesSettled _ _ _ _) eqn:H; [|done]. injection Hs as <-.
    by eapply visualsOk_notesSettled in H.
Qed.

Lemma visualsOk_begin (handler : nat -> Config -> Config) index cfg :
  handler = handleRegenerateChart \/ handler = handleRegenerateSlideContent \/
  handler = handleEnhanceSlide \/ handler = handleGenerateSpeakerNotes ->
  visualsOk (app cfg) -> visualsOk (app (handler index cfg)).
Proof.
  intros [->|[->|[->| ->]]] Hok;
    unfold handleRegenerateChart, handleRegenerateSlideContent,
      handleEnhanceSlide, handleGenerateSpeakerNotes;
    destruct (isReadOnlyView (app cfg)); try done;
    repeat match goal with |- context [match ?x with _ => _ end] => destruct x end;
    done.
Qed.

Lemma visualsOk_step cfg e cfg' :
  visualsOk (app cfg) -> step cfg e = Some cfg' -> visualsOk (app cfg').
Proof.
  intros Hok Hs. destruct e; simpl in Hs; unfold onApp in Hs.
  - destruct (handleUpdateSlide _ _ _ _ _) eqn:H; [|done]. injection Hs as <-.
    by eapply visualsOk_handleUpdateSlide in H.
  - destruct (handleUpdateSlide _ _ _ _ _) eqn:H; [|done]. injection Hs as <-.
    by eapply visualsOk_handleUpdateSlide in H.
  - destruct (handleUpdateSlide _ _ _ _ _) eqn:H; [|done]. injection Hs as <-.
    by eapply visualsOk_handleUpdateSlide in H.
  - destruct (handleUpdateSlide _ _ _ _ _) eqn:H; [|done]. injection Hs as <-.
    by eapply visualsOk_handleUpdateSlide in H.
  - injection Hs as <-. by apply visualsOk_handleAddSlide.
  - injection Hs as <-. by apply visualsOk_handleDeleteSlide.
  - by injection Hs as <-.
  - by injection Hs as <-.
  - by injection Hs as <-.
  - destruct (handleDragSort _) eqn:H; [|done]. injection Hs as <-.
    by eapply visualsOk_handleDragSort in H.
  - destruct (handleRegenerateImage _ _ _ _ _) eqn:H; injection Hs as <-; [|done].
    by eapply visualsOk_handleRegenerateImage in H.
  - injection Hs as <-. apply visualsOk_begin; auto.
  - injection Hs as <-.
    apply (visualsOk_begin handleRegenerateSlideContent); auto.
  - injection Hs as <-. apply (visualsOk_begin handleEnhanceSlide); auto.
  - injection Hs as <-. apply (visualsOk_begin handleGenerateSpeakerNotes); auto 6.
  - by eapply visualsOk_settle in Hs.
Qed.

Lemma visualsOk_run es : forall cfg cfg',
  visualsOk (app cfg) -> run cfg es = Some cfg' -> visualsOk (app cfg').
Proof.
  induction es as [|e es IH]; intros cfg cfg' Hok Hr; simpl in Hr.
  - by injection Hr as <-.
  - destruct (step cfg e) as [cfg1|] eqn:Hs; [|done].
    eapply IH; [|exact Hr]. by eapply visualsOk_step.
Qed.

Lemma visualsOk_deck st : visualsOk st -> Forall (fun s => oneVisual s = true) (deckSlides st).
Proof.
  unfold visualsOk, deckSlides. intros Hok.
  induction (slides st) as [|r l IH]; simpl; [constructor|].
  destruct (heap st !! r) as [s|] eqn:Hr; [|done].
  constructor; [|done]. by apply (Forall_lookup_1 _ _ _ _ Hok Hr).
Qed.

Lemma derefSlide_mutate st arr index r f s :
  arr !! index = Some r -> heap st !! r = Some s ->
  derefSlide (mutateSlide r f st) arr index = Some (f s).
Proof.
  intros Ha Hh. unfold derefSlide, mutateSlide. rewrite Ha. simpl.
  by rewrite list_lookup_alter_eq, Hh.
Qed.

Lemma derefSlide_inv st arr index s :
  derefSlide st arr index = Some s ->
  exists r, arr !! index = Some r /\ heap st !! r = Some s.
Proof. unfold derefSlide. destruct (arr !! index) as [r|]; [eauto|done]. Qed.

Lemma replaceSlide_run st arr index f s :
  derefSlide st arr index = Some s ->
  exists st',
    replaceSlide arr index f st = Some st' /\
    heap st' = heap st ++ [f s] /\
    slides st' = <[index := length (heap st)]> arr /\
    derefSlide st' (slides st') index = Some (f s).
Proof.
  intros Hd. unfold replaceSlide. rewrite Hd. simpl.
  eexists. split; [done|]. simpl. split; [done|]. split; [done|].
  destruct (derefSlide_inv _ _ _ _ Hd) as (r & Ha & _).
  unfold derefSlide. simpl.
  rewrite list_lookup_insert_eq by (by eapply lookup_lt_Some).
  by rewrite lookup_app_r, Nat.sub_diag by lia.
Qed.

(** X25. Installing an image on a slide removes its chart and installing a
    chart removes its image, for the three regeneration actions; and along
    every run of the presentation screen (edits, add, delete, reorder,
    the regeneration, enhance and notes actions and the settling of their
    calls in any order) no slide object, hence no slide of the deck, holds
    an image payload together with a chart, provided none did at the
    start. *)
Theorem visual_mutual_exclusivity :
  (forall st index inside imageBytes s,
     derefSlide st (slides st) index = Some s ->
     exists st' s',
       imageSettled index inside (GotImage imageBytes) st = Some st' /\
       derefSlide st' (slides st') index = Some s' /\
       imageUrl s' = Some (imageDataUrl imageBytes) /\
       hasImage s' = true /\ chartData s' = None) /\
  (forall st index chart s,
     derefSlide st (slides st) index = Some s ->
     exists st' s',
       chartSettled index (GotChart (Some chart)) st = Some st' /\
       derefSlide st' (slides st') index = Some s' /\
       chartData s' = Some chart /\ imageUrl s' = None) /\
  (forall cfg closureSlides index r chart s,
     derefSlide (app cfg) (slides (app cfg)) index = Some s ->
     r_chart r = Some chart ->
     exists cfg' s',
       contentSettled closureSlides index (GotContent r) cfg = Some cfg' /\
       derefSlide (app cfg') (slides (app cfg')) index = Some s' /\
       chartData s' = Some chart /\ imageUrl s' = None) /\
  (forall cfg es cfg',
     visualsOk (app cfg) -> run cfg es = Some cfg' ->
     visualsOk (app cfg') /\
     Forall (fun s => oneVisual s = true) (deckSlides (app cfg'))).
Proof.
  split; [|split; [|split]].
  - intros st index inside imageBytes s Hd.
    destruct (derefSlide_inv _ _ _ _ Hd) as (r & Ha & Hh).
    unfold imageSettled, updateInPlace. rewrite Ha.
    eexists _, (withChartData None (withImageUrl (Some (imageDataUrl imageBytes)) s)).
    split; [done|].
    split; [|by repeat split].
    destruct inside;
      exact (derefSlide_mutate st (slides st) index r _ s Ha Hh).
  - intros st index chart s Hd.
    destruct (derefSlide_inv _ _ _ _ Hd) as (r & Ha & Hh).
    unfold chartSettled, updateInPlace. rewrite Ha.
    eexists _, (withImageUrl None (withChartData (Some chart) s)).
    split; [done|]. split; [|by split].
    exact (derefSlide_mutate st (slides st) index r _ s Ha Hh).
  - intros cfg arr index r chart s Hd Hc.
    destruct (replaceSlide_run _ _ _ (applyContent r) _ Hd)
      as (st' & Hrun & _ & _ & Hd').
    unfold contentSettled. rewrite Hrun, Hc.
    eexists _, _. split; [done|]. split; [exact Hd'|].
    unfold applyContent. simpl. by rewrite Hc.
  - intros cfg es cfg' Hok Hr.
    assert (visualsOk (app cfg')) by (by eapply visualsOk_run).
    split; [done|]. by apply visualsOk_deck.
Qed.

Lemma visual_mutual_exclusivity_witness :
  (exists st' s',
     imageSettled 0 false (GotImage "BBBB") (deckOf [chartSlide]) = Some st' /\
     derefSlide st' (slides st') 0 = Some s' /\
     imageUrl s' = Some (imageDataUrl "BBBB") /\
     hasImage s' = true /\ chartData s' = None) /\
  (exists st' s',
     chartSettled 0 (GotChart (Some sampleChart)) (deckOf [imageSlide]) = Some st' /\
     derefSlide st' (slides st') 0 = Some s' /\
     chartData s' = Some sampleChart /\ imageUrl s' = None) /\
  (exists cfg' s',
     contentSettled [0] 0
       (GotContent {| r_title := "T"; r_content := ["a"; "b"]; r_imagePrompt := "";
                      r_chart := Some sampleChart |})
       (idle (deckOf [imageSlide])) = Some cfg' /\
     derefSlide (app cfg') (slides (app cfg')) 0 = Some s' /\
     chartData s' = Some sampleChart /\ imageUrl s' = None) /\
  (exists cfg',
     run (idle (deckOf [chartSlide]))
       [RegenerateImage 0; RegenerateChart 0; Settle 0 (GotImage "BBBB");
        Settle 0 (GotChart (Some sampleChart))] = Some cfg' /\
     visualsOk (app cfg') /\
     Forall (fun s => oneVisual s = true) (deckSlides (app cfg'))).
Proof.
  destruct visual_mutual_exclusivity as (Himg & Hchart & Hcontent & Hrun).
  split; [|split; [|split]].
  - apply (Himg (deckOf [chartSlide]) 0 false "BBBB" chartSlide). reflexivity.
  - apply (Hchart (deckOf [imageSlide]) 0 sampleChart imageSlide). reflexivity.
  - apply (Hcontent (idle (deckOf [imageSlide])) [0] 0 _ sampleChart imageSlide);
      reflexivity.
  - destruct (run (idle (deckOf [chartSlide]))
                [RegenerateImage 0; RegenerateChart 0; Settle 0 (GotImage "BBBB");
                 Settle 0 (GotChart (Some sampleChart))]) as [cfg'|] eqn:Hr.
    + exists cfg'. split; [reflexivity|].
      apply (Hrun (idle (deckOf [chartSlide])) _ cfg' ltac:(repeat constructor) Hr).
    + vm_compute in Hr. discriminate Hr.
Defined.

(** ** Enhance wording *)

(** C9. When the response to an enhance-wording request yields no bullet
    under the convention, the continuation writes one warning to the
    console and clears the busy flag of the action; the slide objects
    (title, content, visual and all other fields), the slide sequence and
    the rest of the state are what they were. *)
Theorem enhance_without_bullets_keeps_slide
    (st : App) (currentSlide : ref) (index : nat) (responseText : string) :
  enhanceContent responseText = [] ->
  exists st',
    enhanceSettled currentSlide index (GotText responseText) st = Some st' /\
    heap st' = heap st /\
    slides st' = slides st /\
    deckSlides st' = deckSlides st /\
    currentSlideIndex st' = currentSlideIndex st /\
    appStep st' = appStep st /\
    console st' = console st ++ [ConsoleWarn "Failed to parse enhanced content:"] /\
    slideActionLoading st' =
      <[actionKey "enhance" index := false]> (slideActionLoading st).
Proof.
  intros Hnone. unfold enhanceSettled. rewrite Hnone.
  eexists. split; [reflexivity|]. by repeat split.
Qed.

Lemma enhance_without_bullets_keeps_slide_witness :
  exists st',
    enhanceSettled 0 0 (GotText unparsableText) (deckOf [imageSlide]) = Some st' /\
    heap st' = heap (deckOf [imageSlide]) /\
    slides st' = slides (deckOf [imageSlide]) /\
    deckSlides st' = deckSlides (deckOf [imageSlide]) /\
    currentSlideIndex st' = currentSlideIndex (deckOf [imageSlide]) /\
    appStep st' = appStep (deckOf [imageSlide]) /\
    console st' = console (deckOf [imageSlide])
                    ++ [ConsoleWarn "Failed to parse enhanced content:"] /\
    slideActionLoading st' =
      <[actionKey "enhance" 0 := false]> (slideActionLoading (deckOf [imageSlide])).
Proof.
  apply (enhance_without_bullets_keeps_slide (deckOf [imageSlide]) 0 0 unparsableText).
  reflexivity.
Defined.

(** ** Freshness of slide records *)

(** X1. A field edit allocates: every slide object that existed keeps its
    value, the new sequence differs from the one the handler started from
    at the edited position only, and the new object is the old one with
    the one field replaced. *)
Lemma handleUpdateSlide_fresh arr index field st s :
  derefSlide st arr index = Some s ->
  exists st',
    handleUpdateSlide arr false index field st = Some st' /\
    (forall r s0, heap st !! r = Some s0 -> heap st' !! r = Some s0) /\
    (forall j, j <> index -> slides st' !! j = arr !! j) /\
    derefSlide st' (slides st') index = Some (withField field s).
Proof.
  intros Hd. unfold handleUpdateSlide.
  destruct (replaceSlide_run st arr index (withField field) s Hd)
    as (st' & Hrun & Hheap & Hslides & Hd').
  exists st'. split; [done|]. split; [|split; [|done]].
  - intros r s0 Hr. rewrite Hheap. by apply lookup_app_l_Some.
  - intros j Hj. rewrite Hslides. by apply list_lookup_insert_ne.
Qed.

(** C8, at the failing input: a deck of one slide whose enhance-wording
    call settles with a well-formed response. The slide sequence after
    the action holds the very reference it held before, and the sequence
    a consumer kept from before the action now reads the new title and
    bullets. Regenerating the image does the same to the visual sentinel
    as soon as the action starts. *)
Theorem enhance_mutates_shared_record :
  let st := deckOf [imageSlide] in
  let old := slides st in
  exists cfg1 cfg2 cfg3,
    step (idle st) Enhance = Some cfg1 /\
    step cfg1 (Settle 0 (GotText enhancedText)) = Some cfg2 /\
    slides (app cfg2) = old /\
    derefSlide st old 0 = Some imageSlide /\
    derefSlide (app cfg2) old 0
      = Some (withContent ["Cheap"; "Clean"] (withTitle "Sun power" imageSlide)) /\
    step (idle st) (RegenerateImage 0) = Some cfg3 /\
    slides (app cfg3) = old /\
    derefSlide (app cfg3) old 0 = Some (withImageUrl (Some "loading") imageSlide).
Proof. cbv zeta. eexists _, _, _. by repeat split. Qed.

(** ** Generation pipeline *)

(** *** Percentages *)

Lemma percent_le j j' T : 0 < T -> j <= j' -> (percent j T <= percent j' T)%Q.
Proof.
  intros HT Hj. unfold percent.
  apply Qmult_le_compat_r; [|done].
  apply Qmult_le_compat_r.
  - rewrite <- Zle_Qle. lia.
  - apply Qlt_le_weak, Qinv_lt_0_compat.
    change 0%Q with (inject_Z 0). rewrite <- Zlt_Qlt. lia.
Qed.

Lemma percent_full T : 0 < T -> (percent T T == 100)%Q.
Proof.
  intros HT. unfold percent, Qdiv. rewrite Qmult_inv_r; [reflexivity|].
  change 0%Q with (inject_Z 0). rewrite inject_Z_injective. lia.
Qed.

Lemma percent_zero T : (percent 0 T == 0)%Q.
Proof. unfold percent, Qdiv. simpl. by rewrite !Qmult_0_l. Qed.

Lemma percent_lt_full j T : j < T -> (percent j T < 100)%Q.
Proof.
  intros Hj. unfold percent.
  apply Qlt_le_trans with (1 * 100)%Q; [|done].
  apply Qmult_lt_compat_r; [done|].
  apply Qlt_shift_div_r.
  - change 0%Q with (inject_Z 0). rewrite <- Zlt_Qlt. lia.
  - rewrite Qmult_1_l, <- Zlt_Qlt. lia.
Qed.

(** *** One slide *)

Lemma derefSlide_lookup st arr i r :
  arr !! i = Some r -> derefSlide st arr i = heap st !! r.
Proof. unfold derefSlide. by intros ->. Qed.

Lemma refsValid_deref st i :
  refsValid st -> i < length (slides st) ->
  exists s, derefSlide st (slides st) i = Some s.
Proof.
  intros Hv Hi. destruct (lookup_lt_is_Some_2 _ _ Hi) as [r Hr].
  rewrite (derefSlide_lookup _ _ _ _ Hr).
  apply lookup_lt_is_Some_2. by apply (Forall_lookup_1 _ _ _ _ Hv Hr).
Qed.

(** The store after [updated[i] = { ...updated[i], ... }] followed by
    assignments to fields of the new object. *)
Lemma replaced_then_mutated (h : list Slide) (arr : list ref) i s' :
  Forall (fun r => r < length h) arr -> i < length arr ->
  let h' := h ++ [s'] in
  let arr' := <[i := length h]> arr in
  Forall (fun r => r < length h') arr' /\
  length arr' = length arr /\
  arr' !! i = Some (length h) /\
  h' !! length h = Some s' /\
  (forall j, j <> i ->
     match arr' !! j with Some r => h' !! r | None => None end
     = match arr !! j with Some r => h !! r | None => None end).
Proof.
  intros Hv Hi h' arr'. subst h' arr'. repeat split.
  - apply Forall_insert.
    + eapply Forall_impl; [exact Hv|]. intros r Hr. simpl in Hr.
      rewrite length_app. simpl. lia.
    + rewrite length_app. simpl. lia.
  - apply length_insert.
  - by apply list_lookup_insert_eq.
  - by rewrite lookup_app_r, Nat.sub_diag by lia.
  - intros j Hj. rewrite list_lookup_insert_ne by done.
    destruct (arr !! j) as [r|] eqn:Hr; [|done].
    apply lookup_app_l. by apply (Forall_lookup_1 _ _ _ _ Hv Hr).
Qed.

Lemma alter_fresh (h : list Slide) s (g : Slide -> Slide) :
  alter g (length h) (h ++ [s]) = h ++ [g s].
Proof.
  induction h as [|x h IH]; simpl; [done|]. by rewrite <- IH.
Qed.

Lemma generateSlide_spec calls T i t c st s :
  refsValid st -> derefSlide st (slides st) i = Some s ->
  match generateSlide calls T i t c st with
  | Completed c' st' =>
      contentOk (calls i) = true /\
      c' = c + 2 /\
      progressReports st' = progressReports st ++ [percent (c + 1) T; percent (c + 2) T] /\
      refsValid st' /\
      length (slides st') = length (slides st) /\
      derefSlide st' (slides st') i = Some (generatedSlide (calls i) s) /\
      (forall j, j <> i -> derefSlide st' (slides st') j = derefSlide st (slides st) j)
  | Thrown st' =>
      contentOk (calls i) = false /\
      (progressReports st' = progressReports st \/
       progressReports st' = progressReports st ++ [percent (c + 1) T])
  | IllTyped => False
  end.
Proof.
  intros Hv Hd.
  destruct (derefSlide_inv _ _ _ _ Hd) as (r & Ha & Hh).
  assert (i < length (slides st)) as Hi by (by eapply lookup_lt_Some).
  unfold generateSlide, contentOk, generatedSlide.
  destruct (contentCall (calls i)) as [| |content ip [ch|]].
  - by split; [|left].
  - by split; [|right].
  - unfold replaceSlide, derefSlide. simpl. rewrite Ha, Hh. simpl.
    destruct (replaced_then_mutated (heap st) (slides st) i
      (withImageUrl None (withChartData (Some ch)
         (withImagePrompt ip (withContent content s)))) Hv Hi)
      as (Hv' & Hlen & Hai & Hhi & Hframe).
    split; [done|]. split; [lia|]. split.
    { rewrite <- !app_assoc. simpl. do 3 f_equal. f_equal. lia. }
    split; [exact Hv'|]. split; [exact Hlen|]. split.
    { by rewrite Hai. }
    exact Hframe.
  - unfold replaceSlide, derefSlide, updateIfPresent, mutateSlide.
    simpl. rewrite Ha, Hh. simpl.
    set (s1 := withImageUrl (Some "loading")
                 (withImagePrompt ip (withContent content s))).
    destruct (replaced_then_mutated (heap st) (slides st) i s1 Hv Hi)
      as (_ & Hlen & Hai & _ & _).
    destruct (imageCall (calls i)) as [|bytes]; simpl; rewrite Hai; simpl;
      rewrite alter_fresh.
    + destruct (replaced_then_mutated (heap st) (slides st) i
        (withImageUrl (Some "error") s1) Hv Hi)
        as (Hv' & _ & _ & Hhi & Hframe).
      split; [done|]. split; [lia|]. split.
      { rewrite <- !app_assoc. simpl. do 3 f_equal. f_equal. lia. }
      split; [exact Hv'|]. split; [exact Hlen|]. split.
      { by rewrite Hai. }
      exact Hframe.
    + destruct (replaced_then_mutated (heap st) (slides st) i
        (withImageUrl (Some (imageDataUrl bytes)) s1) Hv Hi)
        as (Hv' & _ & _ & Hhi & Hframe).
      split; [done|]. split; [lia|]. split.
      { rewrite <- !app_assoc. simpl. do 3 f_equal. f_equal. lia. }
      split; [exact Hv'|]. split; [exact Hlen|]. split.
      { by rewrite Hai. }
      exact Hframe.
Qed.

(** *** The loop *)

Lemma seq_steps c n :
  seq (c + 1) (2 * S n) = (c + 1) :: (c + 2) :: seq (c + 2 + 1) (2 * n).
Proof.
  replace (2 * S n) with (S (S (2 * n))) by lia. cbn [seq].
  replace (c + 2 + 1) with (S (S (c + 1))) by lia.
  by replace (c + 2) with (S (c + 1)) by lia.
Qed.

Lemma generateSlides_spec calls T pts : forall i c st,
  refsValid st -> i + length pts <= length (slides st) ->
  match generateSlides calls T i pts c st with
  | Completed c' st' =>
      (forall j, i <= j < i + length pts -> contentOk (calls j) = true) /\
      c' = c + 2 * length pts /\
      progressReports st' =
        progressReports st
          ++ List.map (fun n => percent n T) (seq (c + 1) (2 * length pts)) /\
      refsValid st' /\
      length (slides st') = length (slides st) /\
      (forall j s, i <= j < i + length pts ->
         derefSlide st (slides st) j = Some s ->
         derefSlide st' (slides st') j = Some (generatedSlide (calls j) s)) /\
      (forall j, ~ i <= j < i + length pts ->
         derefSlide st' (slides st') j = derefSlide st (slides st) j)
  | Thrown st' =>
      (exists j, i <= j < i + length pts /\ contentOk (calls j) = false) /\
      (exists n, n < 2 * length pts /\
         progressReports st' =
           progressReports st ++ List.map (fun n => percent n T) (seq (c + 1) n))
  | IllTyped => False
  end.
Proof.
  induction pts as [|t pts IH]; intros i c st Hv Hlen;
    cbn [generateSlides length] in *.
  - repeat split; try done; try lia. by rewrite app_nil_r.
  - destruct (refsValid_deref st i Hv) as [s Hs]; [lia|].
    pose proof (generateSlide_spec calls T i t c st s Hv Hs) as Hone.
    destruct (generateSlide calls T i t c st) as [c1 st1| st1 |]; [| |done].
    + destruct Hone as (Hok & -> & Hrep & Hv1 & Hl1 & Hdi & Hframe).
      specialize (IH (S i) (c + 2) st1 Hv1). rewrite Hl1 in IH.
      specialize (IH ltac:(lia)).
      destruct (generateSlides calls T (S i) pts (c + 2) st1) as [c2 st2|st2|];
        [| |done].
      * destruct IH as (Hoks & -> & Hrep2 & Hv2 & Hl2 & Hd2 & Hframe2).
        split; [|split; [|split; [|split; [|split; [|split]]]]].
        -- intros j Hj. destruct (decide (j = i)) as [->|]; [done|].
           apply Hoks; lia.
        -- lia.
        -- by rewrite Hrep2, Hrep, <- app_assoc, seq_steps.
        -- done.
        -- lia.
        -- intros j s0 Hj Hs0. destruct (decide (j = i)) as [->|Hne].
           ++ rewrite Hframe2 by lia. rewrite Hdi. congruence.
           ++ apply Hd2; [lia|]. by rewrite Hframe.
        -- intros j Hj. rewrite Hframe2 by lia. apply Hframe. lia.
      * destruct IH as ((j & Hj & Hbad) & n & Hn & Hrep2).
        split; [exists j; split; [lia|done]|].
        exists (S (S n)). split; [lia|].
        rewrite Hrep2, Hrep, <- app_assoc. f_equal. cbn [seq List.map].
        replace (c + 2 + 1) with (S (S (c + 1))) by lia.
        by replace (c + 2) with (S (c + 1)) by lia.
    + destruct Hone as (Hbad & Hrep).
      split; [exists i; split; [lia|done]|].
      destruct Hrep as [Hrep|Hrep].
      * exists 0. split; [lia|]. by rewrite Hrep, app_nil_r.
      * exists 1. split; [lia|]. by rewrite Hrep.
Qed.

(** *** The handler *)

Lemma placeholders_valid (h : list Slide) (pts : list string) :
  Forall (fun r => r < length (h ++ List.map placeholderSlide pts))
    (seq (length h) (length (List.map placeholderSlide pts))).
Proof.
  apply Forall_forall. intros r Hr. apply elem_of_seq in Hr.
  rewrite length_app. lia.
Qed.

Lemma placeholders_lookup (h : list Slide) (pts : list string) j :
  match seq (length h) (length (List.map placeholderSlide pts)) !! j with
  | Some r => (h ++ List.map placeholderSlide pts) !! r
  | None => None
  end = placeholderSlide <$> pts !! j.
Proof.
  rewrite length_map.
  destruct (decide (j < length pts)) as [Hj|Hj].
  - rewrite lookup_seq_lt by done.
    rewrite lookup_app_r by lia.
    replace (length h + j - length h) with j by lia.
    apply list_lookup_fmap.
  - rewrite lookup_seq_ge by lia. by rewrite lookup_ge_None_2 by lia.
Qed.

(** What [handleGenerateSlidesFromOutline] does, by the outcome of the
    content calls. *)
Lemma handleGenerateSlidesFromOutline_spec calls st sel o :
  selectedOutlineIndex st = Some sel -> outlines st !! sel = Some o ->
  let k := length (points o) in
  exists st' steps finished,
    handleGenerateSlidesFromOutline calls st = Some st' /\
    progressReports st' =
      progressReports st ++ reportsOfRun (totalStepsOf o) steps finished /\
    (finished = true ->
       steps = 2 * k /\ appStep st' = StepPresentation /\
       (forall j, j < k -> contentOk (calls j) = true) /\
       length (slides st') = k /\
       (forall j t, points o !! j = Some t ->
          derefSlide st' (slides st') j
            = Some (generatedSlide (calls j) (placeholderSlide t)))) /\
    (finished = false ->
       steps < 2 * k /\ appStep st' = StepOutline /\
       progressText st' = "An error occurred. Please try again." /\
       exists j, j < k /\ contentOk (calls j) = false).
Proof.
  intros Hsel Ho k.
  unfold handleGenerateSlidesFromOutline. rewrite Hsel, Ho. simpl.
  set (st2 := setSlides _ (setHeap _ _)).
  assert (refsValid st2) as Hv by apply placeholders_valid.
  assert (length (slides st2) = k) as Hk
    by (subst st2; simpl; by rewrite length_seq, length_map).
  assert (0 + length (points o) <= length (slides st2)) as Hfit
    by (rewrite Hk; unfold k; lia).
  pose proof (generateSlides_spec calls (totalStepsOf o) (points o) 0 0 st2 Hv Hfit)
    as Hloop.
  destruct (generateSlides calls (totalStepsOf o) 0 (points o) 0 st2)
    as [c3 st3|st3|]; [| |done].
  - destruct Hloop as (Hoks & -> & Hrep & Hv3 & Hl3 & Hd3 & _).
    exists (setAppStep StepPresentation
              (setProgress 100 (setProgressText "Finalizing..." st3))),
      (2 * k), true.
    split; [done|]. split.
    { simpl. rewrite Hrep. subst st2. simpl. unfold reportsOfRun. fold k.
      by rewrite <- !app_assoc. }
    split; [|done]. intros _.
    split; [done|]. split; [done|].
    split; [intros j Hj; apply Hoks; simpl; fold k; lia|].
    split; [simpl; lia|].
    intros j t Hj. simpl.
    apply (Hd3 j (placeholderSlide t)).
    + apply lookup_lt_Some in Hj. simpl. lia.
    + unfold derefSlide. subst st2. simpl.
      by rewrite placeholders_lookup, Hj.
  - destruct Hloop as ((j & Hj & Hbad) & n & Hn & Hrep).
    exists (generationFailed st3), n, false.
    split; [done|]. split.
    { simpl. rewrite Hrep. subst st2. simpl. unfold reportsOfRun.
      by rewrite <- !app_assoc, app_nil_r. }
    split; [done|]. intros _.
    split; [fold k in Hn; lia|]. split; [done|]. split; [done|].
    exists j. split; [simpl in Hj; fold k in Hj; lia|done].
Qed.

(** *** Progress *)

Lemma reportsOfRun_lookup T steps finished a x :
  reportsOfRun T steps finished !! a = Some x ->
  (a = 0 /\ x = 0%Q) \/
  (1 <= a <= steps /\ x = percent a T) \/
  (a = steps + 1 /\ finished = true /\ x = 100%Q).
Proof.
  unfold reportsOfRun. destruct a as [|a]; simpl.
  - intros [= <-]. by left.
  - intros Hx. right.
    destruct (decide (a < steps)) as [Ha|Ha].
    + left. rewrite lookup_app_l in Hx by (by rewrite length_map, length_seq).
      rewrite list_lookup_fmap, lookup_seq_lt in Hx by done.
      injection Hx as <-. split; [lia|done].
    + right. rewrite lookup_app_r in Hx by (rewrite length_map, length_seq; lia).
      rewrite length_map, length_seq in Hx.
      destruct finished; [|done].
      destruct (a - steps) as [|d] eqn:Hd; [|done].
      injection Hx as <-. repeat split; try done. lia.
Qed.

Lemma percent_nonneg j T : 0 < T -> (0 <= percent j T)%Q.
Proof.
  intros HT. rewrite <- (percent_zero T). apply percent_le; [done|lia].
Qed.

Lemma percent_le_full j T : j <= T -> 0 < T -> (percent j T <= 100)%Q.
Proof.
  intros Hj HT. rewrite <- (percent_full T HT). by apply percent_le.
Qed.

Lemma reportsOfRun_monotone T steps finished a b x y :
  steps <= T -> a <= b ->
  reportsOfRun T steps finished !! a = Some x ->
  reportsOfRun T steps finished !! b = Some y ->
  (x <= y)%Q.
Proof.
  intros HT Hab Hx Hy.
  apply reportsOfRun_lookup in Hx as [[-> ->]|[[Ha ->]|(-> & _ & ->)]];
    apply reportsOfRun_lookup in Hy as [[-> ->]|[[Hb ->]|(-> & _ & ->)]];
    try lia; try done.
  - apply percent_nonneg. lia.
  - apply percent_le; lia.
  - apply percent_le_full; lia.
Qed.

Lemma reportsOfRun_full T steps finished a x :
  steps <= T -> (finished = true -> steps = T) ->
  reportsOfRun T steps finished !! a = Some x -> (x == 100)%Q ->
  steps = T /\ T <= a.
Proof.
  intros HT Hfin Hx H100.
  apply reportsOfRun_lookup in Hx as [[-> ->]|[[Ha ->]|(-> & Hf & ->)]].
  - done.
  - destruct (decide (a < T)) as [Hlt|Hge]; [|lia].
    apply percent_lt_full in Hlt. rewrite H100 in Hlt.
    by apply Qlt_irrefl in Hlt.
  - specialize (Hfin Hf). lia.
Qed.

Lemma allContentOk_spec calls : forall n i,
  allContentOk calls i n = true <->
  forall j, i <= j < i + n -> contentOk (calls j) = true.
Proof.
  induction n as [|n IH]; intros i; cbn [allContentOk].
  - split; [intros _ j Hj; lia|done].
  - rewrite andb_true_iff, IH. split.
    + intros [Hi Hrest] j Hj. destruct (decide (j = i)) as [->|]; [done|].
      apply Hrest. lia.
    + intros H. split; [apply H; lia|]. intros j Hj. apply H. lia.
Qed.

Lemma stepsCounted_le calls : forall n i, stepsCounted calls i n <= 2 * n.
Proof.
  induction n as [|n IH]; intros i; cbn [stepsCounted]; [lia|].
  destruct (contentCall (calls i)); [lia|lia|]. specialize (IH (S i)). lia.
Qed.

Lemma stepsCounted_full calls : forall n i,
  allContentOk calls i n = true <-> stepsCounted calls i n = 2 * n.
Proof.
  induction n as [|n IH]; intros i; cbn [stepsCounted allContentOk]; [done|].
  unfold contentOk. pose proof (stepsCounted_le calls n (S i)).
  destruct (contentCall (calls i)); cbn [andb]; [split; [done|lia]..|].
  rewrite IH. lia.
Qed.

(** The reports of the loop are those of the steps it counts, and it
    runs to its end exactly when every content call produced content. *)
Lemma generateSlides_reports calls T pts : forall i c st,
  refsValid st -> i + length pts <= length (slides st) ->
  match generateSlides calls T i pts c st with
  | Completed _ st' =>
      allContentOk calls i (length pts) = true /\
      progressReports st' =
        progressReports st
          ++ List.map (fun n => percent n T)
               (seq (c + 1) (stepsCounted calls i (length pts)))
  | Thrown st' =>
      allContentOk calls i (length pts) = false /\
      progressReports st' =
        progressReports st
          ++ List.map (fun n => percent n T)
               (seq (c + 1) (stepsCounted calls i (length pts)))
  | IllTyped => False
  end.
Proof.
  induction pts as [|t pts IH]; intros i c st Hv Hlen;
    cbn [generateSlides length stepsCounted allContentOk] in *.
  - by rewrite app_nil_r.
  - destruct (refsValid_deref st i Hv) as [s Hs]; [lia|].
    pose proof (generateSlide_spec calls T i t c st s Hv Hs) as Hone.
    destruct (generateSlide calls T i t c st) as [c1 st1| st1 |] eqn:Hg; [| |done].
    + destruct Hone as (Hok & -> & Hrep & Hv1 & Hl1 & _).
      specialize (IH (S i) (c + 2) st1 Hv1). rewrite Hl1 in IH.
      specialize (IH ltac:(lia)). rewrite Hok. cbn [andb].
      unfold contentOk in Hok.
      destruct (contentCall (calls i)) as [| |content ip ch]; try done.
      assert (forall n,
        progressReports st ++ [percent (c + 1) T; percent (c + 2) T]
          ++ List.map (fun n => percent n T) (seq (c + 2 + 1) n)
        = progressReports st
          ++ List.map (fun n => percent n T) (seq (c + 1) (2 + n))) as Hseq.
      { intros n. cbn [seq List.map Nat.add].
        replace (c + 2 + 1) with (S (S (c + 1))) by lia.
        by replace (c + 2) with (S (c + 1)) by lia. }
      destruct (generateSlides calls T (S i) pts (c + 2) st1) as [c2 st2|st2|];
        [| |done]; destruct IH as [Hall Hrep2]; (split; [done|]);
        by rewrite Hrep2, Hrep, <- app_assoc, Hseq.
    + destruct Hone as (Hbad & _). rewrite Hbad. cbn [andb]. split; [done|].
      unfold generateSlide in Hg. unfold contentOk in Hbad.
      destruct (contentCall (calls i)) as [| |content ip ch]; try done.
      * injection Hg as <-. by rewrite app_nil_r.
      * injection Hg as <-. cbn [seq List.map]. by cbn.
Qed.

(** C6. A run of the slide generation over an outline of [k] points has
    [2 * k] progress units. An iteration whose content arrives counts
    two steps and reports after each, whether a chart is adopted (the
    visual step is then counted at once) or an image is requested, and
    whether that request succeeds or fails. The run reports 0, then
    the percentage after every step counted, then 100 if every content
    call produced content, in which case all [2 * k] steps were counted
    and the run ends on the presentation screen. The reported sequence
    never decreases, and a report of 100 occurs only in position
    [2 * k] or later, that is, once all [2 * k] steps, the last of which
    is the visual step of the last slide, have been counted. *)
Theorem progress_accounting calls st sel o :
  selectedOutlineIndex st = Some sel -> outlines st !! sel = Some o ->
  let k := length (points o) in
  let steps := stepsCounted calls 0 k in
  let finished := allContentOk calls 0 k in
  let reports := reportsOfRun (2 * k) steps finished in
  totalStepsOf o = 2 * k /\
  (forall T i t c s content prompt chart,
     refsValid s -> i < length (slides s) ->
     contentCall (calls i) = ContentOk content prompt chart ->
     exists s',
       generateSlide calls T i t c s = Completed (c + 2) s' /\
       progressReports s'
         = progressReports s ++ [percent (c + 1) T; percent (c + 2) T]) /\
  (exists st',
     handleGenerateSlidesFromOutline calls st = Some st' /\
     progressReports st' = progressReports st ++ reports /\
     (appStep st' = StepPresentation <-> finished = true)) /\
  (finished = true <-> forall j, j < k -> contentOk (calls j) = true) /\
  (finished = true <-> steps = 2 * k) /\
  steps <= 2 * k /\
  (finished = true -> last reports = Some 100%Q) /\
  (forall a b x y, a <= b -> reports !! a = Some x -> reports !! b = Some y ->
     (x <= y)%Q) /\
  (forall a x, reports !! a = Some x -> (x == 100)%Q ->
     finished = true /\ steps = 2 * k /\ 2 * k <= a).
Proof.
  intros Hsel Ho k steps finished reports.
  assert (totalStepsOf o = 2 * k) as HT by (unfold totalStepsOf; fold k; lia).
  pose proof (stepsCounted_le calls k 0) as Hle. fold steps in Hle.
  pose proof (stepsCounted_full calls k 0) as Hfull. fold steps finished in Hfull.
  split; [done|]. split.
  { intros T i t c s content prompt chart Hv Hi Hc.
    destruct (refsValid_deref s i Hv Hi) as [x Hx].
    pose proof (generateSlide_spec calls T i t c s x Hv Hx) as Hone.
    unfold contentOk in Hone. rewrite Hc in Hone.
    destruct (generateSlide calls T i t c s) as [c1 s1|s1|]; [| |done].
    - destruct Hone as (_ & -> & Hrep & _). by exists s1.
    - by destruct Hone. }
  split.
  { unfold handleGenerateSlidesFromOutline. rewrite Hsel, Ho. cbv zeta.
    set (st2 := setSlides (seq _ _) (setHeap _ _)).
    assert (refsValid st2) as Hv by apply placeholders_valid.
    assert (0 + length (points o) <= length (slides st2)) as Hfit
      by (subst st2; simpl; rewrite length_seq, length_map; lia).
    pose proof (generateSlides_reports calls (totalStepsOf o) (points o) 0 0 st2 Hv Hfit)
      as Hloop.
    fold k steps finished in Hloop. rewrite HT in *.
    destruct (generateSlides calls (2 * k) 0 (points o) 0 st2)
      as [c3 st3|st3|]; [| |done]; destruct Hloop as [Hall Hrep];
      eexists; (split; [reflexivity|]); rewrite Hall.
    - split; [|done]. cbn. rewrite Hrep. subst st2 reports. cbn.
      unfold reportsOfRun. rewrite Hall. by rewrite <- !app_assoc.
    - split; [|done]. cbn. rewrite Hrep. subst st2 reports. cbn.
      unfold reportsOfRun. rewrite Hall. by rewrite <- !app_assoc, app_nil_r. }
  split.
  { unfold finished. rewrite allContentOk_spec. split; intros H j Hj; apply H; lia. }
  split; [done|]. split; [done|]. split.
  { intros Hf. subst reports. rewrite Hf. unfold reportsOfRun.
    rewrite app_comm_cons. apply last_snoc. }
  split.
  { intros a b x y. by apply reportsOfRun_monotone. }
  intros a x Hx H100.
  destruct (reportsOfRun_full (2 * k) steps finished a x Hle (proj1 Hfull) Hx H100)
    as [Hs Ha].
  split; [by apply Hfull|done].
Qed.

Lemma progress_accounting_witness :
  stepsCounted sampleCalls 0 3 = 6 /\ allContentOk sampleCalls 0 3 = true /\
  (exists st',
     handleGenerateSlidesFromOutline sampleCalls outlineState = Some st' /\
     progressReports st'
       = [0%Q; percent 1 6; percent 2 6; percent 3 6; percent 4 6; percent 5 6;
          percent 6 6; 100%Q] /\
     appStep st' = StepPresentation) /\
  (exists s',
     generateSlide sampleCalls 6 1 "Costs" 2
       (deckOf [placeholderSlide "Market"; placeholderSlide "Costs"])
       = Completed 4 s' /\
     progressReports s' = [percent 3 6; percent 4 6]) /\
  stepsCounted failingCalls 0 3 = 2 /\ allContentOk failingCalls 0 3 = false.
Proof.
  destruct (progress_accounting sampleCalls outlineState 0
              {| outline_title := "Problem and solution";
                 points := ["Market"; "Costs"; "Outlook"] |}
              eq_refl eq_refl)
    as (_ & Hone & (st' & Hrun & Hrep & Hfin) & _).
  split; [reflexivity|]. split; [reflexivity|]. split.
  { exists st'. split; [exact Hrun|]. split; [exact Hrep|].
    apply Hfin. reflexivity. }
  split; [|split; reflexivity].
  apply (Hone 6 1 "Costs" 2
           (deckOf [placeholderSlide "Market"; placeholderSlide "Costs"])
           ["c"; "d"] "coins" None).
  - repeat constructor.
  - cbn. lia.
  - reflexivity.
Defined.

(** *** Failures *)

(** C7. When every content call of a run succeeds, the run ends on the
    presentation screen with one slide per point, each as its own calls
    left it: in particular a slide whose image call failed carries the
    failed sentinel with its content in place, and the slides after it
    are generated all the same. When a content call fails, the run ends
    on the outline screen (the screen it was started from) with the error
    message; when the outline request fails, the application is back on
    the prompt screen with the error message. *)
Theorem visual_failure_is_local :
  (forall calls st sel o,
     selectedOutlineIndex st = Some sel -> outlines st !! sel = Some o ->
     (forall j, j < length (points o) -> contentOk (calls j) = true) ->
     exists st',
       handleGenerateSlidesFromOutline calls st = Some st' /\
       appStep st' = StepPresentation /\
       length (slides st') = length (points o) /\
       (forall j t, points o !! j = Some t ->
          derefSlide st' (slides st') j
            = Some (generatedSlide (calls j) (placeholderSlide t))) /\
       (forall j t content prompt,
          points o !! j = Some t ->
          contentCall (calls j) = ContentOk content prompt None ->
          imageCall (calls j) = ImageRejected ->
          derefSlide st' (slides st') j
            = Some (withImageUrl (Some "error")
                      (withImagePrompt prompt
                         (withContent content (placeholderSlide t)))))) /\
  (forall calls st sel o j,
     selectedOutlineIndex st = Some sel -> outlines st !! sel = Some o ->
     j < length (points o) -> contentOk (calls j) = false ->
     exists st',
       handleGenerateSlidesFromOutline calls st = Some st' /\
       appStep st' = StepOutline /\
       progressText st' = "An error occurred. Please try again.") /\
  (forall call st,
     trim (topic st) <> "" -> (forall o, call <> OutlinesOk o) ->
     appStep (handleGenerateOutlines call st) = StepPrompt /\
     progressText (handleGenerateOutlines call st)
       = "An error occurred. Please try again.").
Proof.
  split; [|split].
  - intros calls st sel o Hsel Ho Hall.
    destruct (handleGenerateSlidesFromOutline_spec calls st sel o Hsel Ho)
      as (st' & steps & finished & Hrun & _ & Hfin & Hab).
    destruct finished.
    + destruct Hfin as (_ & Hstep & _ & Hlen & Hd); [done|].
      exists st'. split; [done|]. split; [done|]. split; [done|].
      split; [done|].
      intros j t content prompt Hj Hc Hi. rewrite (Hd j t Hj).
      unfold generatedSlide. by rewrite Hc, Hi.
    + destruct Hab as (_ & _ & _ & j & Hj & Hbad); [done|].
      rewrite Hall in Hbad by done. done.
  - intros calls st sel o j Hsel Ho Hj Hbad.
    destruct (handleGenerateSlidesFromOutline_spec calls st sel o Hsel Ho)
      as (st' & steps & finished & Hrun & _ & Hfin & Hab).
    destruct finished.
    + destruct Hfin as (_ & _ & Hall & _); [done|].
      rewrite Hall in Hbad by done. done.
    + destruct Hab as (_ & Hstep & Htext & _); [done|]. by exists st'.
  - intros call st Htopic Hcall. unfold handleGenerateOutlines.
    destruct (String.eqb_spec (trim (topic st)) ""); [done|].
    destruct call as [| |o]; [done|done|]. by destruct (Hcall o).
Qed.

Lemma visual_failure_is_local_witness :
  (exists st',
     handleGenerateSlidesFromOutline sampleCalls outlineState = Some st' /\
     appStep st' = StepPresentation /\
     length (slides st') = 3 /\
     derefSlide st' (slides st') 1
       = Some (withImageUrl (Some "error")
                 (withImagePrompt "coins"
                    (withContent ["c"; "d"] (placeholderSlide "Costs")))) /\
     derefSlide st' (slides st') 2
       = Some (generatedSlide (sampleCalls 2) (placeholderSlide "Outlook"))) /\
  (exists st',
     handleGenerateSlidesFromOutline failingCalls outlineState = Some st' /\
     appStep st' = StepOutline /\
     progressText st' = "An error occurred. Please try again.") /\
  appStep (handleGenerateOutlines OutlinesRejected
             (setTopic "Renewable Energy" initialApp)) = StepPrompt.
Proof.
  destruct visual_failure_is_local as (Hlocal & Hcontent & Houtline).
  split; [|split].
  - destruct (Hlocal sampleCalls outlineState 0
                {| outline_title := "Problem and solution";
                   points := ["Market"; "Costs"; "Outlook"] |} eq_refl eq_refl)
      as (st' & Hrun & Hstep & Hlen & Hall & Herr).
    { intros [|[|[|j]]] Hj; reflexivity. }
    exists st'. split; [exact Hrun|]. split; [exact Hstep|].
    split; [exact Hlen|]. split.
    + apply (Herr 1 "Costs" ["c"; "d"] "coins"); reflexivity.
    + apply (Hall 2 "Outlook"). reflexivity.
  - apply (Hcontent failingCalls outlineState 0
             {| outline_title := "Problem and solution";
                points := ["Market"; "Costs"; "Outlook"] |} 1);
      [reflexivity | reflexivity | simpl; lia | reflexivity].
  - apply (Houtline OutlinesRejected (setTopic "Renewable Energy" initialApp)).
    + discriminate.
    + discriminate.
Defined.

(** ** Visual exclusivity during slide generation *)




(** ** Base64 *)

Lemma string_ind3 (P : string -> Prop) :
  P EmptyString ->
  (forall a, P (String a EmptyString)) ->
  (forall a b, P (String a (String b EmptyString))) ->
  (forall a b c s, P s -> P (String a (String b (String c s)))) ->
  forall s, P s.
Proof.
  intros H0 H1 H2 H3.
  assert (forall s, P s /\ (forall a, P (String a s))
                    /\ (forall a b, P (String a (String b s)))) as H.
  { induction s as [|c s (IH0 & IH1 & IH2)]; [by repeat split|].
    split; [apply IH1|]. split; [intros a; apply IH2|].
    intros a b. by apply H3. }
  intros s. apply H.
Qed.

Lemma sextetChar_spec n :
  n < 64 ->
  sextetOf (sextetChar n) = Some n /\
  isAsciiWhitespace (sextetChar n) = false /\
  Ascii.eqb (sextetChar n) PAD = false.
Proof.
  intros Hn.
  do 64 (destruct n as [|n]; [by repeat split|]). lia.
Qed.

Lemma byte_parts a :
  let x := nat_of_ascii a in
  x / 4 < 64 /\ x mod 4 < 4 /\ x = x / 4 * 4 + x mod 4 /\
  x / 16 < 16 /\ x mod 16 < 16 /\ x = x / 16 * 16 + x mod 16 /\
  x / 64 < 4 /\ x mod 64 < 64 /\ x = x / 64 * 64 + x mod 64.
Proof.
  intros x. assert (x < 256) as Hx by apply nat_ascii_bounded.
  pose proof (Nat.div_mod_eq x 4). pose proof (Nat.div_mod_eq x 16).
  pose proof (Nat.div_mod_eq x 64).
  pose proof (Nat.mod_upper_bound x 4). pose proof (Nat.mod_upper_bound x 16).
  pose proof (Nat.mod_upper_bound x 64).
  repeat split; lia.
Qed.

Lemma div_combine a b m : b < m -> (a * m + b) / m = a.
Proof.
  intros Hb. rewrite Nat.div_add_l by lia. rewrite Nat.div_small by done. lia.
Qed.

Lemma mod_combine a b m : b < m -> (a * m + b) mod m = b.
Proof.
  intros Hb. rewrite Nat.add_comm, Nat.Div0.mod_add. by apply Nat.mod_small.
Qed.

Lemma div_exact a m : 0 < m -> a * m / m = a.
Proof. intros Hm. apply Nat.div_mul. lia. Qed.

Lemma removeWhitespace_btoa s : removeWhitespace (btoa s) = btoa s.
Proof.
  induction s as [|a|a b|a b c s IH] using string_ind3; [done| | |].
  - pose proof (byte_parts a) as Ha. cbv zeta in Ha. cbn [btoa removeWhitespace].
    destruct (sextetChar_spec (nat_of_ascii a / 4)) as (_ & -> & _); [lia|].
    destruct (sextetChar_spec (nat_of_ascii a mod 4 * 16)) as (_ & -> & _); [lia|].
    done.
  - pose proof (byte_parts a) as Ha. pose proof (byte_parts b) as Hb.
    cbv zeta in Ha, Hb.
    cbn [btoa removeWhitespace].
    destruct (sextetChar_spec (nat_of_ascii a / 4)) as (_ & -> & _); [lia|].
    destruct (sextetChar_spec (nat_of_ascii a mod 4 * 16 + nat_of_ascii b / 16))
      as (_ & -> & _); [lia|].
    destruct (sextetChar_spec (nat_of_ascii b mod 16 * 4)) as (_ & -> & _); [lia|].
    done.
  - pose proof (byte_parts a) as Ha. pose proof (byte_parts b) as Hb.
    pose proof (byte_parts c) as Hc. cbv zeta in Ha, Hb, Hc.
    cbn [btoa removeWhitespace].
    destruct (sextetChar_spec (nat_of_ascii a / 4)) as (_ & -> & _); [lia|].
    destruct (sextetChar_spec (nat_of_ascii a mod 4 * 16 + nat_of_ascii b / 16))
      as (_ & -> & _); [lia|].
    destruct (sextetChar_spec (nat_of_ascii b mod 16 * 4 + nat_of_ascii c / 64))
      as (_ & -> & _); [lia|].
    destruct (sextetChar_spec (nat_of_ascii c mod 64)) as (_ & -> & _); [lia|].
    by rewrite IH.
Qed.

Lemma length_btoa s : String.length (btoa s) mod 4 = 0.
Proof.
  induction s as [|a|a b|a b c s IH] using string_ind3; try done.
  cbn [btoa String.length].
  replace (S (S (S (S (String.length (btoa s))))))
    with (String.length (btoa s) + 1 * 4) by lia.
  by rewrite Nat.Div0.mod_add.
Qed.

Lemma stripPadding_cons c s :
  Ascii.eqb c PAD = false -> stripPadding (String c s) = String c (stripPadding s).
Proof. intros Hc. cbn [stripPadding]. by rewrite Hc. Qed.

Lemma sextetsOf_cons c s n l :
  sextetOf c = Some n -> sextetsOf s = Some l ->
  sextetsOf (String c s) = Some (n :: l).
Proof. intros Hc Hs. cbn [sextetsOf]. by rewrite Hc, Hs. Qed.

Lemma mod4_step n : S (S (S (S n))) mod 4 = n mod 4.
Proof.
  replace (S (S (S (S n)))) with (n + 1 * 4) by lia. apply Nat.Div0.mod_add.
Qed.

Lemma decode_btoa s :
  exists l,
    sextetsOf (stripPadding (btoa s)) = Some l /\
    decodeSextets l = s /\
    String.length (stripPadding (btoa s)) mod 4 <> 1.
Proof.
  induction s as [|a|a b|a b c s (l & Hl & Hdec & Hlen)] using string_ind3.
  - by exists [].
  - pose proof (byte_parts a) as Ha. cbv zeta in Ha.
    exists [nat_of_ascii a / 4; nat_of_ascii a mod 4 * 16].
    cbn [btoa].
    destruct (sextetChar_spec (nat_of_ascii a / 4)) as (Hs1 & _ & Hp1); [lia|].
    destruct (sextetChar_spec (nat_of_ascii a mod 4 * 16)) as (Hs2 & _ & Hp2); [lia|].
    rewrite !stripPadding_cons by done.
    change (stripPadding (String PAD (String PAD EmptyString))) with EmptyString.
    split; [|split].
    + by rewrite (sextetsOf_cons _ _ _ [nat_of_ascii a mod 4 * 16] Hs1)
        by (by apply (sextetsOf_cons _ _ _ [] Hs2)).
    + cbn [decodeSextets]. rewrite div_exact by lia.
      replace (nat_of_ascii a / 4 * 4 + nat_of_ascii a mod 4)
        with (nat_of_ascii a) by lia.
      by rewrite ascii_nat_embedding.
    + done.
  - pose proof (byte_parts a) as Ha. pose proof (byte_parts b) as Hb.
    cbv zeta in Ha, Hb.
    exists [nat_of_ascii a / 4; nat_of_ascii a mod 4 * 16 + nat_of_ascii b / 16;
            nat_of_ascii b mod 16 * 4].
    cbn [btoa].
    destruct (sextetChar_spec (nat_of_ascii a / 4)) as (Hs1 & _ & Hp1); [lia|].
    destruct (sextetChar_spec (nat_of_ascii a mod 4 * 16 + nat_of_ascii b / 16))
      as (Hs2 & _ & Hp2); [lia|].
    destruct (sextetChar_spec (nat_of_ascii b mod 16 * 4)) as (Hs3 & _ & Hp3); [lia|].
    rewrite !stripPadding_cons by done.
    change (stripPadding (String PAD EmptyString)) with EmptyString.
    split; [|split].
    + apply sextetsOf_cons; [done|]. apply sextetsOf_cons; [done|].
      by apply sextetsOf_cons.
    + cbn [decodeSextets].
      rewrite div_combine, mod_combine, div_exact by lia.
      replace (nat_of_ascii a / 4 * 4 + nat_of_ascii a mod 4)
        with (nat_of_ascii a) by lia.
      replace (nat_of_ascii b / 16 * 16 + nat_of_ascii b mod 16)
        with (nat_of_ascii b) by lia.
      by rewrite !ascii_nat_embedding.
    + done.
  - pose proof (byte_parts a) as Ha. pose proof (byte_parts b) as Hb.
    pose proof (byte_parts c) as Hc. cbv zeta in Ha, Hb, Hc.
    exists (nat_of_ascii a / 4 :: nat_of_ascii a mod 4 * 16 + nat_of_ascii b / 16
            :: nat_of_ascii b mod 16 * 4 + nat_of_ascii c / 64
            :: nat_of_ascii c mod 64 :: l).
    cbn [btoa].
    destruct (sextetChar_spec (nat_of_ascii a / 4)) as (Hs1 & _ & Hp1); [lia|].
    destruct (sextetChar_spec (nat_of_ascii a mod 4 * 16 + nat_of_ascii b / 16))
      as (Hs2 & _ & Hp2); [lia|].
    destruct (sextetChar_spec (nat_of_ascii b mod 16 * 4 + nat_of_ascii c / 64))
      as (Hs3 & _ & Hp3); [lia|].
    destruct (sextetChar_spec (nat_of_ascii c mod 64)) as (Hs4 & _ & Hp4); [lia|].
    rewrite !stripPadding_cons by done.
    split; [|split].
    + by repeat (apply sextetsOf_cons; [done|]).
    + cbn [decodeSextets]. rewrite Hdec.
      rewrite !div_combine, !mod_combine by lia.
      replace (nat_of_ascii a / 4 * 4 + nat_of_ascii a mod 4)
        with (nat_of_ascii a) by lia.
      replace (nat_of_ascii b / 16 * 16 + nat_of_ascii b mod 16)
        with (nat_of_ascii b) by lia.
      replace (nat_of_ascii c / 64 * 64 + nat_of_ascii c mod 64)
        with (nat_of_ascii c) by lia.
      by rewrite !ascii_nat_embedding.
    + cbn [String.length]. by rewrite mod4_step.
Qed.

(** [atob] inverts [btoa]. *)
Lemma atob_btoa s : atob (btoa s) = Some s.
Proof.
  unfold atob. rewrite removeWhitespace_btoa, length_btoa. cbn [Nat.eqb].
  destruct (decode_btoa s) as (l & Hl & Hdec & Hlen).
  destruct (Nat.eqb_spec (String.length (stripPadding (btoa s)) mod 4) 1);
    [done|].
  by rewrite Hl, Hdec.
Qed.

(** ** JSON: parsing what was written *)

Lemma string_app_cons x (a b : string) :
  (String x a ++ b)%string = String x (a ++ b).
Proof. reflexivity. Qed.

Lemma string_app_nil (b : string) : (EmptyString ++ b)%string = b.
Proof. reflexivity. Qed.

Lemma string_app_assoc (a b c : string) : ((a ++ b) ++ c = a ++ (b ++ c))%string.
Proof.
  induction a as [|x a IH]; [done|]. rewrite !string_app_cons. by f_equal.
Qed.

Lemma string_length_app (a b : string) :
  String.length (a ++ b) = String.length a + String.length b.
Proof.
  induction a as [|x a IH]; [done|].
  rewrite string_app_cons. cbn [String.length]. by rewrite IH.
Qed.

(** *** Strings *)

Lemma parseChars_escapeChar c t :
  parseChars (escapeChar c ++ t) =
    match parseChars t with
    | Some (str, r) => Some (N_of_ascii c :: str, r)
    | None => None
    end.
Proof. destruct c as [[] [] [] [] [] [] [] []]; reflexivity. Qed.

Lemma parseChars_escapeString s rest :
  parseChars (escapeString s ++ String DQUOTE rest) = Some (wide s, rest).
Proof.
  induction s as [|c s IH]; [reflexivity|].
  cbn [escapeString wide].
  by rewrite string_app_assoc, parseChars_escapeChar, IH.
Qed.

Lemma narrow_wide s : narrow (wide s) = Some s.
Proof.
  induction s as [|c s IH]; [done|]. cbn [wide narrow]. rewrite IH.
  assert (N_of_ascii c < 256)%N as Hc by apply N_ascii_bounded.
  apply N.ltb_lt in Hc. by rewrite Hc, ascii_N_embedding.
Qed.

Lemma sameUnits_wide a b : sameUnits (wide a) (wide b) = String.eqb a b.
Proof.
  revert b. induction a as [|x a IH]; intros [|y b]; try done.
  cbn [wide sameUnits String.eqb]. rewrite IH.
  destruct (Ascii.eqb_spec x y) as [->|Hne].
  - by rewrite N.eqb_refl.
  - destruct (N.eqb_spec (N_of_ascii x) (N_of_ascii y)) as [He|]; [|done].
    apply (f_equal ascii_of_N) in He. by rewrite !ascii_N_embedding in He.
Qed.

Lemma parseChars_quoteString s rest :
  exists t, (quoteString s ++ rest)%string = String DQUOTE t /\
            parseChars t = Some (wide s, rest).
Proof.
  exists (escapeString s ++ String DQUOTE rest)%string. split.
  - unfold quoteString. rewrite string_app_cons. f_equal.
    apply string_app_assoc.
  - apply parseChars_escapeString.
Qed.

Lemma escapeChar_length c : 1 <= String.length (escapeChar c).
Proof. destruct c as [[] [] [] [] [] [] [] []]; cbv; lia. Qed.

(** *** Numbers *)

Lemma nzhead_head d :
  match Decimal.nzhead d with Decimal.D0 _ => False | _ => True end.
Proof. induction d; simpl; done. Qed.

Lemma to_uint_canonical n : canonical (N.to_uint n) = true.
Proof.
  pose proof (DecimalN.Unsigned.to_of (N.to_uint n)) as H.
  rewrite DecimalN.Unsigned.of_to in H.
  generalize dependent (N.to_uint n). intros d Hd.
  unfold Decimal.unorm in Hd. pose proof (nzhead_head d) as Hh.
  destruct (Decimal.nzhead d) eqn:Hnz; try done; rewrite Hd in Hnz |- *;
    done.
Qed.

Lemma delimited_no_digit rest : delimited rest = true -> startsWithDigit rest = false.
Proof.
  destruct rest as [|c r]; [done|]. unfold delimited, startsWithDigit.
  by destruct (isDigit c).
Qed.

Lemma spanDigits_uint d rest :
  startsWithDigit rest = false ->
  spanDigits (NilEmpty.string_of_uint d ++ rest) = (NilEmpty.string_of_uint d, rest).
Proof.
  intros Hrest. induction d; cbn [NilEmpty.string_of_uint];
    rewrite ?string_app_cons; cbn [spanDigits];
    try (change (isDigit _) with true; cbv iota; by rewrite IHd).
  rewrite string_app_nil. destruct rest as [|c r]; [done|].
  cbn [spanDigits]. unfold startsWithDigit in Hrest. by rewrite Hrest.
Qed.

Lemma printN_spec n rest :
  startsWithDigit rest = false ->
  spanDigits (printN n ++ rest) = (printN n, rest) /\
  String.eqb (printN n) EmptyString = false /\
  (1 <? String.length (printN n)) && String.prefix "0" (printN n) = false /\
  parseDigits (printN n) = Some n /\
  exists c t, printN n = String c t /\ isDigit c = true.
Proof.
  intros Hrest. unfold printN, parseDigits.
  rewrite NilEmpty.usu, DecimalN.Unsigned.of_to.
  split; [by apply spanDigits_uint|].
  pose proof (to_uint_canonical n) as Hc.
  destruct (N.to_uint n) as [|u|u|u|u|u|u|u|u|u|u]; try done;
    cbn [NilEmpty.string_of_uint];
    try (split; [done|]; split; [apply andb_false_r|]; split; [done|]; by eauto).
  destruct u; try done. split; [done|]. split; [done|]. split; [done|]. by eauto.
Qed.

Lemma string_app_nil_r (s : string) : (s ++ EmptyString)%string = s.
Proof. induction s as [|c s IH]; [done|]. rewrite string_app_cons. by f_equal. Qed.

Lemma digit_not_sign c :
  isDigit c = true ->
  Ascii.eqb c (ascii_of_nat 45) = false /\ Ascii.eqb c (ascii_of_nat 43) = false.
Proof. destruct c as [[] [] [] [] [] [] [] []]; by cbv. Qed.

Lemma takeSign_printZ plusToo z T :
  takeSign plusToo (printZ z ++ T) = ((z <? 0)%Z, (printN (Z.abs_N z) ++ T)%string).
Proof.
  destruct z as [|p|p]; cbn [printZ Z.abs_N Z.ltb Z.compare].
  - by destruct plusToo.
  - destruct (printN_spec (Npos p) EmptyString eq_refl)
      as (_ & _ & _ & _ & c & t & -> & Hc).
    destruct (digit_not_sign c Hc) as [Hm Hp].
    rewrite string_app_cons. cbn [takeSign]. rewrite Hm, Hp.
    by rewrite andb_false_r.
  - by rewrite string_app_cons.
Qed.

Lemma signed_abs z : signed (z <? 0)%Z (Z.abs_N z) = z.
Proof. destruct z; cbn; lia. Qed.

Lemma parseExponent_printed e rest :
  delimited rest = true ->
  parseExponent ((if (e =? 0)%Z then EmptyString else "e" ++ printZ e) ++ rest)
    = Some (e, rest).
Proof.
  intros Hrest. destruct (Z.eqb_spec e 0) as [->|He].
  - rewrite string_app_nil. destruct rest as [|c r]; [done|].
    cbn [parseExponent]. unfold delimited in Hrest.
    apply negb_true_iff in Hrest.
    apply orb_false_iff in Hrest as [Hrest HE].
    apply orb_false_iff in Hrest as [_ He].
    by rewrite He, HE.
  - rewrite string_app_assoc, string_app_cons, string_app_nil.
    cbn [parseExponent]. change (Ascii.eqb "e" (ascii_of_nat 101)) with true.
    cbn [orb]. rewrite takeSign_printZ.
    destruct (printN_spec (Z.abs_N e) rest (delimited_no_digit _ Hrest))
      as (-> & Hne & _ & -> & _).
    rewrite Hne. by rewrite signed_abs.
Qed.

Lemma parseFraction_none T :
  match T with
  | String c _ => Ascii.eqb c (ascii_of_nat 46) = false
  | EmptyString => True
  end ->
  parseFraction T = Some (EmptyString, T).
Proof. destruct T as [|c r]; [done|]. intros H. cbn [parseFraction]. by rewrite H. Qed.

Lemma roundNumber_idem n : roundNumber (roundNumber n) = roundNumber n.
Proof.
  destruct n as [m e|b]; [|done]. cbn [roundNumber].
  destruct (underflows m e) eqn:Hu; [done|].
  destruct (overflows m e) eqn:Ho; [done|].
  cbn [roundNumber]. by rewrite Hu, Ho.
Qed.


(** The decimal is read back from its text, as the number it stands
    for, when what follows does not continue it. *)
Lemma parseNumber_printDecimal m e rest :
  delimited rest = true ->
  parseNumber (printDecimal m e ++ rest) = Some (roundNumber (Number m e), rest).
Proof.
  intros Hrest. unfold printDecimal, parseNumber.
  rewrite string_app_assoc, takeSign_printZ.
  set (T := ((if (e =? 0)%Z then EmptyString else "e" ++ printZ e) ++ rest)%string).
  assert (startsWithDigit T = false /\
          match T with
          | String c _ => Ascii.eqb c (ascii_of_nat 46) = false
          | EmptyString => True
          end) as [HT1 HT2].
  { subst T. destruct (Z.eqb_spec e 0).
    - rewrite string_app_nil. split; [by apply delimited_no_digit|].
      destruct rest as [|c r]; [done|]. unfold delimited in Hrest.
      apply negb_true_iff in Hrest.
      apply orb_false_iff in Hrest as [Hrest _].
      apply orb_false_iff in Hrest as [Hrest _].
      by apply orb_false_iff in Hrest as [_ Hrest].
    - by rewrite string_app_assoc, string_app_cons. }
  destruct (printN_spec (Z.abs_N m) T HT1) as (-> & Hne & Hlead & Hdig & _).
  rewrite Hne, Hlead, (parseFraction_none T HT2).
  subst T. rewrite (parseExponent_printed e rest Hrest).
  rewrite string_app_nil_r, Hdig. cbn [String.length].
  by rewrite signed_abs, Z.sub_0_r.
Qed.

(** *** Values *)

Lemma json_nested_ind {S} (P : json S -> Prop) :
  P JNull -> (forall b, P (JBool b)) -> (forall n, P (JNum n)) ->
  (forall s, P (JStr s)) ->
  (forall items, Forall P items -> P (JArr items)) ->
  (forall members, Forall (fun kv => P (snd kv)) members -> P (JObj members)) ->
  forall j, P j.
Proof.
  intros HN HB Hnum HS HA HO. fix IH 1. intros [|b|n|s|items|members].
  - exact HN.
  - apply HB.
  - apply Hnum.
  - apply HS.
  - apply HA. induction items as [|x l IHl]; constructor; [apply IH|exact IHl].
  - apply HO. induction members as [|[k v] l IHl]; constructor;
      [apply IH|exact IHl].
Qed.

Lemma startsValue_not_space c :
  startsValue c = true ->
  isJsonWhitespace c = false /\
  Ascii.eqb c (ascii_of_nat 93) = false /\
  Ascii.eqb c (ascii_of_nat 125) = false.
Proof. destruct c as [[] [] [] [] [] [] [] []]; cbv; intros; done. Qed.

Lemma parseValue_number c t fuel :
  isDigit c = true \/ c = ascii_of_nat 45 ->
  parseValue (S fuel) (String c t) =
    match parseNumber (String c t) with
    | Some (n, r) => Some (JNum n, r)
    | None => None
    end.
Proof.
  destruct c as [[] [] [] [] [] [] [] []]; intros [H|H];
    try discriminate H; reflexivity.
Qed.

Lemma printDecimal_head m e :
  exists c t, printDecimal m e = String c t /\ (isDigit c = true \/ c = ascii_of_nat 45).
Proof.
  unfold printDecimal.
  destruct m as [|p|p]; cbn [printZ].
  - eexists _, _. split; [by rewrite string_app_cons|]. by left.
  - destruct (printN_spec (Npos p) EmptyString eq_refl)
      as (_ & _ & _ & _ & c & t & -> & Hc).
    eexists _, _. split; [by rewrite string_app_cons|]. by left.
  - eexists _, _. split; [by rewrite !string_app_cons|]. by right.
Qed.

Lemma stringify_head j :
  exists c t, stringify j = String c t /\ startsValue c = true.
Proof.
  destruct j as [|[]|n|s|items|members]; try (by eexists _, _).
  cbn [stringify]. unfold printNumber.
  destruct (roundNumber n) as [m e|b]; [|by eexists _, _].
  destruct (printDecimal_head m e) as (c & t & Hn & Hc).
  exists c, t. split; [done|].
  destruct Hc as [Hc| ->]; [|done]. unfold startsValue. by rewrite Hc.
Qed.

Lemma joinComma_cons2 {A} (f : A -> string) x y l :
  joinComma f (x :: y :: l) = (f x ++ "," ++ joinComma f (y :: l))%string.
Proof. reflexivity. Qed.

Lemma skipWhitespace_head c t :
  isJsonWhitespace c = false -> skipWhitespace (String c t) = String c t.
Proof. intros H. cbn [skipWhitespace]. by rewrite H. Qed.

Lemma parseValue_string t fuel :
  parseValue (S fuel) (String DQUOTE t) =
    match parseChars t with
    | Some (str, r) => Some (JStr str, r)
    | None => None
    end.
Proof. reflexivity. Qed.

Lemma parseValue_array s fuel :
  parseValue (S fuel) (String (ascii_of_nat 91) s) =
    match skipWhitespace s with
    | EmptyString => None
    | String c2 r =>
        if Ascii.eqb c2 (ascii_of_nat 93) then Some (JArr [], r)
        else
          match parseElements fuel (String c2 r) with
          | Some (items, r') => Some (JArr items, r')
          | None => None
          end
    end.
Proof. reflexivity. Qed.

Lemma parseValue_object s fuel :
  parseValue (S fuel) (String (ascii_of_nat 123) s) =
    match skipWhitespace s with
    | EmptyString => None
    | String c2 r =>
        if Ascii.eqb c2 (ascii_of_nat 125) then Some (JObj [], r)
        else
          match parseMembers fuel (String c2 r) with
          | Some (members, r') => Some (JObj members, r')
          | None => None
          end
    end.
Proof. reflexivity. Qed.

Lemma parseElements_items items :
  Forall readsBack items -> items <> [] ->
  forall fuel rest,
    String.length (joinComma stringify items) < fuel ->
    parseElements fuel (joinComma stringify items ++ String (ascii_of_nat 93) rest)
      = Some (List.map reread items, rest).
Proof.
  induction 1 as [|x l Hx Hl IH]; [done|]. intros _ fuel rest Hlen.
  destruct fuel as [|fuel]; [lia|]. cbn [parseElements].
  destruct l as [|y l'].
  - cbn [joinComma] in *.
    by rewrite (Hx fuel (String (ascii_of_nat 93) rest)) by (done || lia).
  - rewrite joinComma_cons2 in *.
    rewrite !string_length_app in Hlen. cbn [String.length] in Hlen.
    rewrite !string_app_assoc, string_app_cons, string_app_nil.
    rewrite (Hx fuel _) by (done || lia).
    cbn [skipWhitespace]. change (isJsonWhitespace ",") with false. cbv iota.
    change (Ascii.eqb "," (ascii_of_nat 44)) with true. cbv iota.
    destruct (stringify_head y) as (c & t & Hy & Hc).
    destruct (startsValue_not_space c Hc) as (Hws & _).
    assert (exists t', joinComma stringify (y :: l') = String c t') as [t' Ht'].
    { destruct l'; [by exists t|]. rewrite joinComma_cons2, Hy, string_app_cons.
      by eexists. }
    rewrite Ht', string_app_cons, skipWhitespace_head by done.
    rewrite <- string_app_cons, <- Ht'.
    by rewrite IH by (done || lia).
Qed.

Lemma parseMembers_members members :
  Forall (fun kv => readsBack (snd kv)) members -> members <> [] ->
  forall fuel rest,
    String.length
      (joinComma (fun kv => (quoteString (fst kv) ++ ":" ++ stringify (snd kv))%string)
         members) < fuel ->
    parseMembers fuel
      (joinComma (fun kv => (quoteString (fst kv) ++ ":" ++ stringify (snd kv))%string)
         members ++ String (ascii_of_nat 125) rest)
      = Some (List.map (fun kv => (wide (fst kv), reread (snd kv))) members, rest).
Proof.
  induction 1 as [|[k v] l Hx Hl IH]; [done|]. intros _ fuel rest Hlen.
  destruct fuel as [|fuel]; [lia|].
  destruct (stringify_head v) as (cv & tv & Hv & Hcv).
  destruct (startsValue_not_space cv Hcv) as (Hwsv & _).
  cbn [fst snd] in Hx.
  destruct l as [|[k2 v2] l'].
  - cbn [joinComma fst snd] in *.
    rewrite !string_length_app in Hlen. cbn [String.length] in Hlen.
    rewrite !string_app_assoc.
    destruct (parseChars_quoteString k
                (":" ++ stringify v ++ String (ascii_of_nat 125) rest)%string)
      as (t & -> & Ht).
    cbn [parseMembers]. change (Ascii.eqb DQUOTE DQUOTE) with true. cbv iota.
    rewrite Ht, string_app_cons, string_app_nil.
    cbn [skipWhitespace]. change (isJsonWhitespace ":") with false. cbv iota.
    change (Ascii.eqb ":" (ascii_of_nat 58)) with true. cbv iota.
    rewrite Hv, string_app_cons, skipWhitespace_head by done.
    rewrite <- string_app_cons, <- Hv.
    by rewrite (Hx fuel (String (ascii_of_nat 125) rest)) by (done || lia).
  - rewrite joinComma_cons2 in *. cbn [fst snd] in *.
    rewrite !string_length_app in Hlen. cbn [String.length] in Hlen.
    rewrite !string_app_assoc.
    match goal with
    | |- parseMembers _ (quoteString k ++ ?tail)%string = _ =>
        destruct (parseChars_quoteString k tail) as (t & -> & Ht)
    end.
    cbn [parseMembers]. change (Ascii.eqb DQUOTE DQUOTE) with true. cbv iota.
    rewrite Ht, string_app_cons, string_app_nil.
    cbn [skipWhitespace]. change (isJsonWhitespace ":") with false. cbv iota.
    change (Ascii.eqb ":" (ascii_of_nat 58)) with true. cbv iota.
    rewrite Hv, string_app_cons, skipWhitespace_head by done.
    rewrite <- string_app_cons, <- Hv.
    rewrite string_app_cons, string_app_nil.
    rewrite (Hx fuel _) by (done || lia).
    cbn [skipWhitespace]. change (isJsonWhitespace ",") with false. cbv iota.
    change (Ascii.eqb "," (ascii_of_nat 44)) with true. cbv iota.
    assert (exists t',
      joinComma (fun kv => (quoteString (fst kv) ++ ":" ++ stringify (snd kv))%string)
        ((k2, v2) :: l') = String DQUOTE t') as [t' Ht'].
    { destruct l' as [|kv3 l'']; [by eexists|].
      rewrite joinComma_cons2. by eexists. }
    rewrite Ht', string_app_cons, skipWhitespace_head by done.
    rewrite <- string_app_cons, <- Ht'.
    by rewrite IH by (done || lia).
Qed.

Lemma stringify_length j : 1 <= String.length (stringify j).
Proof.
  destruct (stringify_head j) as (c & t & -> & _). cbn [String.length]. lia.
Qed.

Lemma stringify_array items rest :
  (stringify (JArr items) ++ rest)%string
    = String (ascii_of_nat 91)
        (joinComma stringify items ++ String (ascii_of_nat 93) rest) /\
  String.length (stringify (JArr items))
    = S (S (String.length (joinComma stringify items))).
Proof.
  cbn [stringify]. split.
  - by rewrite !string_app_assoc.
  - rewrite string_app_cons, string_app_nil. cbn [String.length].
    rewrite string_length_app. cbn [String.length]. lia.
Qed.

Lemma stringify_object members rest :
  let member kv := (quoteString (fst kv) ++ ":" ++ stringify (snd kv))%string in
  (stringify (JObj members) ++ rest)%string
    = String (ascii_of_nat 123)
        (joinComma member members ++ String (ascii_of_nat 125) rest) /\
  String.length (stringify (JObj members))
    = S (S (String.length (joinComma member members))).
Proof.
  cbn [stringify]. split.
  - by rewrite !string_app_assoc.
  - rewrite string_app_cons, string_app_nil. cbn [String.length].
    rewrite string_length_app. cbn [String.length]. lia.
Qed.

Lemma parseValue_stringify j : readsBack j.
Proof.
  induction j as [|b|n|s|items IH|members IH] using json_nested_ind;
    intros fuel rest Hlen Hrest;
    (destruct fuel as [|fuel];
     [match type of Hlen with
      | String.length (stringify ?x) <= _ => pose proof (stringify_length x)
      end; lia|]).
  - by destruct rest.
  - by destruct b, rest.
  - cbn [stringify reread]. unfold printNumber.
    pose proof (roundNumber_idem n) as Hidem.
    destruct (roundNumber n) as [m e|b]; [|by destruct rest].
    destruct (printDecimal_head m e) as (c & t & Hn & Hc).
    rewrite Hn, string_app_cons, parseValue_number by done.
    rewrite <- string_app_cons, <- Hn.
    by rewrite parseNumber_printDecimal, Hidem.
  - cbn [stringify].
    destruct (parseChars_quoteString s rest) as (t & -> & Ht).
    by rewrite parseValue_string, Ht.
  - destruct (stringify_array items rest) as [-> Hl]. rewrite Hl in Hlen.
    rewrite parseValue_array.
    destruct items as [|x l].
    + by cbn [joinComma].
    + destruct (stringify_head x) as (c & t & Hx & Hc).
      destruct (startsValue_not_space c Hc) as (Hws & Hb & _).
      assert (exists t', joinComma stringify (x :: l) = String c t') as [t' Ht'].
      { destruct l; [by exists t|]. rewrite joinComma_cons2, Hx, string_app_cons.
        by eexists. }
      rewrite Ht', string_app_cons, skipWhitespace_head, Hb by done.
      rewrite <- string_app_cons, <- Ht'.
      by rewrite parseElements_items by (done || lia).
  - destruct (stringify_object members rest) as [-> Hl]. rewrite Hl in Hlen.
    rewrite parseValue_object.
    destruct members as [|[k v] l].
    + by cbn [joinComma].
    + assert (exists t',
        joinComma (fun kv => (quoteString (fst kv) ++ ":" ++ stringify (snd kv))%string)
          ((k, v) :: l) = String DQUOTE t') as [t' Ht'].
      { destruct l as [|kv2 l']; [by eexists|].
        rewrite joinComma_cons2. by eexists. }
      rewrite Ht', string_app_cons, skipWhitespace_head by done.
      change (Ascii.eqb DQUOTE (ascii_of_nat 125)) with false. cbv iota.
      rewrite <- string_app_cons, <- Ht'.
      by rewrite parseMembers_members by (done || lia).
Qed.

(** [JSON.parse] reads back what [JSON.stringify] wrote. *)
Lemma JSON_parse_stringify j : JSON_parse (stringify j) = Some (reread j).
Proof.
  unfold JSON_parse.
  destruct (stringify_head j) as (c & t & Hj & Hc).
  destruct (startsValue_not_space c Hc) as (Hws & _).
  rewrite Hj at 2. rewrite skipWhitespace_head by done. rewrite <- Hj.
  rewrite <- (string_app_nil_r (stringify j)) at 2.
  by rewrite parseValue_stringify by (done || lia).
Qed.

(** ** Share links *)

Lemma startsWith_app (p s : string) : startsWith (p ++ s) p = true.
Proof.
  unfold startsWith. induction p as [|c p IH].
  - by destruct s.
  - rewrite string_app_cons. simpl. by destruct (ascii_dec c c).
Qed.

Lemma substringFrom_app (p s : string) :
  substringFrom (String.length p) (p ++ s) = s.
Proof.
  induction p as [|c p IH]; [by destruct s|].
  rewrite string_app_cons. exact IH.
Qed.

Lemma traverse_map {A B C} (f : A -> B) (g : B -> option C) (h : A -> C)
    (l : list A) :
  (forall x, g (f x) = Some (h x)) ->
  traverse g (List.map f l) = Some (List.map h l).
Proof.
  intros Hgf. induction l as [|x l IH]; [done|].
  cbn [List.map traverse]. by rewrite Hgf, IH.
Qed.


Lemma layoutOfName_layoutName (l : SlideLayout) : layoutOfName (layoutName l) = Some l.
Proof. by destruct l. Qed.

Lemma chartTypeOfName_chartTypeName (t : ChartType) :
  chartTypeOfName (chartTypeName t) = Some t.
Proof. by destruct t. Qed.

Lemma stringsOfJson_strings (l : list string) :
  stringsOfJson (reread (JArr (List.map JStr l))) = Some l.
Proof.
  unfold stringsOfJson. cbn [reread asArray]. rewrite List.map_map.
  rewrite (traverse_map _ _ (fun x => x)); [by rewrite List.map_id|].
  intros x. apply narrow_wide.
Qed.

Lemma asDatum_datumToJson (d : datum) :
  asDatum (reread (datumToJson d)) = Some (rereadDatum d).
Proof.
  destruct d as [n|]; [|done]. cbn [datumToJson reread rereadDatum].
  by destruct (roundNumber n).
Qed.

Lemma datasetOfJson_datasetToJson (d : Dataset) :
  datasetOfJson (reread (datasetToJson d)) = Some (rereadDataset d).
Proof.
  destruct d as [l ns]. unfold datasetOfJson, datasetToJson, rereadDataset.
  cbn [reread List.map fst snd asMembers ds_label ds_data].
  change (member asString "label" _) with (narrow (wide l)).
  change (member asArray "data" _)
    with (Some (List.map reread (List.map datumToJson ns))).
  rewrite narrow_wide, List.map_map. cbn match.
  by rewrite (traverse_map _ _ _ _ asDatum_datumToJson).
Qed.

Lemma chartOfJson_chartToJson (c : ChartData) :
  chartOfJson (reread (chartToJson c)) = Some (rereadChart c).
Proof.
  destruct c as [t ls ds]. unfold chartOfJson, chartToJson, rereadChart.
  cbn [reread List.map fst snd asMembers chart_type chart_labels chart_datasets].
  change (member asString "type" _) with (narrow (wide (chartTypeName t))).
  change (member stringsOfJson "labels" _)
    with (stringsOfJson (reread (JArr (List.map JStr ls)))).
  change (member asArray "datasets" _)
    with (Some (List.map reread (List.map datasetToJson ds))).
  rewrite narrow_wide, stringsOfJson_strings, List.map_map. cbn match.
  rewrite chartTypeOfName_chartTypeName.
  by rewrite (traverse_map _ _ _ _ datasetOfJson_datasetToJson).
Qed.

Lemma slideOfJson_slideToJson (s : Slide) :
  slideOfJson (reread (slideToJson s)) = Some (rereadSlide s).
Proof.
  destruct s as [t c p u n l ch].
  pose proof (stringsOfJson_strings c) as Hc. cbn [reread] in Hc.
  pose proof (layoutOfName_layoutName l) as Hl.
  destruct u as [u|], n as [n|], ch as [ch|];
    try pose proof (chartOfJson_chartToJson ch) as Hch;
    unfold slideOfJson, slideToJson, member, rereadSlide, withChartData;
    cbn [title content imagePrompt imageUrl speakerNotes layout chartData
         option_map optionalMember Datatypes.app];
    cbn [reread List.map fst snd asMembers];
    repeat match goal with
    | |- context [getMember ?k ?ms] =>
        let v := eval vm_compute in (String.length k) in
        let r := eval cbv [getMember sameUnits wide N_of_ascii N.eqb Pos.eqb
                           N_of_digits N.add N.mul Pos.add Pos.mul Pos.succ andb]
                 in (getMember k ms) in
        change (getMember k ms) with r
    end;
    cbn [asString optionalString];
    rewrite ?narrow_wide; cbn [option_map];
    rewrite ?Hc, ?Hl, ?Hch; reflexivity.
Qed.

Lemma slidesOfJson_slides (deck : list Slide) :
  slidesOfJson (reread (JArr (List.map slideToJson deck)))
    = Some (List.map rereadSlide deck).
Proof.
  unfold slidesOfJson. cbn [reread asArray]. rewrite List.map_map.
  exact (traverse_map _ _ _ _ slideOfJson_slideToJson).
Qed.

Lemma customThemeOfJson_customThemeToJson (t : CustomTheme) :
  customThemeOfJson (reread (customThemeToJson t)) = Some t.
Proof.
  destruct t as [i n a b c d e]. unfold customThemeOfJson, customThemeToJson.
  cbn [reread List.map fst snd asMembers theme_id theme_name bg_primary
       bg_secondary text_primary text_secondary accent_primary].
  change (member asString "id" _) with (narrow (wide i)).
  change (member asString "name" _) with (narrow (wide n)).
  match goal with
  | |- context [member asMembers "colors" ?ms] =>
      let r := eval cbv [member getMember sameUnits wide N_of_ascii N.eqb Pos.eqb
                         N_of_digits N.add N.mul Pos.add Pos.mul Pos.succ andb
                         asMembers]
               in (member asMembers "colors" ms) in
      change (member asMembers "colors" ms) with r
  end.
  rewrite !narrow_wide. cbn match.
  change (member asString "--bg-primary" _) with (narrow (wide a)).
  change (member asString "--bg-secondary" _) with (narrow (wide b)).
  change (member asString "--text-primary" _) with (narrow (wide c)).
  change (member asString "--text-secondary" _) with (narrow (wide d)).
  change (member asString "--accent-primary" _) with (narrow (wide e)).
  by rewrite !narrow_wide.
Qed.




(** What the effect makes of a link of [handlePublish]. *)
Lemma shareEffect_shareFragment (st : App) :
  shareEffect (shareFragment st) =
    if String.eqb (theme st) "" then Untouched
    else OpenShared (reread (JArr (List.map slideToJson (deckSlides st))))
           (JStr (wide (theme st)))
           (option_map (fun t => reread (customThemeToJson t))
              (List.find (fun t => String.eqb (theme_id t) (theme st)) (customThemes st))).
Proof.
  unfold shareEffect, shareFragment.
  rewrite startsWith_app.
  change 7 with (String.length "#share="). rewrite substringFrom_app.
  rewrite atob_btoa, JSON_parse_stringify.
  unfold sharePayload, getProperty.
  set (sv := JArr (List.map slideToJson _)).
  set (cv := match List.find _ _ with Some _ => _ | None => _ end).
  cbn [reread List.map fst snd].
  change (getMember "slides" _) with (Some (reread sv)).
  change (getMember "theme" _) with (Some (JStr (S := wstring) (wide (theme st)))).
  change (getMember "customTheme" _) with (Some (reread cv)).
  subst sv. cbn [reread truthy andb].
  destruct (theme st) as [|c th] eqn:He; [done|]. cbn [wide String.eqb].
  subst cv. destruct (List.find _ _) as [t|]; [|done].
  cbn [option_map]. by destruct t.
Qed.


Lemma loadShared_shareFragment (st fresh : App) :
  theme st <> "" ->
  let deck := List.map rereadSlide (deckSlides st) in
  loadShared (shareFragment st) fresh =
    Some (setAppStep StepPresentation
            (setIsReadOnlyView true
               (match activeCustomTheme st with
                | Some t => setCustomThemes (mergeCustomTheme t (customThemes fresh))
                | None => fun st' => st'
                end
                  (setTheme (theme st)
                     (setSlides (seq (length (heap fresh)) (length deck))
                        (setHeap (heap fresh ++ deck) fresh))))),
          shareFragment st).
Proof.
  intros Hne deck. unfold loadShared. rewrite shareEffect_shareFragment.
  apply String.eqb_neq in Hne. rewrite Hne.
  rewrite slidesOfJson_slides. cbn [asString]. rewrite narrow_wide.
  unfold activeCustomTheme.
  destruct (List.find _ (customThemes st)) as [t|]; cbn [option_map]; [|done].
  by rewrite customThemeOfJson_customThemeToJson.
Qed.




Lemma loadShared_cleared (hash : string) (st st' : App) :
  startsWith hash "#share=" = true ->
  loadShared hash st = Some (st', "") ->
  shareEffect hash = ShareFailed.
Proof.
  intros Hp. unfold loadShared.
  destruct (shareEffect hash) as [|sv tv cv|]; [| |done].
  - intros [= _ ->]. discriminate Hp.
  - destruct (slidesOfJson sv), (asString tv); try discriminate.
    destruct cv as [cj|]; [destruct (customThemeOfJson cj)|];
      cbn [option_map]; try discriminate; intros [= _ ->]; discriminate Hp.
Qed.

(** C10 (amended): for a fragment that starts with [#share=]:
    a payload that decodes and parses to a value other than [null] and
    lacks a truthy [slides] or [theme] changes nothing, neither the
    state (no read-only mode, nothing logged) nor the fragment; and the
    fragment is cleared exactly when [atob] throws, [JSON.parse] throws,
    or the payload is [null], on which the property access throws. *)
Theorem share_decode_edge_case (hash : string) (st : App) :
  startsWith hash "#share=" = true ->
  (forall text payload,
      atob (substringFrom 7 hash) = Some text ->
      JSON_parse text = Some payload ->
      payload <> JNull ->
      hasSlidesAndTheme payload = false ->
      loadShared hash st = Some (st, hash)) /\
  ((exists st', loadShared hash st = Some (st', "")) <->
   (atob (substringFrom 7 hash) = None \/
    exists text, atob (substringFrom 7 hash) = Some text /\
      (JSON_parse text = None \/ JSON_parse text = Some JNull))).
Proof.
  intros Hp. split.
  - intros text payload Ha Hj Hn Hd.
    unfold loadShared, shareEffect. rewrite Hp, Ha, Hj.
    unfold hasSlidesAndTheme in Hd.
    destruct payload; try done; cbn [getProperty] in *; rewrite ?Hd; try done.
  - split.
    + intros [st' Hl]. apply loadShared_cleared in Hl; [|done].
      unfold shareEffect in Hl. rewrite Hp in Hl.
      destruct (atob (substringFrom 7 hash)) as [text|]; [|by left].
      right. exists text. split; [done|].
      destruct (JSON_parse text) as [payload|]; [|by left].
      right. f_equal.
      destruct payload; try done; cbn [getProperty] in Hl;
        repeat match type of Hl with
               | context [if ?b then _ else _] => destruct b
               | context [match ?x with _ => _ end] => destruct x
               end; done.
    + intros H. eexists. unfold loadShared.
      assert (shareEffect hash = ShareFailed) as ->; [|done].
      unfold shareEffect. rewrite Hp.
      destruct H as [->|(text & -> & [->| ->])]; done.
Qed.

Lemma share_decode_edge_case_witness :
  let escaped :=
    String "{" (String DQUOTE (String "x" (String DQUOTE (String ":"
      (String DQUOTE (String BACKSLASH ("u0100" ++ String DQUOTE "}"))))))) in
  startsWith "#share=e30=" "#share=" = true /\
  atob (substringFrom 7 "#share=e30=") = Some "{}" /\
  JSON_parse "{}" = Some (JObj []) /\
  loadShared "#share=e30=" initialApp = Some (initialApp, "#share=e30=") /\
  startsWith "#share=eyJ4IjoiXHUwMTAwIn0=" "#share=" = true /\
  atob (substringFrom 7 "#share=eyJ4IjoiXHUwMTAwIn0=") = Some escaped /\
  JSON_parse escaped = Some (JObj [([120%N], JStr [256%N])]) /\
  loadShared "#share=eyJ4IjoiXHUwMTAwIn0=" initialApp
    = Some (initialApp, "#share=eyJ4IjoiXHUwMTAwIn0=").
Proof.
  intros escaped.
  split; [reflexivity|]. split; [reflexivity|]. split; [reflexivity|].
  destruct (share_decode_edge_case "#share=e30=" initialApp eq_refl) as [H _].
  split.
  { apply (H "{}" (JObj [])); [reflexivity|reflexivity|discriminate|reflexivity]. }
  split; [reflexivity|]. split; [vm_compute; reflexivity|].
  split; [vm_compute; reflexivity|].
  destruct (share_decode_edge_case "#share=eyJ4IjoiXHUwMTAwIn0=" initialApp eq_refl)
    as [H' _].
  apply (H' escaped (JObj [([120%N], JStr [256%N])]));
    [vm_compute; reflexivity|vm_compute; reflexivity|discriminate|reflexivity].
Defined.

(** C10, as worded: the payload [null] decodes ([atob] returns the
    text [null]) and parses ([JSON.parse] returns [null]), and it has no
    slides and no theme; reading [payload.slides] throws, the [catch]
    logs the error and clears the fragment. *)
Lemma share_decode_null_clears_fragment :
  atob (substringFrom 7 "#share=bnVsbA==") = Some "null" /\
  JSON_parse "null" = Some JNull /\
  shareEffect "#share=bnVsbA==" = ShareFailed /\
  loadShared "#share=bnVsbA==" initialApp =
    Some (consoleLog (ConsoleError "Failed to load shared presentation:") initialApp, "").
Proof.
  repeat split; reflexivity.
Qed.

(** ** The presentation screen: further properties *)

Lemma handleUpdateSlide_fresh_witness :
  let st := deckOf [imageSlide; chartSlide] in
  derefSlide st (slides st) 0 = Some imageSlide /\
  exists st',
    handleUpdateSlide (slides st) false 0 (FTitle "Sun") st = Some st' /\
    (forall r s0, heap st !! r = Some s0 -> heap st' !! r = Some s0) /\
    (forall j, j <> 0 -> slides st' !! j = slides st !! j) /\
    derefSlide st' (slides st') 0 = Some (withField (FTitle "Sun") imageSlide).
Proof.
  intros st. split; [reflexivity|].
  apply (handleUpdateSlide_fresh (slides st) 0 (FTitle "Sun") st imageSlide).
  reflexivity.
Defined.

(** What a read-only view keeps through an event. *)
Lemma step_readonly (cfg : Config) (e : Event) :
  isReadOnlyView (app cfg) = true -> pending cfg = [] ->
  exists cfg',
    step cfg e = Some cfg' /\ pending cfg' = [] /\
    isReadOnlyView (app cfg') = true /\
    heap (app cfg') = heap (app cfg) /\
    slides (app cfg') = slides (app cfg) /\
    theme (app cfg') = theme (app cfg) /\
    customThemes (app cfg') = customThemes (app cfg) /\
    slideActionLoading (app cfg') = slideActionLoading (app cfg) /\
    console (app cfg') = console (app cfg).
Proof.
  intros Hro Hp. destruct cfg as [st ps]. cbn [app pending] in *. subst ps.
  destruct e; cbn [step app pending];
    unfold handleUpdateSlide, handleAddSlide, handleDeleteSlide, handleDragSort,
      handleRegenerateImage, handleRegenerateChart, handleRegenerateSlideContent,
      handleEnhanceSlide, handleGenerateSpeakerNotes, settle;
    cbn [app pending]; rewrite ?Hro, ?orb_true_r; cbn [onApp pending app];
    try (eexists; split; [reflexivity|]; cbn; by repeat split).
  - destruct (dragItem st), (dragOverItem st); rewrite ?orb_true_r;
      cbn [onApp pending app]; eexists; (split; [reflexivity|]); cbn; by repeat split.
  - destruct (slides st !! index); eexists; (split; [reflexivity|]);
      cbn; by repeat split.
Qed.

(** X2. Read-only view: whatever the viewer does, in whatever order, every
    handler returns at its guard.  The run does not throw, no call is
    started, and the slide objects, the slide sequence, the theme, the
    custom themes, the busy flags and the console stay as they were. *)
Theorem readonly_view_is_immutable (st : App) (es : list Event) :
  isReadOnlyView st = true ->
  exists cfg',
    run (idle st) es = Some cfg' /\ pending cfg' = [] /\
    isReadOnlyView (app cfg') = true /\
    heap (app cfg') = heap st /\
    slides (app cfg') = slides st /\
    theme (app cfg') = theme st /\
    customThemes (app cfg') = customThemes st /\
    slideActionLoading (app cfg') = slideActionLoading st /\
    console (app cfg') = console st.
Proof.
  intros Hro.
  change st with (app (idle st)) at 2 3 4 5 6 7.
  assert (pending (idle st) = []) as Hp by reflexivity.
  change (isReadOnlyView (app (idle st)) = true) in Hro.
  revert Hro Hp. generalize (idle st). clear st.
  induction es as [|e es IH]; intros cfg Hro Hp.
  - exists cfg. by repeat split.
  - destruct (step_readonly cfg e Hro Hp)
      as (cfg1 & Hs & Hp1 & Hro1 & Hh & Hsl & Ht & Hc & Hf & Hl).
    destruct (IH cfg1 Hro1 Hp1) as (cfg' & Hr & H1 & H2 & H3 & H4 & H5 & H6 & H7 & H8).
    exists cfg'. cbn [run]. rewrite Hs. split; [done|]. split; [done|]. split; [done|].
    repeat split; congruence.
Qed.

Lemma readonly_view_is_immutable_witness :
  let st := setIsReadOnlyView true (deckOf [imageSlide; chartSlide]) in
  let es := [EditTitle 0 "x"; AddSlide; DeleteSlide 1; DragStart 0; DragEnter 1;
             DragEnd; RegenerateImage 0; Enhance; Settle 0 Rejected] in
  isReadOnlyView st = true /\
  exists cfg',
    run (idle st) es = Some cfg' /\ pending cfg' = [] /\
    isReadOnlyView (app cfg') = true /\
    heap (app cfg') = heap st /\
    slides (app cfg') = slides st /\
    theme (app cfg') = theme st /\
    customThemes (app cfg') = customThemes st /\
    slideActionLoading (app cfg') = slideActionLoading st /\
    console (app cfg') = console st.
Proof.
  intros st es. split; [reflexivity|].
  apply (readonly_view_is_immutable st es). reflexivity.
Defined.

(** *** Busy flags *)

Lemma flags_setActionLoading action index value st key :
  slideActionLoading (setActionLoading action index value st) !! key =
    if decide (actionKey action index = key) then Some value
    else slideActionLoading st !! key.
Proof.
  unfold setActionLoading. cbn [slideActionLoading setSlideActionLoading].
  destruct (decide (actionKey action index = key)) as [-> |Hne].
  - by rewrite lookup_insert_eq.
  - by rewrite lookup_insert_ne.
Qed.

Lemma flags_updateInPlace index f st st' :
  updateInPlace index f st = Some st' ->
  slideActionLoading st' = slideActionLoading st.
Proof.
  unfold updateInPlace. destruct (slides st !! index); [|done]. by intros [= <-].
Qed.

Lemma flags_replaceSlide arr index f st st' :
  replaceSlide arr index f st = Some st' ->
  slideActionLoading st' = slideActionLoading st.
Proof.
  unfold replaceSlide. destruct (derefSlide st arr index); [|done]. by intros [= <-].
Qed.

Lemma flags_handleUpdateSlide arr ro index field st st' :
  handleUpdateSlide arr ro index field st = Some st' ->
  slideActionLoading st' = slideActionLoading st.
Proof.
  unfold handleUpdateSlide. destruct ro; [by intros [= <-]|apply flags_replaceSlide].
Qed.

Lemma flags_handleDragSort st st' :
  handleDragSort st = Some st' -> slideActionLoading st' = slideActionLoading st.
Proof.
  unfold handleDragSort.
  destruct (dragItem st) as [src|], (dragOverItem st) as [dst|];
    try (by intros [= <-]).
  destruct ((src =? dst) || isReadOnlyView st); [by intros [= <-]|].
  destruct (slides st !! src); [|done]. by intros [= <-].
Qed.

Lemma flags_handleDeleteSlide index st :
  slideActionLoading (handleDeleteSlide index st) = slideActionLoading st.
Proof.
  unfold handleDeleteSlide.
  destruct ((length (slides st) <=? 1) || isReadOnlyView st); [done|].
  by destruct (index <=? currentSlideIndex st).
Qed.

Lemma flags_handleAddSlide st :
  slideActionLoading (handleAddSlide st) = slideActionLoading st.
Proof. unfold handleAddSlide. by destruct (isReadOnlyView st). Qed.

(** The invariant after a transition that sets the flags [on], clears
    the flags [off], and may drop calls all of whose flags are among
    these. *)
Lemma busyJustified_update (cfg cfg' : Config) (off on : list string) :
  busyJustified cfg ->
  (forall key, slideActionLoading (app cfg') !! key = Some true ->
     key ∈ on \/ ((key ∉ off) /\ slideActionLoading (app cfg) !! key = Some true)) ->
  (forall key, key ∈ on -> exists p, p ∈ pending cfg' /\ key ∈ pendingKeys p) ->
  (forall p, p ∈ pending cfg ->
     p ∈ pending cfg' \/ forall key, key ∈ pendingKeys p -> key ∈ off \/ key ∈ on) ->
  busyJustified cfg'.
Proof.
  intros Hinv Hflags Hon Hpend key Hkey.
  destruct (Hflags key Hkey) as [Hin|[Hoff Hold]]; [by apply Hon|].
  destruct (Hinv key Hold) as (p & Hp & Hk).
  destruct (Hpend p Hp) as [Hp'|Hdrop]; [by exists p|].
  destruct (Hdrop key Hk) as [?|?]; [done|by apply Hon].
Qed.

Lemma busyJustified_same (cfg cfg' : Config) :
  busyJustified cfg ->
  slideActionLoading (app cfg') = slideActionLoading (app cfg) ->
  pending cfg' = pending cfg ->
  busyJustified cfg'.
Proof. intros Hinv Hf Hp key. rewrite Hf, Hp. apply Hinv. Qed.

Lemma elem_of_delete_or {A} (l : list A) (k : nat) (p x : A) :
  l !! k = Some p -> x ∈ l -> x ∈ delete k l \/ x = p.
Proof.
  revert k. induction l as [|y l IH]; intros k Hk Hx; [done|].
  destruct k as [|k]; cbn in *.
  - injection Hk as ->. apply elem_of_cons in Hx as [->|Hx]; auto.
  - apply elem_of_cons in Hx as [->|Hx]; [left; by left|].
    destruct (IH k Hk Hx) as [?|?]; [left; by right|by right].
Qed.

(** A handler that sets its flag and, when it finds its slide, starts a
    call with that flag; otherwise it clears the flag again. *)
Lemma busyJustified_start (cfg : Config) action index (found : bool) p e :
  busyJustified cfg ->
  pendingKeys p = [actionKey action index] ->
  busyJustified
    (if found
     then {| app := setActionLoading action index true (app cfg);
             pending := pending cfg ++ [p] |}
     else {| app := setActionLoading action index false
                      (consoleLog e (setActionLoading action index true (app cfg)));
             pending := pending cfg |}).
Proof.
  intros Hinv Hkeys. destruct found.
  - apply (busyJustified_update cfg _ [] [actionKey action index]); [done|..].
    + intros key. cbn [app]. rewrite flags_setActionLoading.
      destruct (decide _) as [<- |Hne]; [left; by left|].
      intros H. right. split; [by intros ?%elem_of_nil|done].
    + intros key ->%list_elem_of_singleton. exists p. cbn [pending].
      split; [apply elem_of_app; right; by left|rewrite Hkeys; by left].
    + intros p' Hp'. left. cbn [pending]. apply elem_of_app. by left.
  - apply (busyJustified_update cfg _ [actionKey action index] []); [done|..].
    + intros key. cbn [app].
      rewrite flags_setActionLoading.
      destruct (decide _) as [<- |Hne]; [done|].
      cbn [consoleLog slideActionLoading]. rewrite flags_setActionLoading.
      destruct (decide _) as [?|_]; [done|].
      intros H. right. split; [|done]. by intros ->%list_elem_of_singleton.
    + by intros key ?%elem_of_nil.
    + intros p' Hp'. by left.
Qed.

Lemma busy_handleRegenerateImage arr ro inside index cfg cfg2 :
  handleRegenerateImage arr ro inside index cfg = Some cfg2 ->
  exists prompt,
    pending cfg2 = pending cfg ++ [PImage index prompt inside] /\
    forall key,
      slideActionLoading (app cfg2) !! key =
        if decide (actionKey "image" index = key) then Some true
        else slideActionLoading (app cfg) !! key.
Proof.
  unfold handleRegenerateImage. destruct (arr !! index) as [r|]; [|done].
  destruct ro; [done|]. intros [= <-]. eexists. split; [reflexivity|].
  intros key. cbn [app]. cbn [setSlides mutateSlide setHeap slideActionLoading].
  apply flags_setActionLoading.
Qed.

(** The invariant after the continuation of the [k]-th call has run and
    has cleared the flags of that call. *)
Lemma busyJustified_settled (cfg : Config) (k : nat) (p : Pending) (st' : App) :
  busyJustified cfg ->
  pending cfg !! k = Some p ->
  (forall key, slideActionLoading st' !! key = Some true ->
     (key ∉ pendingKeys p) /\ slideActionLoading (app cfg) !! key = Some true) ->
  busyJustified {| app := st'; pending := delete k (pending cfg) |}.
Proof.
  intros Hinv Hk Hflags.
  apply (busyJustified_update cfg _ (pendingKeys p) []); [done|..].
  - intros key Hkey. right. by apply Hflags.
  - by intros key ?%elem_of_nil.
  - intros p' Hp'. cbn [pending].
    destruct (elem_of_delete_or _ _ _ _ Hk Hp') as [?| ->]; [by left|].
    right. intros key Hkey. by left.
Qed.

Ltac flag_cases :=
  repeat (rewrite flags_setActionLoading;
          let E := fresh in destruct (decide _) as [E|E]; [try done|]);
  cbn [consoleLog slideActionLoading].

Lemma busy_imageSettled index inside o st st' prompt key :
  imageSettled index inside o st = Some st' ->
  slideActionLoading st' !! key = Some true ->
  (key ∉ pendingKeys (PImage index prompt inside)) /\
  slideActionLoading st !! key = Some true.
Proof.
  unfold imageSettled.
  set (u := match o with GotImage _ => _ | _ => _ end).
  assert (forall st1, u = Some st1 -> slideActionLoading st1 = slideActionLoading st)
    as Hu.
  { subst u. intros st1. destruct o; intros ->%flags_updateInPlace; done. }
  destruct u as [st1|]; [|done]. specialize (Hu st1 eq_refl).
  intros [= <-]. cbn [pendingKeys].
  destruct inside; flag_cases; rewrite Hu; intros Hkey; (split; [|done]);
    rewrite ?elem_of_cons, elem_of_nil; intuition congruence.
Qed.

Lemma busy_chartSettled index o st st' key :
  chartSettled index o st = Some st' ->
  slideActionLoading st' !! key = Some true ->
  (key ∉ pendingKeys (PChart index)) /\
  slideActionLoading st !! key = Some true.
Proof.
  unfold chartSettled.
  set (u := match o with GotChart _ => _ | _ => _ end).
  assert (forall st1, u = Some st1 -> slideActionLoading st1 = slideActionLoading st)
    as Hu.
  { subst u. intros st1. destruct o as [| |[c|]| |];
      try (by intros [= <-]). apply flags_updateInPlace. }
  destruct u as [st1|]; [|done]. specialize (Hu st1 eq_refl).
  intros [= <-]. cbn [pendingKeys].
  flag_cases; rewrite Hu; intros Hkey; (split; [|done]);
    rewrite ?elem_of_cons, elem_of_nil; intuition congruence.
Qed.

Lemma busy_enhanceSettled cur index o st st' key :
  enhanceSettled cur index o st = Some st' ->
  slideActionLoading st' !! key = Some true ->
  (key ∉ pendingKeys (PEnhance cur index)) /\
  slideActionLoading st !! key = Some true.
Proof.
  unfold enhanceSettled.
  set (u := match o with GotText _ => _ | _ => _ end).
  assert (forall st1, u = Some st1 -> slideActionLoading st1 = slideActionLoading st)
    as Hu.
  { subst u. intros st1. destruct o as [| | | |text]; try (by intros [= <-]).
    destruct (enhanceContent text); [by intros [= <-]|].
    destruct (heap st !! cur); [|done]. apply flags_updateInPlace. }
  destruct u as [st1|]; [|done]. specialize (Hu st1 eq_refl).
  intros [= <-]. cbn [pendingKeys].
  flag_cases; rewrite Hu; intros Hkey; (split; [|done]);
    rewrite ?elem_of_cons, elem_of_nil; intuition congruence.
Qed.

Lemma busy_notesSettled arr index o st st' key :
  notesSettled arr index o st = Some st' ->
  slideActionLoading st' !! key = Some true ->
  (key ∉ pendingKeys (PNotes arr index)) /\
  slideActionLoading st !! key = Some true.
Proof.
  unfold notesSettled.
  set (u := match o with GotText _ => _ | _ => _ end).
  assert (forall st1, u = Some st1 -> slideActionLoading st1 = slideActionLoading st)
    as Hu.
  { subst u. intros st1. destruct o as [| | | |text]; try (by intros [= <-]).
    apply flags_handleUpdateSlide. }
  destruct u as [st1|]; [|done]. specialize (Hu st1 eq_refl).
  intros [= <-]. cbn [pendingKeys].
  flag_cases; rewrite Hu; intros Hkey; (split; [|done]);
    rewrite ?elem_of_cons, elem_of_nil; intuition congruence.
Qed.

Lemma busy_content_cleared st1 st arr index key :
  slideActionLoading st1 = slideActionLoading st ->
  slideActionLoading (setActionLoading "content" index false st1) !! key = Some true ->
  (key ∉ pendingKeys (PContent arr index)) /\
  slideActionLoading st !! key = Some true.
Proof.
  intros Hu. cbn [pendingKeys].
  flag_cases; rewrite Hu; intros Hkey; (split; [|done]);
    rewrite ?elem_of_cons, elem_of_nil; intuition congruence.
Qed.

Lemma busy_contentSettled (cfg cfg' : Config) k arr index o :
  busyJustified cfg ->
  pending cfg !! k = Some (PContent arr index) ->
  contentSettled arr index o {| app := app cfg; pending := delete k (pending cfg) |}
    = Some cfg' ->
  busyJustified cfg'.
Proof.
  intros Hinv Hk. unfold contentSettled. cbn [app pending].
  destruct o as [| | |r|];
    try (intros [= <-]; apply (busyJustified_settled cfg k _ _ Hinv Hk);
         intros key; by apply busy_content_cleared).
  destruct (replaceSlide _ _ _ _) as [st1|] eqn:Hrep; [|done].
  apply flags_replaceSlide in Hrep.
  destruct (r_chart r);
    [intros [= <-]; apply (busyJustified_settled cfg k _ _ Hinv Hk);
     intros key; by apply busy_content_cleared|].
  destruct (handleRegenerateImage _ _ _ _ _) as [cfg2|] eqn:Himg;
    [|intros [= <-]; apply (busyJustified_settled cfg k _ _ Hinv Hk);
      intros key; by apply busy_content_cleared].
  intros [= <-].
  apply busy_handleRegenerateImage in Himg as (prompt & Hpend & Hflags).
  cbn [app pending] in *.
  apply (busyJustified_update cfg _ []
           [actionKey "image" index; actionKey "content" index]); [done|..].
  - intros key. rewrite Hflags. destruct (decide _) as [<- |Hne]; [left; by left|].
    rewrite Hrep. intros H. right. split; [by intros ?%elem_of_nil|done].
  - intros key Hkey. exists (PImage index prompt true). rewrite Hpend.
    split; [apply elem_of_app; right; by left|exact Hkey].
  - intros p' Hp'. rewrite Hpend.
    destruct (elem_of_delete_or _ _ _ _ Hk Hp') as [?| ->];
      [left; apply elem_of_app; by left|].
    right. intros key ->%list_elem_of_singleton. right. right. by left.
Qed.

Lemma onApp_Some cfg r cfg' :
  onApp cfg r = Some cfg' ->
  exists st', r = Some st' /\ cfg' = {| app := st'; pending := pending cfg |}.
Proof. destruct r as [st'|]; [|done]. intros [= <-]. by exists st'. Qed.

Lemma busyJustified_step (cfg cfg' : Config) (e : Event) :
  busyJustified cfg -> step cfg e = Some cfg' -> busyJustified cfg'.
Proof.
  intros Hinv. destruct e; cbn [step].
  1-4: intros (st' & Hu & ->)%onApp_Some;
       apply (busyJustified_same cfg); [done| |done];
       exact (flags_handleUpdateSlide _ _ _ _ _ _ Hu).
  - intros [= <-]. apply (busyJustified_same cfg); [done| |done].
    apply flags_handleAddSlide.
  - intros [= <-]. apply (busyJustified_same cfg); [done| |done].
    apply flags_handleDeleteSlide.
  - intros [= <-]. by apply (busyJustified_same cfg).
  - intros [= <-]. by apply (busyJustified_same cfg).
  - intros [= <-]. by apply (busyJustified_same cfg).
  - intros (st' & Hu & ->)%onApp_Some.
    apply (busyJustified_same cfg); [done| |done]. by apply flags_handleDragSort.
  - destruct (handleRegenerateImage _ _ _ _ _) as [cfg2|] eqn:Himg;
      intros [= <-]; [|done].
    apply busy_handleRegenerateImage in Himg as (prompt & Hpend & Hflags).
    apply (busyJustified_update cfg _ [] [actionKey "image" index]); [done|..].
    + intros key. rewrite Hflags. destruct (decide _) as [<- |Hne]; [left; by left|].
      intros H. right. split; [by intros ?%elem_of_nil|done].
    + intros key ->%list_elem_of_singleton. exists (PImage index prompt false).
      rewrite Hpend. split; [apply elem_of_app; right; by left|by left].
    + intros p' Hp'. left. rewrite Hpend. apply elem_of_app. by left.
  - intros [= <-]. unfold handleRegenerateChart.
    destruct (isReadOnlyView (app cfg)); [done|].
    destruct (derefSlide _ _ _).
    + by apply (busyJustified_start cfg "chart" index true (PChart index)
                  (ConsoleError "")).
    + by apply (busyJustified_start cfg "chart" index false (PChart index)).
  - intros [= <-]. unfold handleRegenerateSlideContent.
    destruct (isReadOnlyView (app cfg)); [done|].
    destruct (derefSlide _ _ _).
    + by apply (busyJustified_start cfg "content" _ true (PContent _ _)
                  (ConsoleError "")).
    + by apply (busyJustified_start cfg "content" _ false
                  (PContent [] (currentSlideIndex (app cfg)))).
  - intros [= <-]. unfold handleEnhanceSlide.
    destruct (isReadOnlyView (app cfg)); [done|].
    destruct (slides (app cfg) !! _) as [cur|].
    + by apply (busyJustified_start cfg "enhance" _ true (PEnhance _ _)
                  (ConsoleError "")).
    + by apply (busyJustified_start cfg "enhance" _ false
                  (PEnhance 0 (currentSlideIndex (app cfg)))).
  - intros [= <-]. unfold handleGenerateSpeakerNotes.
    destruct (isReadOnlyView (app cfg)); [done|].
    destruct (derefSlide _ _ _).
    + by apply (busyJustified_start cfg "notes" _ true (PNotes _ _)
                  (ConsoleError "")).
    + by apply (busyJustified_start cfg "notes" _ false
                  (PNotes [] (currentSlideIndex (app cfg)))).
  - unfold settle. destruct (pending cfg !! k) as [p|] eqn:Hk; [|by intros [= <-]].
    destruct p as [index prompt inside|index|arr index|cur index|arr index];
      cbn [app pending].
    + intros (st' & Hu & ->)%onApp_Some. cbn [pending].
      apply (busyJustified_settled cfg k _ _ Hinv Hk).
      intros key. exact (busy_imageSettled _ _ _ _ _ prompt key Hu).
    + intros (st' & Hu & ->)%onApp_Some. cbn [pending].
      apply (busyJustified_settled cfg k _ _ Hinv Hk).
      intros key. exact (busy_chartSettled _ _ _ _ key Hu).
    + by apply busy_contentSettled.
    + intros (st' & Hu & ->)%onApp_Some. cbn [pending].
      apply (busyJustified_settled cfg k _ _ Hinv Hk).
      intros key. exact (busy_enhanceSettled _ _ _ _ _ key Hu).
    + intros (st' & Hu & ->)%onApp_Some. cbn [pending].
      apply (busyJustified_settled cfg k _ _ Hinv Hk).
      intros key. exact (busy_notesSettled _ _ _ _ _ key Hu).
Qed.

(** X3. Busy flags: starting from a screen with no busy flag set and no
    call in flight, after any sequence of events and settling calls that
    does not throw, every busy flag that is set belongs to a call that
    is still in flight (each continuation clears its flag in [finally],
    also after a failure); so once nothing is in flight, no flag is
    set. *)
Theorem busy_flag_has_pending_call (st : App) (es : list Event) (cfg' : Config) :
  (forall key, slideActionLoading st !! key <> Some true) ->
  run (idle st) es = Some cfg' ->
  busyJustified cfg' /\
  (pending cfg' = [] ->
   forall key, slideActionLoading (app cfg') !! key <> Some true).
Proof.
  intros Hclear Hrun.
  assert (busyJustified cfg') as Hinv.
  { assert (busyJustified (idle st)) as H0 by (intros key Hk; by destruct (Hclear key)).
    revert Hrun H0. generalize (idle st). clear Hclear.
    induction es as [|e es IH]; intros cfg; cbn [run].
    - by intros [= <-].
    - destruct (step cfg e) as [cfg1|] eqn:Hs; [|done].
      intros Hrun H0. apply (IH cfg1 Hrun). by apply (busyJustified_step cfg cfg1 e). }
  split; [done|]. intros Hp key Hkey.
  destruct (Hinv key Hkey) as (p & Hin & _). rewrite Hp in Hin.
  by apply elem_of_nil in Hin.
Qed.

Lemma busy_flag_has_pending_call_witness :
  let st := deckOf [imageSlide; chartSlide] in
  let es := [RegenerateContent; RegenerateChart 1;
             Settle 0 (GotContent {| r_title := "Sun"; r_content := ["Cheap"];
                                     r_imagePrompt := "A sun"; r_chart := None |});
             Settle 0 Rejected; Settle 0 (GotImage "BBBB")] in
  (forall key, slideActionLoading st !! key <> Some true) /\
  exists cfg',
    run (idle st) es = Some cfg' /\
    busyJustified cfg' /\
    (pending cfg' = [] ->
     forall key, slideActionLoading (app cfg') !! key <> Some true).
Proof.
  intros st es.
  assert (forall key, slideActionLoading st !! key <> Some true) as Hclear
    by (intros key; cbn; by rewrite lookup_empty).
  split; [exact Hclear|].
  destruct (run (idle st) es) as [cfg'|] eqn:Hr.
  - exists cfg'. split; [reflexivity|].
    exact (busy_flag_has_pending_call st es cfg' Hclear Hr).
  - vm_compute in Hr. discriminate Hr.
Defined.

(** *** Handlers that run with the slides of an earlier render *)

Lemma withImageUrl_twice u v s : withImageUrl u (withImageUrl v s) = withImageUrl u s.
Proof. by destruct s. Qed.

Lemma lookup_alter_app (h : list Slide) (r : ref) (f : Slide -> Slide) s extra :
  h !! r = Some s -> alter f r (h ++ extra) !! r = Some (f s).
Proof.
  intros Hr. rewrite list_lookup_alter_eq.
  by rewrite (lookup_app_l_Some _ _ _ _ Hr).
Qed.

(** X4. Regenerate content, answered without a chart: the continuation puts
    a new slide object with the new title, bullets and image prompt in
    place, and then calls the [handleRegenerateImage] of the render in
    which the action was started.  That handler copies the slide
    sequence of that render and sets it, so the new object is replaced
    by the old one again: the slide keeps its old title, bullets and
    image prompt, the image is requested for the old prompt, and only
    the image changes when the call settles. *)
Theorem regenerated_content_without_chart_is_dropped
    (st : App) (s : Slide) (r : SlideContentResponse) (imageBytes : string) :
  let i := currentSlideIndex st in
  isReadOnlyView st = false ->
  derefSlide st (slides st) i = Some s ->
  r_chart r = None ->
  exists cfg1 cfg2,
    run (idle st) [RegenerateContent; Settle 0 (GotContent r)] = Some cfg1 /\
    slides (app cfg1) = slides st /\
    derefSlide (app cfg1) (slides (app cfg1)) i = Some (withImageUrl (Some "loading") s) /\
    pending cfg1 = [PImage i (Some (imagePrompt s)) true] /\
    run cfg1 [Settle 0 (GotImage imageBytes)] = Some cfg2 /\
    slides (app cfg2) = slides st /\
    derefSlide (app cfg2) (slides (app cfg2)) i =
      Some (withChartData None (withImageUrl (Some (imageDataUrl imageBytes)) s)) /\
    pending cfg2 = [].
Proof.
  intros i Hro Hd Hchart. subst i.
  destruct (derefSlide_inv _ _ _ _ Hd) as (r0 & Harr & Hheap).
  unfold idle. cbn [run step app pending].
  unfold handleRegenerateSlideContent. cbn [app pending]. rewrite Hro, Hd.
  unfold settle at 1. cbn [pending app Datatypes.app lookup list_lookup delete list_delete].
  unfold contentSettled. cbn [app pending].
  unfold replaceSlide.
  change (derefSlide (setActionLoading "content" (currentSlideIndex st) true st)
            (slides (setActionLoading "content" (currentSlideIndex st) true st))
            (currentSlideIndex st))
    with (derefSlide st (slides st) (currentSlideIndex st)).
  rewrite Hd. cbn [allocSlide]. rewrite Hchart.
  unfold handleRegenerateImage. rewrite Harr. cbn [app pending Datatypes.app].
  set (st3 := setSlides (slides st) _).
  assert (heap st3 !! r0 = Some (withImageUrl (Some "loading") s)) as H3.
  { subst st3. cbn [heap setSlides mutateSlide setHeap setActionLoading
                    setSlideActionLoading].
    by apply lookup_alter_app. }
  assert (slides st3 = slides st) as Hs3 by reflexivity.
  rewrite H3. cbn [fmap option_fmap option_map].
  eexists. eexists. split; [reflexivity|]. cbn [app pending].
  split; [exact Hs3|].
  split; [unfold derefSlide; by rewrite Hs3, Harr|].
  split; [by destruct s|].
  unfold settle. cbn [pending app lookup list_lookup delete list_delete].
  unfold imageSettled, updateInPlace. rewrite Hs3, Harr.
  cbn [onApp app pending]. split; [reflexivity|]. split; [exact Hs3|].
  split; [|reflexivity].
  unfold derefSlide.
  cbn [app slides heap setActionLoading setSlideActionLoading mutateSlide setHeap].
  rewrite ?Hs3, Harr, list_lookup_alter_eq, H3.
  cbn [fmap option_fmap option_map]. by destruct s.
Qed.

Lemma regenerated_content_without_chart_is_dropped_witness :
  let st := deckOf [imageSlide; chartSlide] in
  let r := {| r_title := "Sun"; r_content := ["Cheap"; "Clean"];
              r_imagePrompt := "A rising sun"; r_chart := None |} in
  isReadOnlyView st = false /\
  derefSlide st (slides st) (currentSlideIndex st) = Some imageSlide /\
  r_chart r = None /\
  exists cfg1 cfg2,
    run (idle st) [RegenerateContent; Settle 0 (GotContent r)] = Some cfg1 /\
    slides (app cfg1) = slides st /\
    derefSlide (app cfg1) (slides (app cfg1)) (currentSlideIndex st)
      = Some (withImageUrl (Some "loading") imageSlide) /\
    pending cfg1 = [PImage (currentSlideIndex st) (Some (imagePrompt imageSlide)) true] /\
    run cfg1 [Settle 0 (GotImage "BBBB")] = Some cfg2 /\
    slides (app cfg2) = slides st /\
    derefSlide (app cfg2) (slides (app cfg2)) (currentSlideIndex st) =
      Some (withChartData None (withImageUrl (Some (imageDataUrl "BBBB")) imageSlide)) /\
    pending cfg2 = [].
Proof.
  intros st r. split; [reflexivity|]. split; [reflexivity|]. split; [reflexivity|].
  exact (regenerated_content_without_chart_is_dropped st imageSlide r "BBBB"
           eq_refl eq_refl eq_refl).
Defined.

Lemma derefSlide_heap (st1 st : App) arr index :
  heap st1 = heap st -> derefSlide st1 arr index = derefSlide st arr index.
Proof. unfold derefSlide. by intros ->. Qed.

(** X5. Speaker notes: the continuation of [handleGenerateSpeakerNotes]
    calls the [handleUpdateSlide] of the render in which the action was
    started, which copies the slide sequence of that render.  An edit of
    a title made while the call is in flight, on any slide, is therefore
    undone when the notes arrive: every position other than the notes'
    own holds the slide object it held when the action was started, no
    earlier object has changed, and the slide of the action is its value
    of that time with the notes set. *)
Theorem speaker_notes_revert_concurrent_edit
    (st : App) (s sj : Slide) (j : nat) (v text : string) :
  let i := currentSlideIndex st in
  isReadOnlyView st = false ->
  derefSlide st (slides st) i = Some s ->
  derefSlide st (slides st) j = Some sj ->
  exists cfg1 cfg',
    run (idle st) [GenerateSpeakerNotes; EditTitle j v] = Some cfg1 /\
    derefSlide (app cfg1) (slides (app cfg1)) j = Some (withTitle v sj) /\
    run cfg1 [Settle 0 (GotText text)] = Some cfg' /\
    pending cfg' = [] /\
    derefSlide (app cfg') (slides (app cfg')) i = Some (withSpeakerNotes (Some text) s) /\
    (forall k, k <> i -> slides (app cfg') !! k = slides st !! k) /\
    (forall r x, heap st !! r = Some x -> heap (app cfg') !! r = Some x).
Proof.
  intros i Hro Hd Hdj. subst i.
  destruct (derefSlide_inv _ _ _ _ Hd) as (r0 & Harr & Hheap).
  destruct (derefSlide_inv _ _ _ _ Hdj) as (rj & Harrj & Hheapj).
  unfold idle. cbn [run step app pending].
  unfold handleGenerateSpeakerNotes. cbn [app pending]. rewrite Hro, Hd.
  cbn [app pending Datatypes.app].
  unfold handleUpdateSlide at 1.
  cbn [slides isReadOnlyView setActionLoading setSlideActionLoading]. rewrite Hro.
  unfold replaceSlide at 1.
  rewrite (derefSlide_heap _ st) by reflexivity.
  rewrite Hdj. cbn [allocSlide onApp app pending].
  set (st2 := setSlides _ (setHeap _ _)).
  assert (heap st2 = heap st ++ [withTitle v sj]) as Hh2 by reflexivity.
  assert (slides st2 = <[j := length (heap st)]> (slides st)) as Hs2 by reflexivity.
  assert (j < length (slides st)) as Hj by (by apply lookup_lt_Some in Harrj).
  eexists. eexists. split; [reflexivity|]. cbn [app pending].
  split.
  { unfold derefSlide. rewrite Hs2, list_lookup_insert_eq by done.
    rewrite Hh2, lookup_app_r by done. by rewrite Nat.sub_diag. }
  unfold settle. cbn [pending app lookup list_lookup delete list_delete].
  unfold notesSettled, handleUpdateSlide, replaceSlide.
  assert (derefSlide st2 (slides st) (currentSlideIndex st) = Some s) as Hd2.
  { unfold derefSlide. rewrite Harr, Hh2. by apply lookup_app_l_Some. }
  rewrite Hd2. cbn [allocSlide onApp app pending].
  split; [reflexivity|]. split; [reflexivity|].
  cbn [app slides heap setActionLoading setSlideActionLoading setSlides setHeap].
  assert (currentSlideIndex st < length (slides st)) as Hi
    by (by apply lookup_lt_Some in Harr).
  split; [|split].
  - unfold derefSlide.
    cbn [app slides heap setActionLoading setSlideActionLoading setSlides setHeap].
    rewrite list_lookup_insert_eq by done.
    rewrite lookup_app_r by done. by rewrite Nat.sub_diag.
  - intros k Hk. by rewrite list_lookup_insert_ne.
  - intros r x Hx. rewrite Hh2. by do 2 apply lookup_app_l_Some.
Qed.

Lemma speaker_notes_revert_concurrent_edit_witness :
  let st := deckOf [imageSlide; chartSlide] in
  isReadOnlyView st = false /\
  derefSlide st (slides st) (currentSlideIndex st) = Some imageSlide /\
  derefSlide st (slides st) 1 = Some chartSlide /\
  exists cfg1 cfg',
    run (idle st) [GenerateSpeakerNotes; EditTitle 1 "Markets"] = Some cfg1 /\
    derefSlide (app cfg1) (slides (app cfg1)) 1 = Some (withTitle "Markets" chartSlide) /\
    run cfg1 [Settle 0 (GotText "Say hello")] = Some cfg' /\
    pending cfg' = [] /\
    derefSlide (app cfg') (slides (app cfg')) (currentSlideIndex st)
      = Some (withSpeakerNotes (Some "Say hello") imageSlide) /\
    (forall k, k <> currentSlideIndex st -> slides (app cfg') !! k = slides st !! k) /\
    (forall r x, heap st !! r = Some x -> heap (app cfg') !! r = Some x).
Proof.
  intros st. split; [reflexivity|]. split; [reflexivity|]. split; [reflexivity|].
  exact (speaker_notes_revert_concurrent_edit st imageSlide chartSlide 1 "Markets"
           "Say hello" eq_refl eq_refl eq_refl).
Defined.

(** *** Continuations address their slide by position *)

Lemma handleDeleteSlide_run (st : App) (j : nat) :
  1 < length (slides st) -> isReadOnlyView st = false ->
  slides (handleDeleteSlide j st) = delete j (slides st) /\
  heap (handleDeleteSlide j st) = heap st.
Proof.
  intros Hlen Hro. unfold handleDeleteSlide.
  destruct (Nat.leb_spec (length (slides st)) 1) as [?|_]; [lia|].
  rewrite Hro. cbn [orb]. rewrite js_filter_delete.
  by destruct (j <=? currentSlideIndex st).
Qed.

(** What [handleRegenerateImage] does up to its [await], on a slide
    that is there and outside the read-only view. *)
Lemma handleRegenerateImage_run (st : App) (i : nat) (r : ref) (s : Slide)
    (inside : bool) (ps : list Pending) :
  slides st !! i = Some r -> heap st !! r = Some s ->
  handleRegenerateImage (slides st) false inside i {| app := st; pending := ps |} =
    Some {| app := setSlides (slides st)
                     (mutateSlide r (withImageUrl (Some "loading"))
                        (setActionLoading "image" i true st));
            pending := ps ++ [PImage i (Some (imagePrompt s)) inside] |}.
Proof.
  intros Hr Hs. unfold handleRegenerateImage. rewrite Hr. cbn [app pending].
  do 3 f_equal.
  cbn [heap setSlides mutateSlide setHeap setActionLoading setSlideActionLoading].
  rewrite list_lookup_alter_eq, Hs. by destruct s.
Qed.

(** X6. Delete while an image is being regenerated: the continuation of
    [handleRegenerateImage] writes to [updated[index]] with the index of
    the click.  When a slide at or before that index has been deleted in
    the meantime and a slide followed, the image is installed on that
    following slide, which now has the index, and its chart is removed;
    the slide that asked for the image, if it is still in the deck,
    keeps the loading sentinel. *)
Theorem image_settles_on_shifted_slide
    (st : App) (i j : nat) (r r' : ref) (s s' : Slide) (imageBytes : string) :
  isReadOnlyView st = false ->
  j <= i ->
  slides st !! i = Some r -> heap st !! r = Some s ->
  slides st !! S i = Some r' -> heap st !! r' = Some s' ->
  r <> r' ->
  exists cfg',
    run (idle st) [RegenerateImage i; DeleteSlide j; Settle 0 (GotImage imageBytes)]
      = Some cfg' /\
    pending cfg' = [] /\
    slides (app cfg') = delete j (slides st) /\
    slides (app cfg') !! i = Some r' /\
    heap (app cfg') !! r' =
      Some (withChartData None (withImageUrl (Some (imageDataUrl imageBytes)) s')) /\
    heap (app cfg') !! r = Some (withImageUrl (Some "loading") s).
Proof.
  intros Hro Hji Hr Hs Hr' Hs' Hne.
  assert (1 < length (slides st)) as Hlen
    by (apply lookup_lt_Some in Hr'; lia).
  unfold idle. cbn [run step app pending]. rewrite Hro.
  rewrite (handleRegenerateImage_run st i r s false [] Hr Hs).
  cbn [app pending Datatypes.app onApp].
  set (st3 := setSlides (slides st) _).
  destruct (handleDeleteSlide_run st3 j Hlen Hro) as [Hsl Hh].
  change (slides st3) with (slides st) in Hsl.
  assert (slides (handleDeleteSlide j st3) !! i = Some r') as Hi
    by (by rewrite Hsl, list_lookup_delete_ge).
  unfold settle. cbn [pending app lookup list_lookup delete list_delete].
  unfold imageSettled, updateInPlace. rewrite Hi. cbn [onApp app pending].
  eexists. split; [reflexivity|]. cbn [app pending]. split; [reflexivity|].
  cbn [slides heap setActionLoading setSlideActionLoading mutateSlide setHeap].
  rewrite Hh. subst st3.
  cbn [heap setSlides mutateSlide setHeap setActionLoading setSlideActionLoading].
  split; [done|]. split; [done|]. split.
  - rewrite list_lookup_alter_eq, list_lookup_alter_ne, Hs' by done. done.
  - rewrite list_lookup_alter_ne, list_lookup_alter_eq, Hs by done. done.
Qed.

Lemma image_settles_on_shifted_slide_witness :
  let st := deckOf [imageSlide; chartSlide] in
  isReadOnlyView st = false /\ 0 <= 0 /\
  slides st !! 0 = Some 0 /\ heap st !! 0 = Some imageSlide /\
  slides st !! 1 = Some 1 /\ heap st !! 1 = Some chartSlide /\
  0 <> 1 /\
  exists cfg',
    run (idle st) [RegenerateImage 0; DeleteSlide 0; Settle 0 (GotImage "BBBB")]
      = Some cfg' /\
    pending cfg' = [] /\
    slides (app cfg') = delete 0 (slides st) /\
    slides (app cfg') !! 0 = Some 1 /\
    heap (app cfg') !! 1 =
      Some (withChartData None (withImageUrl (Some (imageDataUrl "BBBB")) chartSlide)) /\
    heap (app cfg') !! 0 = Some (withImageUrl (Some "loading") imageSlide).
Proof.
  intros st. repeat (split; [first [reflexivity | lia]|]).
  apply (image_settles_on_shifted_slide st 0 0 0 1 imageSlide chartSlide "BBBB");
    first [reflexivity | lia].
Defined.

(** X7. Delete while an image is being regenerated for the last slide: when
    the call settles, whatever its outcome, there is no slide at the
    index of the click any more, and the assignment to
    [updated[index].imageUrl] throws inside the state updater, which no
    handler catches. *)
Theorem image_settles_after_delete_throws
    (st : App) (i j : nat) (o : Outcome) :
  isReadOnlyView st = false ->
  refsValid st ->
  1 < length (slides st) ->
  length (slides st) = S i ->
  j <= i ->
  run (idle st) [RegenerateImage i; DeleteSlide j; Settle 0 o] = None.
Proof.
  intros Hro Hv Hlen Hlast Hji.
  destruct (refsValid_deref st i Hv ltac:(lia)) as (s & Hd).
  destruct (derefSlide_inv _ _ _ _ Hd) as (r & Hr & Hs).
  unfold idle. cbn [run step app pending]. rewrite Hro.
  rewrite (handleRegenerateImage_run st i r s false [] Hr Hs).
  cbn [app pending Datatypes.app onApp].
  set (st3 := setSlides (slides st) _).
  destruct (handleDeleteSlide_run st3 j Hlen Hro) as [Hsl Hh].
  change (slides st3) with (slides st) in Hsl.
  assert (slides (handleDeleteSlide j st3) !! i = None) as Hi.
  { rewrite Hsl. apply lookup_ge_None_2.
    rewrite length_delete by (apply lookup_lt_is_Some_2; lia). lia. }
  unfold settle. cbn [pending app lookup list_lookup delete list_delete].
  unfold imageSettled, updateInPlace.
  cbn [slides consoleLog]. rewrite Hi. by destruct o.
Qed.

Lemma image_settles_after_delete_throws_witness :
  let st := deckOf [imageSlide; chartSlide] in
  isReadOnlyView st = false /\ refsValid st /\
  1 < length (slides st) /\ length (slides st) = 2 /\ 1 <= 1 /\
  run (idle st) [RegenerateImage 1; DeleteSlide 1; Settle 0 (GotImage "BBBB")] = None.
Proof.
  intros st.
  assert (refsValid st) as Hv by (repeat constructor).
  split; [reflexivity|]. split; [exact Hv|].
  split; [cbn; lia|]. split; [reflexivity|]. split; [lia|].
  apply (image_settles_after_delete_throws st 1 1 (GotImage "BBBB"));
    try reflexivity; try exact Hv; cbn; lia.
Defined.

(** *** Adding a slide *)

Lemma omap_lookup_app (h extra : list Slide) (arr : list ref) :
  Forall (fun r => r < length h) arr ->
  omap (fun r => (h ++ extra) !! r) arr = omap (fun r => h !! r) arr.
Proof.
  induction 1 as [|r arr Hr _ IH]; [done|].
  cbn [omap list_omap]. fold (omap (fun r => (h ++ extra) !! r) arr).
  fold (omap (fun r => h !! r) arr).
  by rewrite IH, lookup_app_l.
Qed.

Lemma delete_last_app {A} (l : list A) (x : A) : delete (length l) (l ++ [x]) = l.
Proof. induction l as [|y l IH]; [done|]. cbn. by f_equal. Qed.

(** X8. Add slide, outside the read-only view, on a deck whose references
    all designate objects: the deck is the old deck followed by the new
    slide, no earlier slide object changes, the cursor is on the new
    slide, and deleting the new slide right away gives back the slide
    sequence of before, with the cursor on its last slide. *)
Theorem add_slide_appends (st : App) :
  isReadOnlyView st = false ->
  refsValid st ->
  let st' := handleAddSlide st in
  deckSlides st' = deckSlides st ++ [newSlide] /\
  currentSlideIndex st' = length (slides st) /\
  derefSlide st' (slides st') (currentSlideIndex st') = Some newSlide /\
  refsValid st' /\
  (forall r x, heap st !! r = Some x -> heap st' !! r = Some x) /\
  (slides st <> [] ->
   slides (handleDeleteSlide (currentSlideIndex st') st') = slides st /\
   currentSlideIndex (handleDeleteSlide (currentSlideIndex st') st')
     = length (slides st) - 1).
Proof.
  intros Hro Hv st'. subst st'. unfold handleAddSlide. rewrite Hro.
  cbn [allocSlide]. fold newSlide.
  set (st' := setCurrentSlideIndex _ _).
  assert (heap st' = heap st ++ [newSlide]) as Hh by reflexivity.
  assert (slides st' = slides st ++ [length (heap st)]) as Hs by reflexivity.
  assert (currentSlideIndex st' = length (slides st)) as Hc.
  { subst st'. cbn [currentSlideIndex setCurrentSlideIndex].
    rewrite length_app. cbn [length]. lia. }
  assert (isReadOnlyView st' = false) as Hro' by exact Hro.
  split.
  { unfold deckSlides. rewrite Hh, Hs, omap_app.
    rewrite (omap_lookup_app _ _ _ Hv). f_equal.
    cbn [omap list_omap]. rewrite lookup_app_r by done. by rewrite Nat.sub_diag. }
  split; [exact Hc|]. split.
  { unfold derefSlide. rewrite Hc, Hs, Hh.
    rewrite lookup_app_r by done. rewrite Nat.sub_diag. cbn [lookup list_lookup].
    rewrite lookup_app_r by done. by rewrite Nat.sub_diag. }
  split.
  { unfold refsValid. rewrite Hh, Hs, length_app. cbn [length].
    apply Forall_app. split; [|repeat constructor; lia].
    eapply Forall_impl; [exact Hv|]. cbn. intros; lia. }
  split; [intros r x Hx; rewrite Hh; by apply lookup_app_l_Some|].
  intros Hne.
  assert (0 < length (slides st)) as Hpos by (destruct (slides st); [done|cbn; lia]).
  assert (1 < length (slides st')) as Hlen
    by (rewrite Hs, length_app; cbn [length]; lia).
  destruct (handleDeleteSlide_run st' (currentSlideIndex st') Hlen Hro') as [Hd _].
  split.
  { rewrite Hd, Hc, Hs. apply delete_last_app. }
  unfold handleDeleteSlide.
  destruct (Nat.leb_spec (length (slides st')) 1) as [?|_]; [lia|].
  rewrite Hro'. cbn [orb]. rewrite Nat.leb_refl.
  cbn [currentSlideIndex setCurrentSlideIndex]. rewrite Hc. lia.
Qed.

Lemma add_slide_appends_witness :
  let st := deckOf [imageSlide; chartSlide] in
  isReadOnlyView st = false /\ refsValid st /\
  let st' := handleAddSlide st in
  deckSlides st' = deckSlides st ++ [newSlide] /\
  currentSlideIndex st' = length (slides st) /\
  derefSlide st' (slides st') (currentSlideIndex st') = Some newSlide /\
  refsValid st' /\
  (forall r x, heap st !! r = Some x -> heap st' !! r = Some x) /\
  (slides st <> [] ->
   slides (handleDeleteSlide (currentSlideIndex st') st') = slides st /\
   currentSlideIndex (handleDeleteSlide (currentSlideIndex st') st')
     = length (slides st) - 1).
Proof.
  intros st.
  assert (refsValid st) as Hv by (repeat constructor).
  split; [reflexivity|]. split; [exact Hv|].
  exact (add_slide_appends st eq_refl Hv).
Defined.

(** *** The generated deck *)

Lemma generatedSlide_settled (c : SlideCalls) (t : string) bullets prompt chart :
  contentCall c = ContentOk bullets prompt chart ->
  let s := generatedSlide c (placeholderSlide t) in
  title s = t /\ content s = bullets /\ imagePrompt s = prompt /\
  speakerNotes s = Some "" /\ layout s = TextLeft /\
  match chart, imageCall c with
  | Some ch, _ => chartData s = Some ch /\ imageUrl s = None
  | None, ImageOk imageBytes =>
      chartData s = None /\ imageUrl s = Some (imageDataUrl imageBytes) /\
      hasImage s = true
  | None, ImageRejected => chartData s = None /\ imageUrl s = Some "error"
  end /\
  imageUrl s <> Some "pending" /\ imageUrl s <> Some "loading" /\
  oneVisual s = true.
Proof.
  unfold generatedSlide. intros ->. cbv zeta.
  destruct chart as [ch|]; [by repeat split|].
  unfold oneVisual, hasChart, hasImage.
  cbn [chartData withImageUrl withImagePrompt
    withContent placeholderSlide title imageUrl speakerNotes layout
    content imagePrompt].
  rewrite andb_false_r.
  destruct (imageCall c) as [|imageBytes]; repeat split; try done;
    try (by rewrite imageDataUrl_not_sentinel);
    intros [= H]; pose proof (imageDataUrl_not_sentinel imageBytes) as Hs;
    rewrite H in Hs; discriminate Hs.
Qed.

(** X9. A run of the slide generation on its own (no continuation of an
    earlier call settles while it runs) that ends on the presentation
    screen: there is one slide per point of the outline, titled by its
    point, with the bullets and the image prompt of its content
    response, empty speaker notes and the text-left layout; and each
    slide holds exactly what its calls gave: the chart of the response
    and no image URL; or, without a chart, the image that arrived and no
    chart; or, when the image call failed, the failed sentinel and no
    chart. No slide is left with the pending or the loading sentinel,
    and none has both a chart and an image. *)
Theorem finished_generation_has_no_placeholder
    (calls : nat -> SlideCalls) (st st' : App) (sel : nat) (o : Outline) :
  selectedOutlineIndex st = Some sel -> outlines st !! sel = Some o ->
  handleGenerateSlidesFromOutline calls st = Some st' ->
  appStep st' = StepPresentation ->
  length (slides st') = length (points o) /\
  forall j t, points o !! j = Some t ->
    exists s bullets prompt chart,
      derefSlide st' (slides st') j = Some s /\
      contentCall (calls j) = ContentOk bullets prompt chart /\
      title s = t /\ content s = bullets /\ imagePrompt s = prompt /\
      speakerNotes s = Some "" /\ layout s = TextLeft /\
      match chart, imageCall (calls j) with
      | Some ch, _ => chartData s = Some ch /\ imageUrl s = None
      | None, ImageOk imageBytes =>
          chartData s = None /\ imageUrl s = Some (imageDataUrl imageBytes) /\
          hasImage s = true
      | None, ImageRejected => chartData s = None /\ imageUrl s = Some "error"
      end /\
      imageUrl s <> Some "pending" /\ imageUrl s <> Some "loading" /\
      oneVisual s = true.
Proof.
  intros Hsel Ho Hrun Hstep.
  destruct (handleGenerateSlidesFromOutline_spec calls st sel o Hsel Ho)
    as (st'' & steps & finished & Hrun' & _ & Hfin & Hfail).
  rewrite Hrun in Hrun'. injection Hrun' as <-.
  destruct finished.
  - destruct (Hfin eq_refl) as (_ & _ & Hok & Hlen & Hslides).
    split; [exact Hlen|]. intros j t Hj.
    assert (contentOk (calls j) = true) as Hc
      by (apply Hok; by apply lookup_lt_Some in Hj).
    unfold contentOk in Hc.
    destruct (contentCall (calls j)) as [| |bullets prompt chart] eqn:Hcall;
      try discriminate Hc.
    exists (generatedSlide (calls j) (placeholderSlide t)), bullets, prompt, chart.
    split; [by apply Hslides|]. split; [done|].
    by apply generatedSlide_settled.
  - destruct (Hfail eq_refl) as (_ & Hout & _). congruence.
Qed.

Lemma finished_generation_has_no_placeholder_witness :
  exists st',
    selectedOutlineIndex outlineState = Some 0 /\
    handleGenerateSlidesFromOutline sampleCalls outlineState = Some st' /\
    appStep st' = StepPresentation /\
    length (slides st') = 3 /\
    (exists s, derefSlide st' (slides st') 0 = Some s /\
       chartData s = Some sampleChart /\ imageUrl s = None) /\
    (exists s, derefSlide st' (slides st') 1 = Some s /\
       chartData s = None /\ imageUrl s = Some "error") /\
    (exists s, derefSlide st' (slides st') 2 = Some s /\
       chartData s = None /\ imageUrl s = Some (imageDataUrl "CCCC")).
Proof.
  assert (appStep <$> handleGenerateSlidesFromOutline sampleCalls outlineState
          = Some StepPresentation) as Hstep by (vm_compute; reflexivity).
  destruct (handleGenerateSlidesFromOutline sampleCalls outlineState)
    as [st'|] eqn:Hr; [|discriminate Hstep].
  injection Hstep as Hstep.
  destruct (finished_generation_has_no_placeholder sampleCalls outlineState st' 0
           {| outline_title := "Problem and solution";
              points := ["Market"; "Costs"; "Outlook"] |}
           eq_refl eq_refl Hr Hstep) as [Hlen Hall].
  exists st'. split; [reflexivity|]. split; [reflexivity|]. split; [exact Hstep|].
  split; [exact Hlen|].
  destruct (Hall 0 "Market" eq_refl)
    as (s0 & b0 & p0 & c0 & Hd0 & Hc0 & _ & _ & _ & _ & _ & Hv0 & _).
  destruct (Hall 1 "Costs" eq_refl)
    as (s1 & b1 & p1 & c1 & Hd1 & Hc1 & _ & _ & _ & _ & _ & Hv1 & _).
  destruct (Hall 2 "Outlook" eq_refl)
    as (s2 & b2 & p2 & c2 & Hd2 & Hc2 & _ & _ & _ & _ & _ & Hv2 & _).
  injection Hc0 as <- <- <-. injection Hc1 as <- <- <-. injection Hc2 as <- <- <-.
  cbn in Hv0, Hv1, Hv2.
  split; [exists s0; split; [exact Hd0|exact Hv0]|].
  split; [exists s1; split; [exact Hd1|exact Hv1]|].
  exists s2. split; [exact Hd2|]. destruct Hv2 as (? & ? & _). by split.
Defined.

(** ** Themes *)

Lemma existsb_theme_In (themes : list CustomTheme) (id : string) :
  existsb (fun t => String.eqb (theme_id t) id) themes = true <->
  exists t, t ∈ themes /\ theme_id t = id.
Proof.
  rewrite existsb_exists. split.
  - intros (t & Hin & Heq). exists t. split; [by apply list_elem_of_In|].
    by apply String.eqb_eq.
  - intros (t & Hin & Heq). exists t. split; [by apply list_elem_of_In|].
    by apply String.eqb_eq.
Qed.

Lemma elem_of_filter_id (themes : list CustomTheme) (id : string) (t : CustomTheme) :
  t ∈ List.filter (fun t => negb (String.eqb (theme_id t) id)) themes <->
  t ∈ themes /\ theme_id t <> id.
Proof.
  by rewrite !list_elem_of_In, List.filter_In, negb_true_iff, String.eqb_neq.
Qed.

(** X10. Deleting a custom theme removes every theme with that id and no
    other; the active theme becomes the built-in dark theme exactly when
    it was the deleted one; and if the active theme resolved to a
    built-in or a custom theme before, it does so afterwards. *)
Theorem delete_custom_theme_keeps_theme_resolved (st : App) (themeId : string) :
  let st' := handleDeleteCustomTheme themeId st in
  (forall t, t ∈ customThemes st' <-> t ∈ customThemes st /\ theme_id t <> themeId) /\
  theme st' = (if String.eqb (theme st) themeId then "dark" else theme st) /\
  (themeResolves st = true -> themeResolves st' = true).
Proof.
  cbv zeta. unfold handleDeleteCustomTheme.
  assert (forall t,
    t ∈ customThemes
          (setCustomThemes
             (List.filter (fun t => negb (String.eqb (theme_id t) themeId))
                (customThemes (if String.eqb (theme st) themeId
                               then setTheme "dark" st else st)))
             (if String.eqb (theme st) themeId then setTheme "dark" st else st))
    <-> t ∈ customThemes st /\ theme_id t <> themeId) as Hmem.
  { intros t. cbn [customThemes setCustomThemes]. rewrite elem_of_filter_id.
    by destruct (String.eqb (theme st) themeId). }
  split; [exact Hmem|]. split.
  { by destruct (String.eqb (theme st) themeId). }
  unfold themeResolves. intros Hres.
  destruct (String.eqb (theme st) themeId) eqn:Hid; [reflexivity|].
  apply String.eqb_neq in Hid.
  apply orb_true_iff in Hres as [Hdef|Hcus]; apply orb_true_iff.
  - left. exact Hdef.
  - right. unfold isCustomTheme in *.
    apply existsb_theme_In in Hcus as (t & Hin & Heq).
    apply existsb_theme_In. exists t. cbn [theme customThemes setCustomThemes].
    split; [|exact Heq]. apply elem_of_filter_id. split; [done|congruence].
Qed.

Lemma custom_id_not_default (suffix : string) :
  isDefaultTheme ("custom-" ++ suffix) = false.
Proof. reflexivity. Qed.

Lemma filter_app_ids (themes extra : list CustomTheme) (id : string) :
  Forall (fun t => theme_id t = id) extra ->
  List.filter (fun t => negb (String.eqb (theme_id t) id)) (themes ++ extra)
  = List.filter (fun t => negb (String.eqb (theme_id t) id)) themes.
Proof.
  intros Hall. rewrite List.filter_app.
  rewrite <- (app_nil_r (List.filter _ themes)) at 2. f_equal.
  induction Hall as [|t extra Ht _ IH]; [done|].
  cbn [List.filter]. by rewrite Ht, String.eqb_refl.
Qed.

(** X11. Saving a theme from the theme creator makes it the active theme,
    which then resolves to a custom theme and never to a built-in one.
    The id is made of the clock alone: two themes saved within the same
    millisecond get the same id, and deleting either of them deletes
    both and falls back to the dark theme. *)
Theorem saved_themes_can_share_an_id (now : N) (d1 d2 : CustomTheme) (st : App) :
  trim (theme_name d1) <> "" -> trim (theme_name d2) <> "" ->
  let id := ("custom-" ++ pretty now)%string in
  let st1 := handleSave now d1 st in
  let st2 := handleSave now d2 st1 in
  theme st1 = id /\ isDefaultTheme id = false /\
  themeResolves st1 = true /\ themeClassName st1 = "theme-custom" /\
  theme st2 = id /\
  length (customThemes st2) = 2 + length (customThemes st) /\
  customThemes (handleDeleteCustomTheme id st2) =
    List.filter (fun t => negb (String.eqb (theme_id t) id)) (customThemes st) /\
  theme (handleDeleteCustomTheme id st2) = "dark".
Proof.
  intros H1 H2 id st1 st2. subst st1 st2. unfold handleSave.
  apply String.eqb_neq in H1, H2. rewrite H1, H2.
  unfold handleSaveCustomTheme. cbn [theme_id theme customThemes setTheme setCustomThemes].
  fold id.
  assert (forall themes d,
    existsb (fun t => String.eqb (theme_id t) id)
      (themes ++ [{| theme_id := id; theme_name := theme_name d;
                     bg_primary := bg_primary d; bg_secondary := bg_secondary d;
                     text_primary := text_primary d;
                     text_secondary := text_secondary d;
                     accent_primary := accent_primary d |}]) = true) as Hex.
  { intros themes d. rewrite existsb_app. cbn [existsb theme_id].
    by rewrite String.eqb_refl, orb_true_r. }
  split; [done|]. split; [apply custom_id_not_default|].
  split.
  { unfold themeResolves, isCustomTheme.
    cbn [theme customThemes setTheme setCustomThemes]. by rewrite Hex, orb_true_r. }
  split.
  { unfold themeClassName, isCustomTheme.
    cbn [theme customThemes setTheme setCustomThemes]. by rewrite Hex. }
  split; [done|]. split.
  { rewrite !length_app. cbn [length]. lia. }
  unfold handleDeleteCustomTheme.
  cbn [theme customThemes setTheme setCustomThemes]. rewrite String.eqb_refl.
  cbn [theme customThemes setTheme setCustomThemes]. split; [|done].
  rewrite <- app_assoc. apply filter_app_ids. by repeat constructor.
Qed.

Lemma saved_themes_can_share_an_id_witness :
  let d := {| theme_id := ""; theme_name := "My Custom Theme";
              bg_primary := "#121212"; bg_secondary := "#1e1e1e";
              text_primary := "#f1f1f1"; text_secondary := "#a0a0a0";
              accent_primary := "#3b82f6" |} in
  let now := 1700000000000%N in
  trim (theme_name d) <> "" /\
  let id := ("custom-" ++ pretty now)%string in
  let st1 := handleSave now d initialApp in
  let st2 := handleSave now d st1 in
  theme st1 = id /\ isDefaultTheme id = false /\
  themeResolves st1 = true /\ themeClassName st1 = "theme-custom" /\
  theme st2 = id /\
  length (customThemes st2) = 2 + length (customThemes initialApp) /\
  customThemes (handleDeleteCustomTheme id st2) =
    List.filter (fun t => negb (String.eqb (theme_id t) id)) (customThemes initialApp) /\
  theme (handleDeleteCustomTheme id st2) = "dark".
Proof.
  intros d now. split; [discriminate|].
  apply (saved_themes_can_share_an_id now d d initialApp); discriminate.
Defined.

(** ** Share links: further properties *)

Lemma find_none_ids (themes : list CustomTheme) (id : string) :
  (forall t, t ∈ themes -> theme_id t <> id) ->
  List.find (fun t => String.eqb (theme_id t) id) themes = None.
Proof.
  induction themes as [|t0 themes IH]; intros Hno; [done|]. cbn [List.find].
  destruct (String.eqb_spec (theme_id t0) id) as [He|_].
  - destruct (Hno t0); [left|done].
  - apply IH. intros t Ht. apply Hno. by right.
Qed.

Lemma find_some_ids (themes : list CustomTheme) (id : string) (t : CustomTheme) :
  t ∈ themes -> theme_id t = id ->
  is_Some (List.find (fun t => String.eqb (theme_id t) id) themes).
Proof.
  induction themes as [|t0 themes IH]; intros Hin He; [by apply elem_of_nil in Hin|].
  cbn [List.find]. destruct (String.eqb (theme_id t0) id) eqn:H0; [by eexists|].
  apply elem_of_cons in Hin as [->|Hin]; [|by apply IH].
  apply String.eqb_neq in H0. by destruct H0.
Qed.

Lemma customThemesOfJson_themes (themes : list CustomTheme) :
  customThemesOfJson (reread (JArr (List.map customThemeToJson themes))) = Some themes.
Proof.
  unfold customThemesOfJson. cbn [reread asArray]. rewrite List.map_map.
  rewrite (traverse_map _ _ (fun t => t)); [by rewrite List.map_id|].
  apply customThemeOfJson_customThemeToJson.
Qed.

Lemma loadSavedThemes_saved (themes : list CustomTheme) (st : App) :
  loadSavedThemes (Some (savedThemesText themes)) st = Some (setCustomThemes themes st).
Proof.
  unfold loadSavedThemes, savedThemesText.
  rewrite JSON_parse_stringify, customThemesOfJson_themes.
  cbn [stringify]. by rewrite string_app_cons.
Qed.

(** X12. The custom theme of a share link, on load.  The link of a deck
    whose active theme is the custom theme [t] carries [t], and the
    effect of the link merges it into the custom themes by its id: the
    updater leaves a list that has a theme of that id as it is, and
    appends [t] to a list that has none.  On load it runs on the empty
    list of the first render, so after the effect of the link alone the
    custom themes are [t] alone.  The effect of the stored themes runs
    next: when local storage holds the text that the application saved
    for a list of themes, that list replaces the merged one, and the
    shared deck shows the colours of [t] only if the stored list has a
    theme of its id; otherwise the active theme id is the id of no
    theme of the session.  Without stored text (no item, or the empty
    text) the merged list stays. *)
Theorem shared_custom_theme_on_load
    (st : App) (t : CustomTheme) (stored : option (list CustomTheme)) :
  theme st <> "" -> activeCustomTheme st = Some t ->
  let hash := shareFragment st in
  theme_id t = theme st /\
  (forall prev t',
     t' ∈ prev -> theme_id t' = theme_id t -> mergeCustomTheme t prev = prev) /\
  (forall prev,
     (forall t', t' ∈ prev -> theme_id t' <> theme_id t) ->
     mergeCustomTheme t prev = prev ++ [t]) /\
  (exists st1,
     loadShared hash initialApp = Some (st1, hash) /\
     customThemes st1 = [t] /\ theme st1 = theme st /\ isCustomTheme st1 = true /\
     loadSavedThemes None st1 = Some st1 /\
     loadSavedThemes (Some EmptyString) st1 = Some st1) /\
  (exists st2,
     loadEffects hash (option_map savedThemesText stored) initialApp
       = Some (st2, hash) /\
     theme st2 = theme st /\ isReadOnlyView st2 = true /\
     appStep st2 = StepPresentation /\
     customThemes st2 = default [t] stored /\
     (isCustomTheme st2 = true <->
      match stored with
      | Some themes => exists t', t' ∈ themes /\ theme_id t' = theme st
      | None => True
      end)).
Proof.
  intros Hne Hact hash.
  assert (theme_id t = theme st) as Hid.
  { unfold activeCustomTheme in Hact. apply List.find_some in Hact as [_ He].
    by apply String.eqb_eq in He. }
  split; [exact Hid|]. split.
  { intros prev t' Hin He. unfold mergeCustomTheme.
    by destruct (find_some_ids prev (theme_id t) t' Hin He) as [x ->]. }
  split.
  { intros prev Hno. unfold mergeCustomTheme. by rewrite find_none_ids. }
  pose proof (loadShared_shareFragment st initialApp Hne) as Hload.
  cbv zeta in Hload. rewrite Hact in Hload. fold hash in Hload.
  change (mergeCustomTheme t (customThemes initialApp)) with [t] in Hload.
  assert (forall st0 : App, theme st0 = theme st -> customThemes st0 = [t] ->
                            isCustomTheme st0 = true) as Histheme.
  { intros st0 Ht Hc. unfold isCustomTheme. rewrite Hc, Ht. cbn [existsb].
    rewrite Hid. by rewrite String.eqb_refl. }
  split.
  { eexists. split; [exact Hload|]. split; [done|]. split; [done|].
    split; [by apply Histheme|]. by split. }
  unfold loadEffects. rewrite Hload.
  destruct stored as [themes|]; cbn [option_map default].
  - rewrite loadSavedThemes_saved. eexists. split; [reflexivity|].
    split; [done|]. split; [done|]. split; [done|]. split; [done|].
    unfold isCustomTheme.
    cbn [customThemes theme setCustomThemes setAppStep setIsReadOnlyView setTheme].
    by rewrite existsb_theme_In.
  - cbn [loadSavedThemes]. eexists. split; [reflexivity|].
    split; [done|]. split; [done|]. split; [done|]. split; [done|].
    split; [done|]. intros _. by apply Histheme.
Qed.

Lemma shared_custom_theme_on_load_witness :
  let st := setTheme "custom-1700000000000"
              (setCustomThemes [oceanTheme] (deckOf [imageSlide])) in
  theme st <> "" /\ activeCustomTheme st = Some oceanTheme /\
  savedThemesText [] = "[]" /\
  (exists st1,
     loadShared (shareFragment st) initialApp = Some (st1, shareFragment st) /\
     customThemes st1 = [oceanTheme] /\ isCustomTheme st1 = true) /\
  (exists st2,
     loadEffects (shareFragment st) (Some "[]") initialApp
       = Some (st2, shareFragment st) /\
     theme st2 = "custom-1700000000000" /\ isReadOnlyView st2 = true /\
     customThemes st2 = [] /\ isCustomTheme st2 = false /\
     themeResolves st2 = false).
Proof.
  intros st.
  destruct (shared_custom_theme_on_load st oceanTheme (Some [])
              ltac:(discriminate) eq_refl)
    as (_ & _ & _ & (st1 & Hl1 & Hc1 & _ & Hi1 & _) & (st2 & Hl2 & Ht2 & Hr2 & _ & Hc2 & Hi2)).
  split; [discriminate|]. split; [reflexivity|]. split; [reflexivity|].
  split; [exists st1; split; [exact Hl1|split; [exact Hc1|exact Hi1]]|].
  exists st2. split; [exact Hl2|]. split; [exact Ht2|]. split; [exact Hr2|].
  split; [exact Hc2|].
  assert (isCustomTheme st2 = false) as Hno.
  { unfold isCustomTheme. cbn [default] in Hc2. by rewrite Hc2. }
  split; [exact Hno|]. unfold themeResolves. rewrite Hno, Ht2. reflexivity.
Defined.

Lemma locationHash_app (location rest : string) :
  containsChar "#" location = false ->
  locationHash (location ++ String "#" rest) = String "#" rest.
Proof.
  induction location as [|c location IH]; intros Hno.
  - by rewrite string_app_nil.
  - rewrite string_app_cons. cbn [locationHash containsChar] in *.
    apply orb_false_iff in Hno as [Hc Hno].
    change (ascii_of_nat 35) with "#"%char. rewrite Hc. by apply IH.
Qed.

(** X13. The link that [handlePublish] shows, for an address without a
    fragment of its own: its fragment is the share fragment, and the
    effect that runs on load never takes its error path on it; it
    leaves the page untouched exactly when the theme id is the empty
    string, and opens the shared deck otherwise. *)
Theorem published_link_is_recognised (location : string) (st : App) :
  containsChar "#" location = false ->
  locationHash (handlePublish location st) = shareFragment st /\
  shareEffect (locationHash (handlePublish location st)) <> ShareFailed /\
  (shareEffect (locationHash (handlePublish location st)) = Untouched
   <-> theme st = "").
Proof.
  intros Hno.
  assert (locationHash (handlePublish location st) = shareFragment st) as ->.
  { unfold handlePublish, shareFragment.
    change ("#share=" ++ ?x)%string with (String "#" ("share=" ++ x)).
    by apply locationHash_app. }
  split; [done|]. rewrite shareEffect_shareFragment.
  destruct (String.eqb (theme st) "") eqn:He.
  - apply String.eqb_eq in He. by split.
  - apply String.eqb_neq in He. split; [done|]. split; [done|].
    intros ?. by destruct He.
Qed.

Lemma published_link_is_recognised_witness :
  let location := "https://slides.example/app/" in
  let st := deckOf [imageSlide; chartSlide] in
  containsChar "#" location = false /\
  locationHash (handlePublish location st) = shareFragment st /\
  shareEffect (locationHash (handlePublish location st)) <> ShareFailed /\
  (shareEffect (locationHash (handlePublish location st)) = Untouched
   <-> theme st = "").
Proof.
  intros location st. split; [reflexivity|].
  apply (published_link_is_recognised location st). reflexivity.
Defined.





(** ** The content editor *)

Lemma split_nonempty (sep : ascii) (s : string) : split sep s <> [].
Proof.
  induction s as [|c s IH]; cbn [split]; [done|].
  destruct (Ascii.eqb c sep); [done|]. by destruct (split sep s).
Qed.

Lemma join_cons (sep x : string) (l : list string) :
  l <> [] -> join sep (x :: l) = (x ++ sep ++ join sep l)%string.
Proof. by destruct l. Qed.

Lemma join_split (v : string) : join (String LF EmptyString) (split LF v) = v.
Proof.
  induction v as [|c v IH]; cbn [split]; [done|].
  destruct (Ascii.eqb_spec c LF) as [->|Hne].
  - rewrite join_cons by apply split_nonempty.
    by rewrite IH, string_app_nil, string_app_cons, string_app_nil.
  - pose proof (split_nonempty LF v) as Hs.
    destruct (split LF v) as [|w ws]; [done|].
    destruct ws as [|w' ws].
    + cbn [join] in *. by rewrite IH.
    + rewrite join_cons in * by done. by rewrite string_app_cons, IH.
Qed.

Lemma split_app_sep (c : ascii) (x rest : string) :
  containsChar c x = false ->
  split c (x ++ String c rest) = x :: split c rest.
Proof.
  induction x as [|a x IH]; intros Hno.
  - by rewrite string_app_nil; cbn [split]; rewrite Ascii.eqb_refl.
  - cbn [containsChar] in Hno. apply orb_false_iff in Hno as [Ha Hno].
    rewrite string_app_cons. cbn [split]. rewrite Ha, IH by done. done.
Qed.

Lemma split_no_sep (c : ascii) (x : string) :
  containsChar c x = false -> split c x = [x].
Proof.
  induction x as [|a x IH]; intros Hno; [done|].
  cbn [containsChar] in Hno. apply orb_false_iff in Hno as [Ha Hno].
  cbn [split]. by rewrite Ha, IH.
Qed.

Lemma split_join (l : list string) :
  l <> [] -> Forall (fun x => containsChar LF x = false) l ->
  split LF (join (String LF EmptyString) l) = l.
Proof.
  intros Hne Hall. induction Hall as [|x l Hx Hall IH]; [done|].
  destruct l as [|y l]; [by apply split_no_sep|].
  rewrite join_cons by done.
  rewrite string_app_cons, string_app_nil, split_app_sep by done.
  f_equal. by apply IH.
Qed.

(** X15. The content editor: what is typed into the content field is split
    at the line feeds, and the field shows the bullets joined by line
    feeds.  After an edit the slide is a new object whose other fields
    are unchanged and whose field shows exactly the typed text; its
    bullet list is never empty (clearing the field leaves one empty
    bullet); and bullets without line feeds, at least one, come back
    from the text the field shows for them. *)
Theorem content_editor_shows_what_was_typed
    (st : App) (index : nat) (s : Slide) (value : string) :
  isReadOnlyView st = false ->
  derefSlide st (slides st) index = Some s ->
  (exists cfg',
     step (idle st) (EditContent index value) = Some cfg' /\
     derefSlide (app cfg') (slides (app cfg')) index
       = Some (withContent (split LF value) s) /\
     contentText (withContent (split LF value) s) = value /\
     content (withContent (split LF value) s) <> []) /\
  (forall bullets,
     bullets <> [] -> Forall (fun b => containsChar LF b = false) bullets ->
     split LF (contentText (withContent bullets s)) = bullets).
Proof.
  intros Hro Hd. split.
  - unfold idle. cbn [step app pending]. rewrite Hro.
    unfold handleUpdateSlide.
    destruct (replaceSlide_run st (slides st) index
                (withField (FContent (split LF value))) s Hd)
      as (st' & Hrun & _ & _ & Hd').
    rewrite Hrun. cbn [onApp]. eexists. split; [reflexivity|]. cbn [app].
    split; [exact Hd'|]. unfold contentText.
    replace (content (withContent (split LF value) s)) with (split LF value)
      by (by destruct s).
    split; [apply join_split|apply split_nonempty].
  - intros bullets Hne Hall. unfold contentText.
    replace (content (withContent bullets s)) with bullets by (by destruct s).
    by apply split_join.
Qed.

Lemma content_editor_shows_what_was_typed_witness :
  let st := deckOf [imageSlide; chartSlide] in
  let value := ("Cheap" ++ String LF "Clean")%string in
  isReadOnlyView st = false /\
  derefSlide st (slides st) 0 = Some imageSlide /\
  (exists cfg',
     step (idle st) (EditContent 0 value) = Some cfg' /\
     derefSlide (app cfg') (slides (app cfg')) 0
       = Some (withContent (split LF value) imageSlide) /\
     contentText (withContent (split LF value) imageSlide) = value /\
     content (withContent (split LF value) imageSlide) <> []) /\
  (forall bullets,
     bullets <> [] -> Forall (fun b => containsChar LF b = false) bullets ->
     split LF (contentText (withContent bullets imageSlide)) = bullets).
Proof.
  intros st value. split; [reflexivity|]. split; [reflexivity|].
  exact (content_editor_shows_what_was_typed st 0 imageSlide value eq_refl eq_refl).
Defined.

(** ** Full-screen presentation *)

Lemma handleKeyDown_range (len : nat) (k : Key) (p : Presenting) :
  (0 <= currentIndex p < Z.of_nat len)%Z ->
  (0 <= currentIndex (handleKeyDown len k p) < Z.of_nat len)%Z.
Proof.
  intros Hr. unfold handleKeyDown.
  destruct (isPresenting p), k; cbn [currentIndex]; lia.
Qed.

Lemma pressKeys_right (len n : nat) (i : Z) :
  pressKeys len (repeat ArrowRight n) {| currentIndex := i; isPresenting := true |}
  = {| currentIndex := if n is 0 then i
                       else Z.min (Z.of_nat len - 1) (i + Z.of_nat n);
       isPresenting := true |}.
Proof.
  revert i. induction n as [|n IH]; intros i; [done|].
  cbn [repeat pressKeys fold_left]. unfold pressKeys in IH.
  cbn [handleKeyDown isPresenting currentIndex]. rewrite IH.
  f_equal. destruct n; lia.
Qed.

Lemma pressKeys_left (len n : nat) (i : Z) :
  pressKeys len (repeat ArrowLeft n) {| currentIndex := i; isPresenting := true |}
  = {| currentIndex := if n is 0 then i else Z.max 0 (i - Z.of_nat n);
       isPresenting := true |}.
Proof.
  revert i. induction n as [|n IH]; intros i; [done|].
  cbn [repeat pressKeys fold_left]. unfold pressKeys in IH.
  cbn [handleKeyDown isPresenting currentIndex]. rewrite IH.
  f_equal. destruct n; lia.
Qed.

(** X16. The keyboard of the full-screen presentation, on a deck with a
    slide and started on one of its slides: whatever keys are pressed,
    the index stays on a slide of the deck; moving right [n] times stops
    at the last slide and moving left [n] times stops at the first;
    after Escape no key moves the index. *)
Theorem presentation_keys_stay_in_range (len : nat) (i : Z) (ks : list Key) :
  (0 <= i < Z.of_nat len)%Z ->
  let start := {| currentIndex := i; isPresenting := true |} in
  (0 <= currentIndex (pressKeys len ks start) < Z.of_nat len)%Z /\
  (forall n, 0 < n ->
     currentIndex (pressKeys len (repeat ArrowRight n) start)
       = Z.min (Z.of_nat len - 1) (i + Z.of_nat n) /\
     currentIndex (pressKeys len (repeat ArrowLeft n) start)
       = Z.max 0 (i - Z.of_nat n)) /\
  pressKeys len (Escape :: ks) start = {| currentIndex := i; isPresenting := false |}.
Proof.
  intros Hi start. split; [|split].
  - assert (0 <= currentIndex start < Z.of_nat len)%Z as H0 by exact Hi.
    revert H0. generalize start. clear.
    induction ks as [|k ks IH]; intros p Hp; [done|].
    cbn [pressKeys fold_left]. apply IH. by apply handleKeyDown_range.
  - intros n Hn. unfold start. rewrite pressKeys_right, pressKeys_left.
    by destruct n; [lia|].
  - unfold start. cbn [pressKeys fold_left handleKeyDown isPresenting currentIndex].
    clear. induction ks as [|k ks IH]; [done|].
    cbn [fold_left]. exact IH.
Qed.

Lemma presentation_keys_stay_in_range_witness :
  let ks := [ArrowRight; Space; ArrowRight; ArrowLeft; OtherKey; ArrowRight] in
  let start := {| currentIndex := 1; isPresenting := true |} in
  (0 <= 1 < Z.of_nat 3)%Z /\
  (0 <= currentIndex (pressKeys 3 ks start) < Z.of_nat 3)%Z /\
  (forall n, 0 < n ->
     currentIndex (pressKeys 3 (repeat ArrowRight n) start)
       = Z.min (Z.of_nat 3 - 1) (1 + Z.of_nat n) /\
     currentIndex (pressKeys 3 (repeat ArrowLeft n) start)
       = Z.max 0 (1 - Z.of_nat n)) /\
  pressKeys 3 (Escape :: ks) start = {| currentIndex := 1; isPresenting := false |}.
Proof.
  intros ks start. split; [lia|].
  apply (presentation_keys_stay_in_range 3 1 ks). lia.
Defined.

(** ** Export: the file name *)

Lemma fileNameChar_of (c : ascii) :
  let c' := toLowerChar (if isAlphaNumeric c then c else "_"%char) in
  isFileNameChar c' = true /\
  toLowerChar (if isAlphaNumeric c' then c' else "_"%char) = c'.
Proof. by destruct c as [[] [] [] [] [] [] [] []]. Qed.

Lemma safe_file_name_chars (baseName : string) :
  allChars isFileNameChar (safeFileName baseName) = true.
Proof.
  unfold safeFileName. induction baseName as [|c s IH]; [done|].
  cbn [replaceNonAlphaNumeric toLowerCase allChars].
  destruct (fileNameChar_of c) as [Hc _]. cbv zeta in Hc. by rewrite Hc, IH.
Qed.

(** X17. The name of the exported file: [safeFileName] keeps the length of
    its argument, returns only lower-case ASCII letters, digits and
    underscores, and applied to its own result changes nothing. *)
Theorem safe_file_name_is_safe (baseName : string) :
  String.length (safeFileName baseName) = String.length baseName /\
  allChars isFileNameChar (safeFileName baseName) = true /\
  safeFileName (safeFileName baseName) = safeFileName baseName.
Proof.
  unfold safeFileName.
  induction baseName as [|c s (IH1 & IH2 & IH3)]; [done|].
  cbn [replaceNonAlphaNumeric toLowerCase String.length allChars].
  destruct (fileNameChar_of c) as [Hc Hi]. cbv zeta in Hc, Hi.
  rewrite IH1, IH2, IH3, Hc, Hi. done.
Qed.

(** ** The earlier version: reordering *)

(** X18. Reordering in the earlier version: the cursor is compared with
    [dragItem.current] after that reference has been reset, so it is
    never moved.  When the slide under the cursor is dragged to another
    valid position of a deck without repeated objects, the slide
    sequence is the one the current version produces, with the dragged
    slide at its destination, but the cursor stays where it was, on
    another slide, where the current version moves it along. *)
Theorem old_drag_sort_never_moves_the_cursor (st : App) (src dst : nat) (r : ref) :
  dragItem st = Some src -> dragOverItem st = Some dst -> src <> dst ->
  slides st !! src = Some r -> dst < length (slides st) ->
  NoDup (slides st) -> currentSlideIndex st = src ->
  isReadOnlyView st = false ->
  exists st' st2,
    Part000.handleDragSort st = Some st' /\
    handleDragSort st = Some st2 /\
    slides st' = slides st2 /\
    slides st' !! dst = Some r /\
    currentSlideIndex st' = currentSlideIndex st /\
    slides st' !! currentSlideIndex st' <> Some r /\
    slides st2 !! currentSlideIndex st2 = Some r.
Proof.
  intros Hs Hd Hne Hr Hdst Hnd Hcur Hro.
  assert (src < length (slides st)) as Hsrc by (by apply lookup_lt_Some in Hr).
  assert (dst <= length (delete src (slides st))) as Hle
    by (rewrite length_delete_lt by done; lia).
  unfold Part000.handleDragSort. rewrite Hs, Hd, Hr.
  rewrite (handleDragSort_run st src dst r Hs Hd Hne Hro Hr).
  rewrite splice_out_delete.
  eexists. eexists. split; [reflexivity|]. split; [reflexivity|].
  cbn [slides currentSlideIndex setSlides setDragRefs setCurrentSlideIndex
       dragItem dragOverItem].
  split; [done|].
  assert (splice_in dst r (delete src (slides st)) !! dst = Some r) as Hat
    by (by apply lookup_splice_in_eq).
  split; [exact Hat|]. split; [done|]. split.
  - rewrite Hcur. intros Hat'.
    assert (NoDup (splice_in dst r (delete src (slides st)))) as Hnd'.
    { rewrite splice_in_Permutation.
      by rewrite <- (delete_Permutation _ _ _ Hr). }
    apply Hne. exact (NoDup_lookup _ _ _ _ Hnd' Hat' Hat).
  - unfold dragSortIndex. rewrite Hcur, Nat.eqb_refl. exact Hat.
Qed.

Lemma old_drag_sort_never_moves_the_cursor_witness :
  let st := setCurrentSlideIndex 0 threeSlideDeck in
  dragItem st = Some 0 /\ dragOverItem st = Some 2 /\ 0 <> 2 /\
  slides st !! 0 = Some 0 /\ 2 < length (slides st) /\ NoDup (slides st) /\
  currentSlideIndex st = 0 /\ isReadOnlyView st = false /\
  exists st' st2,
    Part000.handleDragSort st = Some st' /\
    handleDragSort st = Some st2 /\
    slides st' = slides st2 /\
    slides st' !! 2 = Some 0 /\
    currentSlideIndex st' = currentSlideIndex st /\
    slides st' !! currentSlideIndex st' <> Some 0 /\
    slides st2 !! currentSlideIndex st2 = Some 0.
Proof.
  intros st.
  assert (NoDup (slides st)) as Hnd.
  { change (NoDup [0; 1; 2]).
    repeat (apply NoDup_cons_2; [rewrite ?elem_of_cons, elem_of_nil; lia|]).
    apply NoDup_nil_2. }
  repeat (split; [first [reflexivity | lia | exact Hnd | cbn; lia]|]).
  apply (old_drag_sort_never_moves_the_cursor st 0 2 0);
    first [reflexivity | lia | exact Hnd | cbn; lia].
Defined.

(** ** Outlines without content *)

(** X19. Two answers of the outline request that the schema does not rule
    out.  An empty list of outlines: outline 0 is selected although
    there is none, and generating slides lands in the [catch]: back on
    the outline screen with the error text and no slide.  An outline
    without points: generation completes at once, without any remote
    call, on the presentation screen with an empty deck. *)
Theorem generation_from_degenerate_outlines
    (calls : nat -> SlideCalls) (st : App) (t : string) :
  trim (topic st) <> "" ->
  (let st1 := handleGenerateOutlines (OutlinesOk []) st in
   appStep st1 = StepOutline /\ selectedOutlineIndex st1 = Some 0 /\
   exists st2,
     handleGenerateSlidesFromOutline calls st1 = Some st2 /\
     appStep st2 = StepOutline /\ slides st2 = [] /\
     progressText st2 = "An error occurred. Please try again.") /\
  (let st1 :=
     handleGenerateOutlines (OutlinesOk [{| outline_title := t; points := [] |}]) st in
   exists st2,
     handleGenerateSlidesFromOutline calls st1 = Some st2 /\
     appStep st2 = StepPresentation /\ slides st2 = [] /\
     progressReports st2 = progressReports st ++ [0; 100; 0; 100]%Q).
Proof.
  intros Htopic. apply String.eqb_neq in Htopic.
  unfold handleGenerateOutlines. rewrite Htopic. split.
  - cbv zeta. split; [done|]. split; [done|]. eexists. split; [reflexivity|]. done.
  - cbv zeta. eexists. split; [reflexivity|]. split; [done|]. split; [done|].
    cbn. by rewrite <- !app_assoc.
Qed.

Lemma generation_from_degenerate_outlines_witness :
  trim (topic outlineState) <> "" /\
  (let st1 := handleGenerateOutlines (OutlinesOk []) outlineState in
   appStep st1 = StepOutline /\ selectedOutlineIndex st1 = Some 0 /\
   exists st2,
     handleGenerateSlidesFromOutline sampleCalls st1 = Some st2 /\
     appStep st2 = StepOutline /\ slides st2 = [] /\
     progressText st2 = "An error occurred. Please try again.") /\
  (let st1 :=
     handleGenerateOutlines (OutlinesOk [{| outline_title := "Empty"; points := [] |}])
       outlineState in
   exists st2,
     handleGenerateSlidesFromOutline sampleCalls st1 = Some st2 /\
     appStep st2 = StepPresentation /\ slides st2 = [] /\
     progressReports st2 = progressReports outlineState ++ [0; 100; 0; 100]%Q).
Proof.
  split; [discriminate|].
  apply (generation_from_degenerate_outlines sampleCalls outlineState "Empty").
  discriminate.
Defined.

Lemma delete_custom_theme_keeps_theme_resolved_witness :
  let t := {| theme_id := "custom-1"; theme_name := "Mine";
              bg_primary := "#121212"; bg_secondary := "#1e1e1e";
              text_primary := "#f1f1f1"; text_secondary := "#a0a0a0";
              accent_primary := "#3b82f6" |} in
  let st := handleSaveCustomTheme t initialApp in
  let st' := handleDeleteCustomTheme "custom-1" st in
  themeResolves st = true /\ theme st = "custom-1" /\
  (forall t0, t0 ∈ customThemes st' <-> t0 ∈ customThemes st /\ theme_id t0 <> "custom-1") /\
  theme st' = (if String.eqb (theme st) "custom-1" then "dark" else theme st) /\
  themeResolves st' = true.
Proof.
  intros t st st'.
  destruct (delete_custom_theme_keeps_theme_resolved st "custom-1") as (H1 & H2 & H3).
  split; [reflexivity|]. split; [reflexivity|]. split; [exact H1|].
  split; [exact H2|]. apply H3. reflexivity.
Defined.

(** ** Export to PPTX *)

Lemma validImage_not_sentinel (u : string) :
  startsWith u "data:image" = true -> isSentinel u = false.
Proof.
  intros Hp. unfold isSentinel.
  destruct (String.eqb_spec u "pending") as [->|_]; [done|].
  destruct (String.eqb_spec u "loading") as [->|_]; [done|].
  destruct (String.eqb_spec u "error") as [->|_]; done.
Qed.

(** X20. One slide of the exported file.  It has a chart exactly when the
    slide has chart data, also when the slide holds an image as well.
    Image data is embedded, as background or as picture, only if it is
    the image URL of a slide without chart data and starts with
    [data:image]; so no sentinel is ever embedded.  Title and bullets
    share their position and width.  A chart or picture placed beside
    the text takes the other half: text at [0.5] and visual at [50%]
    for the text-left layout, the other way round otherwise.  Over a
    background picture, which only the full-image layout produces, the
    text is white whatever the theme. *)
Theorem exported_slide_layout (dark : bool) (s : Slide) :
  let p := exportSlide dark s in
  ((exists type data x w, pptx_visual p = ChartVisual type data x w)
   <-> hasChart s = true) /\
  (forall data, embeddedImage p = Some data ->
     imageUrl s = Some data /\ startsWith data "data:image" = true /\
     isSentinel data = false /\ chartData s = None) /\
  box_text (pptx_title p) = title s /\
  box_text (pptx_body p) = contentText s /\
  box_x (pptx_title p) = box_x (pptx_body p) /\
  box_w (pptx_title p) = box_w (pptx_body p) /\
  (forall x, besideText p = Some x ->
     layout s <> ImageFull /\
     box_w (pptx_body p) = FortyFivePercent /\
     box_x (pptx_body p) = (if layout s is TextLeft then HalfInch else FiftyPercent) /\
     x = (if layout s is TextLeft then FiftyPercent else HalfInch)) /\
  (forall data, pptx_background p = BgData data ->
     layout s = ImageFull /\
     box_color (pptx_title p) = "FFFFFF" /\ box_color (pptx_body p) = "FFFFFF").
Proof.
  cbv zeta. unfold exportSlide, validImage, hasChart, embeddedImage, besideText.
  destruct s as [t c pr u n l ch]. cbn [chartData layout imageUrl title].
  destruct ch as [chart|], l, u as [u|];
    try destruct (startsWith u "data:image") eqn:Hu;
    cbn [pptx_visual pptx_background pptx_title pptx_body box_text box_x box_w
         box_color];
    (split; [split; [first [by intros (? & ? & ? & ? & ?) | done]
                    |first [done | by intros; eexists _, _, _, _]]|]);
    repeat split; try done;
    try (by intros ? [= <-]);
    simplify_eq; first [done | by apply validImage_not_sentinel].
Qed.

Lemma hex_digit_compare (c : ascii) (v : nat) :
  hexValue c = Some v ->
  Ascii.compare (toLowerChar c) "8" = Nat.compare v 8 /\ v < 16.
Proof.
  destruct c as [[] [] [] [] [] [] [] []]; cbn; intros [= <-]; split;
    first [reflexivity | lia].
Qed.

(** X21. The colours of the export for a custom theme whose primary
    background is a colour [#rrggbb] (hexadecimal digits of either
    case), the active theme not being the dark one: comparing the
    lower-cased colour with ['#888888'] as strings decides as the
    comparison of the numbers does; the theme counts as dark, with
    white text on [121212], exactly when the colour is below
    [0x888888]. *)
Theorem dark_theme_is_below_888888
    (st : App) (t : CustomTheme) (d1 d2 d3 d4 d5 d6 : ascii)
    (v1 v2 v3 v4 v5 v6 : nat) :
  theme st <> "dark" ->
  activeCustomTheme st = Some t ->
  bg_primary t =
    String "#" (String d1 (String d2 (String d3 (String d4 (String d5
      (String d6 EmptyString)))))) ->
  hexValue d1 = Some v1 -> hexValue d2 = Some v2 -> hexValue d3 = Some v3 ->
  hexValue d4 = Some v4 -> hexValue d5 = Some v5 -> hexValue d6 = Some v6 ->
  isDarkTheme st = (hexNumber [v1; v2; v3; v4; v5; v6] <? 8947848)%Z /\
  defaultTextColor (isDarkTheme st)
    = (if (hexNumber [v1; v2; v3; v4; v5; v6] <? 8947848)%Z then "FFFFFF" else "000000").
Proof.
  intros Hth Hact Hbg H1 H2 H3 H4 H5 H6.
  assert (isDarkTheme st = (hexNumber [v1; v2; v3; v4; v5; v6] <? 8947848)%Z) as Hd.
  { unfold isDarkTheme. apply String.eqb_neq in Hth. rewrite Hth, Hact, Hbg.
    cbn [orb String.eqb toLowerCase]. unfold String.ltb.
    cbn [String.compare].
    change (Ascii.compare (toLowerChar "#") "#") with Eq. cbv iota.
    destruct (hex_digit_compare _ _ H1) as [-> ?], (hex_digit_compare _ _ H2) as [-> ?],
      (hex_digit_compare _ _ H3) as [-> ?], (hex_digit_compare _ _ H4) as [-> ?],
      (hex_digit_compare _ _ H5) as [-> ?], (hex_digit_compare _ _ H6) as [-> ?].
    unfold hexNumber. cbn [fold_left].
    symmetry.
    destruct (Nat.compare_spec v1 8) as [->| |];
      [|apply Z.ltb_lt; lia|apply Z.ltb_ge; lia].
    destruct (Nat.compare_spec v2 8) as [->| |];
      [|apply Z.ltb_lt; lia|apply Z.ltb_ge; lia].
    destruct (Nat.compare_spec v3 8) as [->| |];
      [|apply Z.ltb_lt; lia|apply Z.ltb_ge; lia].
    destruct (Nat.compare_spec v4 8) as [->| |];
      [|apply Z.ltb_lt; lia|apply Z.ltb_ge; lia].
    destruct (Nat.compare_spec v5 8) as [->| |];
      [|apply Z.ltb_lt; lia|apply Z.ltb_ge; lia].
    destruct (Nat.compare_spec v6 8) as [->| |];
      [|apply Z.ltb_lt; lia|apply Z.ltb_ge; lia].
    reflexivity. }
  split; [exact Hd|]. by rewrite Hd.
Qed.

Lemma dark_theme_is_below_888888_witness :
  let t := {| theme_id := "custom-1"; theme_name := "Dusk";
              bg_primary := "#3A2f10"; bg_secondary := "#1e1e1e";
              text_primary := "#f1f1f1"; text_secondary := "#a0a0a0";
              accent_primary := "#3b82f6" |} in
  let st := handleSaveCustomTheme t initialApp in
  theme st <> "dark" /\ activeCustomTheme st = Some t /\
  isDarkTheme st = (hexNumber [3; 10; 2; 15; 1; 0]%nat <? 8947848)%Z /\
  defaultTextColor (isDarkTheme st)
    = (if (hexNumber [3; 10; 2; 15; 1; 0]%nat <? 8947848)%Z then "FFFFFF" else "000000").
Proof.
  intros t st. split; [discriminate|]. split; [reflexivity|].
  apply (dark_theme_is_below_888888 st t "3" "A" "2" "f" "1" "0" 3 10 2 15 1 0);
    first [discriminate | reflexivity].
Defined.

Lemma omap_valid (h : list Slide) (arr : list ref) :
  Forall (fun r => r < length h) arr ->
  length (omap (fun r => h !! r) arr) = length arr /\
  forall i, omap (fun r => h !! r) arr !! i
            = match arr !! i with Some r => h !! r | None => None end.
Proof.
  induction 1 as [|r arr Hr Hall [IHlen IH]]; [split; [done|by intros []]|].
  destruct (lookup_lt_is_Some_2 _ _ Hr) as [s Hs].
  change (omap (fun r => h !! r) (r :: arr))
    with (match h !! r with
          | Some x => x :: omap (fun r => h !! r) arr
          | None => omap (fun r => h !! r) arr
          end).
  rewrite Hs. split; [cbn [length]; by rewrite IHlen|].
  intros [|i]; [by cbn|]. cbn [lookup list_lookup]. apply IH.
Qed.

(** X22. The exported file: on a deck whose references all designate objects
    the export is defined; it has one slide per slide of the deck, in
    order, each laid out by [exportSlide] with the colours of the theme;
    its name is made of lower-case letters, digits and underscores,
    followed by [.pptx]; and with an empty topic and an empty deck the
    name is [presentation.pptx]. *)
Theorem export_to_pptx_covers_the_deck (st : App) :
  refsValid st ->
  exists pptxSlides base,
    handleExportToPPTX st = Some (pptxSlides, (base ++ ".pptx")%string) /\
    length pptxSlides = length (slides st) /\
    (forall i s, derefSlide st (slides st) i = Some s ->
       pptxSlides !! i = Some (exportSlide (isDarkTheme st) s)) /\
    allChars isFileNameChar base = true /\
    (topic st = "" -> slides st = [] -> base = "presentation").
Proof.
  intros Hv. unfold handleExportToPPTX, exportBaseName.
  destruct (omap_valid (heap st) (slides st) Hv) as [Hlen Hdeck].
  fold (deckSlides st) in Hlen, Hdeck.
  assert (exists baseName,
    (if negb (String.eqb (topic st) "") then Some (topic st)
     else match slides st with
          | [] => Some "presentation"
          | r :: _ => title <$> heap st !! r
          end) = Some baseName /\
    (topic st = "" -> slides st = [] -> baseName = "presentation")) as (b & -> & Hb).
  { destruct (String.eqb_spec (topic st) "") as [He|Hne]; cbn [negb].
    - destruct (slides st) as [|r arr] eqn:Hs; [by eexists|].
      unfold refsValid in Hv. rewrite Hs in Hv. apply Forall_cons in Hv as [Hr _].
      destruct (lookup_lt_is_Some_2 _ _ Hr) as [s ->]. by eexists.
    - eexists. split; [done|]. by intros ?. }
  eexists _, _. split; [reflexivity|]. split; [by rewrite length_map|].
  split.
  { intros i s Hd.
    assert (i < length (slides st)) as Hi.
    { apply derefSlide_inv in Hd as (r & Hr & _). by apply lookup_lt_Some in Hr. }
    rewrite list_lookup_fmap, Hdeck. fold (derefSlide st (slides st) i).
    by rewrite Hd. }
  split; [apply safe_file_name_chars|].
  intros Ht Hs. by rewrite (Hb Ht Hs).
Qed.

Lemma export_to_pptx_covers_the_deck_witness :
  let st := deckOf [imageSlide; chartSlide] in
  refsValid st /\
  exists pptxSlides base,
    handleExportToPPTX st = Some (pptxSlides, (base ++ ".pptx")%string) /\
    length pptxSlides = length (slides st) /\
    (forall i s, derefSlide st (slides st) i = Some s ->
       pptxSlides !! i = Some (exportSlide (isDarkTheme st) s)) /\
    allChars isFileNameChar base = true /\
    (topic st = "" -> slides st = [] -> base = "presentation").
Proof.
  intros st. assert (refsValid st) as Hv by (repeat constructor).
  split; [exact Hv|]. exact (export_to_pptx_covers_the_deck st Hv).
Defined.

(** ** Start over *)

(** X23. Start over.  In the read-only view, or on an address with a share
    fragment, it only reloads the page at its path.  Otherwise it
    empties the deck and the outlines and returns to the prompt, and
    keeps the topic, the theme, the custom themes, the busy flags and
    the slide objects; calls in flight are not cancelled: when a
    regenerated image or chart arrives afterwards, its continuation
    finds no slide at its index and the assignment throws inside the
    state updater. *)
Theorem start_over_does_not_cancel_calls (pathname hash : string) (st : App) :
  (isReadOnlyView st = true \/ startsWith hash "#share=" = true ->
   handleStartOver pathname hash st = Reload pathname) /\
  (isReadOnlyView st = false -> startsWith hash "#share=" = false ->
   exists st',
     handleStartOver pathname hash st = Reset st' /\
     slides st' = [] /\ outlines st' = [] /\ selectedOutlineIndex st' = None /\
     currentSlideIndex st' = 0 /\ appStep st' = StepPrompt /\
     topic st' = topic st /\ theme st' = theme st /\
     customThemes st' = customThemes st /\
     slideActionLoading st' = slideActionLoading st /\ heap st' = heap st /\
     (forall index inside o, imageSettled index inside o st' = None) /\
     (forall index chart, chartSettled index (GotChart (Some chart)) st' = None)).
Proof.
  unfold handleStartOver. split.
  - intros [-> | ->]; [done|by rewrite orb_true_r].
  - intros -> ->. cbn [orb]. eexists. split; [reflexivity|].
    repeat split; try done. intros index inside o.
    unfold imageSettled, updateInPlace. by destruct o.
Qed.

Lemma start_over_does_not_cancel_calls_witness :
  let st := deckOf [imageSlide; chartSlide] in
  let shared := setIsReadOnlyView true st in
  handleStartOver "/app/" "#share=e30=" shared = Reload "/app/" /\
  isReadOnlyView st = false /\ startsWith "" "#share=" = false /\
  exists st',
    handleStartOver "/app/" "" st = Reset st' /\
    slides st' = [] /\ outlines st' = [] /\ selectedOutlineIndex st' = None /\
    currentSlideIndex st' = 0 /\ appStep st' = StepPrompt /\
    topic st' = topic st /\ theme st' = theme st /\
    customThemes st' = customThemes st /\
    slideActionLoading st' = slideActionLoading st /\ heap st' = heap st /\
    (forall index inside o, imageSettled index inside o st' = None) /\
    (forall index chart, chartSettled index (GotChart (Some chart)) st' = None).
Proof.
  intros st shared.
  destruct (start_over_does_not_cancel_calls "/app/" "#share=e30=" shared) as [H1 _].
  destruct (start_over_does_not_cancel_calls "/app/" "" st) as [_ H2].
  split; [apply H1; by left|]. split; [reflexivity|]. split; [reflexivity|].
  apply H2; reflexivity.
Defined.

(** ** Enhance wording: reading the format that was asked for *)

Lemma trim_cons (c : ascii) (s : string) :
  isWhiteSpace c = false -> trim (String c s) = String c (trimEnd s).
Proof.
  intros Hc. unfold trim. cbn [trimStart]. rewrite Hc. cbn [trimEnd].
  rewrite Hc. by destruct (trimEnd s).
Qed.

Lemma length_trimEnd (s : string) : String.length (trimEnd s) <= String.length s.
Proof.
  induction s as [|c s IH]; [done|]. cbn [trimEnd].
  destruct (trimEnd s); [destruct (isWhiteSpace c)|]; cbn [String.length] in *; lia.
Qed.

Lemma length_trimStart (s : string) :
  String.length (trimStart s) <= String.length s /\
  (String.length (trimStart s) = String.length s -> trimStart s = s).
Proof.
  induction s as [|c s [IH1 IH2]]; [done|]. cbn [trimStart].
  destruct (isWhiteSpace c); cbn [String.length]; [lia|done].
Qed.

Lemma trim_fixed (s : string) : trim s = s -> trimStart s = s /\ trimEnd s = s.
Proof.
  unfold trim. intros Ht.
  pose proof (length_trimEnd (trimStart s)) as H1.
  destruct (length_trimStart s) as [H2 H3].
  rewrite Ht in H1. assert (trimStart s = s) as Hs by (apply H3; lia).
  split; [done|]. by rewrite Hs in Ht.
Qed.

Lemma trim_space_cons (b : string) : trim b = b -> trim (String " " b) = b.
Proof.
  intros Hb. unfold trim. cbn [trimStart].
  change (isWhiteSpace " ") with true. cbv iota. exact Hb.
Qed.

Lemma trim_trimEnd_space (b : string) :
  trim b = b -> trim (trimEnd (String " " b)) = b.
Proof.
  intros Hb. destruct (trim_fixed b Hb) as [Hs He].
  cbn [trimEnd]. rewrite He. change (isWhiteSpace " ") with true.
  destruct b as [|c b]; [done|]. by apply trim_space_cons.
Qed.

Lemma containsChar_app (c : ascii) (a b : string) :
  containsChar c (a ++ b) = containsChar c a || containsChar c b.
Proof.
  induction a as [|x a IH]; [by rewrite string_app_nil|].
  rewrite string_app_cons. cbn [containsChar]. by rewrite IH, orb_assoc.
Qed.

Lemma filter_all {A} (p : A -> bool) (l : list A) :
  Forall (fun x => p x = true) l -> List.filter p l = l.
Proof. induction 1 as [|x l Hx _ IH]; [done|]. cbn. by rewrite Hx, IH. Qed.

Lemma bullet_lines (bs : list string) :
  Forall (fun b => containsChar LF b = false /\ trim b = b) bs ->
  let lines := List.map (fun b => ("- " ++ b)%string) bs in
  Forall (fun x => containsChar LF x = false) lines /\
  Forall (fun line => negb (String.eqb (trim line) "") = true) lines /\
  List.find (fun line => startsWith (toLowerCase line) "title:") lines = None /\
  List.filter (fun line => startsWith (trim line) "-") lines = lines /\
  List.map (fun line => trim (substringFrom 1 (trim line))) lines = bs.
Proof.
  cbv zeta. induction 1 as [|b bs [Hlf Hb] _ (IH1 & IH2 & IH3 & IH4 & IH5)];
    [by repeat split|].
  cbn [List.map List.find List.filter].
  assert (("- " ++ b)%string = String "-" (String " " b)) as -> by reflexivity.
  rewrite (trim_cons "-" _ eq_refl).
  cbn [substringFrom toLowerCase]. rewrite (trim_trimEnd_space b Hb).
  change (startsWith (String (toLowerChar "-") ?x) "title:") with false. cbv iota.
  assert (startsWith (String "-" (trimEnd (String " " b))) "-" = true) as ->
    by (unfold startsWith; generalize (trimEnd (String " " b)); by intros [|? ?]).
  split; [constructor; [cbn [containsChar]; exact Hlf|done]|].
  split; [constructor; [by rewrite (trim_cons "-" _ eq_refl)|done]|].
  split; [done|]. split; [by rewrite IH4|]. f_equal. exact IH5.
Qed.

(** X24. Enhance wording reads the format its prompt asks for: when the
    response is a title line followed by one line per bullet (title and
    bullets without line feeds and without white space at their ends),
    the bullets are read back as they were written, and so is the
    title; a title that is empty is replaced by the current title of the
    slide. *)
Theorem enhance_reads_its_own_format
    (newTitle currentTitle : string) (bullets : list string) :
  containsChar LF newTitle = false -> trim newTitle = newTitle ->
  Forall (fun b => containsChar LF b = false /\ trim b = b) bullets ->
  enhanceContent (enhanceFormat newTitle bullets) = bullets /\
  enhanceTitle (enhanceFormat newTitle bullets) currentTitle
    = (if String.eqb newTitle "" then currentTitle else newTitle).
Proof.
  intros Hlf Ht Hbs.
  destruct (bullet_lines bullets Hbs) as (B1 & B2 & B3 & B4 & B5).
  set (titleLine := ("Title: " ++ newTitle)%string).
  assert (titleLine = String "T" (String "i" (String "t" (String "l" (String "e"
            (String ":" (String " " newTitle))))))) as HtitleLine by reflexivity.
  assert (enhanceLines (enhanceFormat newTitle bullets)
          = titleLine :: List.map (fun b => ("- " ++ b)%string) bullets) as Hlines.
  { unfold enhanceLines, enhanceFormat. fold titleLine.
    rewrite split_join; [|done|].
    - apply filter_all. constructor; [|exact B2].
      rewrite HtitleLine, (trim_cons "T" _ eq_refl). done.
    - constructor; [|exact B1]. rewrite HtitleLine. cbn [containsChar]. exact Hlf. }
  split.
  - unfold enhanceContent. rewrite Hlines. cbn [List.filter].
    rewrite HtitleLine at 1. rewrite (trim_cons "T" _ eq_refl).
    change (startsWith (String "T" ?x) "-") with false. cbv iota.
    by rewrite B4, B5.
  - unfold enhanceTitle. rewrite Hlines. cbn [List.find].
    assert (startsWith (toLowerCase titleLine) "title:" = true) as ->
      by (by rewrite HtitleLine).
    assert (removeFirstMatch "title:" titleLine = String " " newTitle) as ->
      by (by rewrite HtitleLine).
    by rewrite (trim_space_cons newTitle Ht).
Qed.

Lemma enhance_reads_its_own_format_witness :
  containsChar LF "Sun power" = false /\ trim "Sun power" = "Sun power" /\
  Forall (fun b => containsChar LF b = false /\ trim b = b) ["Cheap"; "Clean"] /\
  enhanceContent (enhanceFormat "Sun power" ["Cheap"; "Clean"]) = ["Cheap"; "Clean"] /\
  enhanceTitle (enhanceFormat "Sun power" ["Cheap"; "Clean"]) "Solar"
    = (if String.eqb "Sun power" "" then "Solar" else "Sun power").
Proof.
  assert (Forall (fun b => containsChar LF b = false /\ trim b = b) ["Cheap"; "Clean"])
    as Hbs by (repeat constructor).
  split; [reflexivity|]. split; [reflexivity|]. split; [exact Hbs|].
  exact (enhance_reads_its_own_format "Sun power" "Solar" ["Cheap"; "Clean"]
           eq_refl eq_refl Hbs).
Defined.
